(** * Load-Balancer: scheduling policies, dial-failure path and start-up

    A shallow embedding of
      - [src/pkg/load_balancer/load_balancer.go] (the four policies),
      - [src/cmd/load_balancer/main.go] ([handleClient] up to the dial, and the
        start-up part of [main]),
    and the properties of the specification that are about them.

    Conventions of the embedding.
      - Go [int] is 64 bits wide: a [Z] with the wrap-around written out ([Go.wrap]).
      - Go [float64] is Rocq's primitive binary64 [float]; [<] and [==] on
        floats are [PrimFloat.ltb] and [PrimFloat.eqb].
      - A Go [map[string]T] is a [gmap string T]; reading a missing key gives
        the zero value of [T], as in Go.
      - A buffered channel is its capacity and the list of buffered values,
        oldest first.
      - Every method body runs under the policy's mutex, so a call is one
        atomic step on the policy state. The clock reading that
        [time.Now()] / [time.Since] obtain is an argument of the step.
      - A call that panics (index out of range) or that blocks forever (send
        on a nil or full channel with the lock held) is an [outcome] of its
        own. *)

From Stdlib Require Import ZArith Lia List String Ascii Bool.
From Stdlib Require Import Floats.
From stdpp Require Import gmap strings list.

Local Open Scope Z_scope.

(** ** Go run-time model *)

Inductive outcome (A : Type) : Type :=
| Returned (a : A)
| Panic
| Blocked.
Arguments Returned {A} a.
Arguments Panic {A}.
Arguments Blocked {A}.

#[global] Instance outcome_ret : MRet outcome := fun A a => Returned a.
#[global] Instance outcome_bind : MBind outcome := fun A B f o =>
  match o with
  | Returned a => f a
  | Panic => Panic
  | Blocked => Blocked
  end.

Module Go.

Definition int_size : Z := 64.

(** [int(^uint(0) >> 1)], the largest [int]. *)
Definition max_int : Z := Z.shiftr (Z.ones int_size) 1.
Definition min_int : Z := - max_int - 1.

(** Two's complement wrap-around of a mathematical integer into [int]. *)
Definition wrap (z : Z) : Z := (z - min_int) mod 2 ^ int_size + min_int.

Definition int_add (a b : Z) : Z := wrap (a + b).
Definition int_sub (a b : Z) : Z := wrap (a - b).

(** [a % b]: truncated remainder; division by zero panics. *)
Definition int_rem (a b : Z) : outcome Z :=
  if b =? 0 then Panic else Returned (Z.rem a b).

(** [len(l)] as an [int]. *)
Definition len {A} (l : list A) : Z := Z.of_nat (length l).

(** [l[i]]: panics out of range. *)
Definition index {A} (l : list A) (i : Z) : outcome A :=
  if (0 <=? i) && (i <? len l)
  then match l !! Z.to_nat i with
       | Some a => Returned a
       | None => Panic
       end
  else Panic.

(** [float64(z)] for an [int] value [z] (round to nearest even); the least
    [int] has no opposite among the 63-bit naturals and converts to [-2^63]. *)
Definition float64_of_int (z : Z) : float :=
  if z <? 0 then
    if z =? min_int then PrimFloat.opp 0x1p63%float
    else PrimFloat.opp (PrimFloat.of_uint63 (Uint63.of_Z (- z)))
  else PrimFloat.of_uint63 (Uint63.of_Z z).

(** A buffered channel [make(chan A, cap)]. *)
Record chan (A : Type) : Type := mkChan { chan_cap : Z; chan_buf : list A }.
Arguments mkChan {A} chan_cap chan_buf.
Arguments chan_cap {A} c.
Arguments chan_buf {A} c.

Definition make_chan {A} (cap : Z) : chan A := mkChan cap [].

(** [select { case c <- v: ... default: ... }]: [None] is the default branch. *)
Definition try_send {A} (c : chan A) (v : A) : option (chan A) :=
  if len (chan_buf c) <? chan_cap c
  then Some (mkChan (chan_cap c) (chan_buf c ++ [v]))
  else None.

(** [select { case v = <-c: ... default: ... }]: [None] is the default branch. *)
Definition try_recv {A} (c : chan A) : option (A * chan A) :=
  match chan_buf c with
  | [] => None
  | v :: rest => Some (v, mkChan (chan_cap c) rest)
  end.

(** [c <- v] while no other goroutine can receive (the sender holds the
    policy's lock, and so does every receiver): it blocks forever when the
    buffer is full. *)
Definition send {A} (c : chan A) (v : A) : outcome (chan A) :=
  match try_send c v with
  | Some c' => Returned c'
  | None => Blocked
  end.

End Go.

(** The part of package [time] the policies use. A [Time] is the monotonic
    clock reading in nanoseconds, a [Duration] an [int64] of nanoseconds. *)
Module time.

Definition Time : Type := Z.
Definition Duration : Type := Z.

Definition Second : Duration := 1000000000.
Definition maxDuration : Duration := Go.max_int.
Definition minDuration : Duration := Go.min_int.

(** [subMono]: the difference of two monotonic readings, saturated. *)
Definition subMono (t u : Z) : Duration :=
  let d := Go.wrap (t - u) in
  if (d <? 0) && (u <? t) then maxDuration
  else if (0 <? d) && (t <? u) then minDuration
  else d.

(** [time.Since(start)] when the clock reads [now]. *)
Definition Since (now start : Time) : Duration := subMono now start.

(** [d.Seconds()]. *)
Definition Seconds (d : Duration) : float :=
  PrimFloat.add (Go.float64_of_int (Z.quot d Second))
                (PrimFloat.div (Go.float64_of_int (Z.rem d Second)) 1e9%float).

End time.

(** One call on a policy, with the clock reading at the call. *)
Inductive call : Type :=
| CallSelect (now : time.Time)
| CallUpdate (server : string) (now : time.Time).

Definition is_select (c : call) : bool :=
  match c with
  | CallSelect _ => true
  | CallUpdate _ _ => false
  end.

Section Calls.
Context {P : Type}.
Variable select : P -> time.Time -> outcome (string * P).
Variable update : P -> string -> time.Time -> P.

(** Runs the calls in order on [p]; the result is the list of backends the
    [SelectServer] calls returned, and the final state. *)
Fixpoint run_calls (cs : list call) (p : P) : outcome (list string * P) :=
  match cs with
  | [] => Returned ([], p)
  | CallSelect now :: cs' =>
      '(b, p1) ← select p now;
      '(bs, p2) ← run_calls cs' p1;
      Returned (b :: bs, p2)
  | CallUpdate s now :: cs' => run_calls cs' (update p s now)
  end.

End Calls.

(** ** N2One: always the first server *)
Module N2One.

Record t : Type := mk { servers : list string }.

Definition NewN2One (servers : list string) : t := mk servers.

Definition SelectServer (p : t) : outcome (string * t) :=
  s ← Go.index (servers p) 0;
  Returned (s, p).

Definition Update (p : t) (server : string) : t := p.

End N2One.

(** ** RoundRobin *)
Module RoundRobin.

Record t : Type := mk { servers : list string; idx : Z }.

Definition NewRoundRobin (servers : list string) : t := mk servers 0.

Definition SelectServer (p : t) : outcome (string * t) :=
  s ← Go.index (servers p) (idx p);
  i ← Go.int_rem (Go.int_add (idx p) 1) (Go.len (servers p));
  Returned (s, mk (servers p) i).

Definition Update (p : t) (server : string) : t := p.

Definition run : list call -> t -> outcome (list string * t) :=
  run_calls (fun p _ => SelectServer p) (fun p s _ => Update p s).

End RoundRobin.

(** ** LeastConnections *)
Module LeastConnections.

Record t : Type := mk { servers : list string; connections : gmap string Z }.

(** [m[s]] for a [map[string]int]: zero when the key is missing. *)
Definition get (m : gmap string Z) (s : string) : Z := default 0 (m !! s).

Definition NewLeastConnections (servers : list string) : t :=
  mk servers (fold_left (fun conn s => <[s := 0]> conn) servers ∅).

(** The scan of [SelectServer]: the pair [(min, selected)] after the loop. *)
Definition scan (conn : gmap string Z) (servers : list string) : Z * string :=
  fold_left
    (fun (acc : Z * string) s =>
       if get conn s <? fst acc then (get conn s, s) else acc)
    servers (Go.max_int, ""%string).

Definition SelectServer (p : t) : string * t :=
  let selected := snd (scan (connections p) (servers p)) in
  (selected,
   mk (servers p)
      (<[selected := Go.int_add (get (connections p) selected) 1]> (connections p))).

Definition Update (p : t) (server : string) : t :=
  match connections p !! server with
  | Some c =>
      if 0 <? c
      then mk (servers p) (<[server := Go.int_sub c 1]> (connections p))
      else p
  | None => p
  end.

(** What a call did: the backend a [SelectServer] returned, or the backend
    an [Update] named together with whether it found the count positive. *)
Inductive event : Type :=
| Selected (b : string)
| Released (s : string) (was_positive : bool).

Fixpoint run (cs : list call) (p : t) : list event * t :=
  match cs with
  | [] => ([], p)
  | CallSelect _ :: cs' =>
      let '(b, p1) := SelectServer p in
      let '(evs, p2) := run cs' p1 in
      (Selected b :: evs, p2)
  | CallUpdate s _ :: cs' =>
      let '(evs, p2) := run cs' (Update p s) in
      (Released s (0 <? get (connections p) s) :: evs, p2)
  end.

Definition is_selection_of (b : string) (e : event) : bool :=
  match e with
  | Selected b' => bool_decide (b' = b)
  | Released _ _ => false
  end.

Definition is_release_of (b : string) (e : event) : bool :=
  match e with
  | Selected _ => false
  | Released s was_positive => bool_decide (s = b) && was_positive
  end.

(** How many [SelectServer] calls returned [b]. *)
Definition selections (b : string) (evs : list event) : Z :=
  Go.len (List.filter (is_selection_of b) evs).

(** How many [Update(b)] calls found the count of [b] strictly positive. *)
Definition releases (b : string) (evs : list event) : Z :=
  Go.len (List.filter (is_release_of b) evs).

(** The state invariant of a policy over [pool] none of whose counts
    exceeds [M]: the keys of [connections] are the pool's backends, as the
    constructor builds them, and every count is between [0] and [M]. *)
Definition inv (pool : list string) (M : Z) (p : t) : Prop :=
  servers p = pool /\
  (forall s, is_Some (connections p !! s) <-> s ∈ pool) /\
  (forall s, 0 <= get (connections p) s <= M).

Definition selected_backends (evs : list event) : list string :=
  omap (fun e => match e with Selected b => Some b | Released _ _ => None end) evs.

End LeastConnections.

(** ** LeastResponseTime (the version the entry point imports) *)
Module LeastResponseTime.

(** The buffer size of every [startTimes] channel. *)
Definition fifo_capacity : Z := 10000.

Record t : Type := mk {
  servers : list string;
  avgTime : gmap string float;
  startTimes : gmap string (Go.chan time.Time);
  pastTimes : gmap string (list float);
  current : Z
}.

(** [m[s]] for a [map[string]float64]: [0.0] when the key is missing. *)
Definition avg (m : gmap string float) (s : string) : float :=
  default 0%float (m !! s).

(** [m[s]] for a [map[string][]float64]: the nil slice when the key is missing. *)
Definition past (m : gmap string (list float)) (s : string) : list float :=
  default [] (m !! s).

(** The constructor's loop fills the three maps side by side; each map is
    the same loop on its own. *)
Definition NewLeastResponseTime (servers : list string) : t :=
  mk servers
     (fold_left (fun m s => <[s := 0%float]> m) servers ∅)
     (fold_left (fun m s => <[s := Go.make_chan fifo_capacity]> m) servers ∅)
     (fold_left (fun m s => <[s := []]> m) servers ∅)
     (-1).

(** First loop of [SelectServer]: the pair [(min, selected)] after the scan
    that starts from [selected := first]. *)
Definition scan_min (avgm : gmap string float) (servers : list string)
    (first : string) : float * string :=
  fold_left
    (fun (acc : float * string) s =>
       if PrimFloat.ltb (avg avgm s) (fst acc) then (avg avgm s, s) else acc)
    servers (avg avgm first, first).

(** Second loop of [SelectServer], [for range len(p.servers)]: [n] iterations
    are left and the cursor is [cur]; the result is the cursor after the loop. *)
Fixpoint rotate (avgm : gmap string float) (servers : list string)
    (selected : string) (n : nat) (cur : Z) : outcome Z :=
  match n with
  | O => Returned cur
  | S n' =>
      cur' ← Go.int_rem (Go.int_add cur 1) (Go.len servers);
      s ← Go.index servers cur';
      if PrimFloat.eqb (avg avgm s) (avg avgm selected)
      then Returned cur'
      else rotate avgm servers selected n' cur'
  end.

(** The [select] that pushes [now]: a plain send when there is room,
    otherwise one non-blocking receive and then a blocking send. A missing
    key is the nil channel, on which the last send blocks forever. *)
Definition push_start (ch : option (Go.chan time.Time)) (now : time.Time)
    : outcome (Go.chan time.Time) :=
  match ch with
  | None => Blocked
  | Some c =>
      match Go.try_send c now with
      | Some c' => Returned c'
      | None =>
          let c1 := match Go.try_recv c with
                    | Some (_, c1) => c1
                    | None => c
                    end in
          Go.send c1 now
      end
  end.

Definition SelectServer (p : t) (now : time.Time) : outcome (string * t) :=
  first ← Go.index (servers p) 0;
  let selected := snd (scan_min (avgTime p) (servers p) first) in
  cur ← rotate (avgTime p) (servers p) selected (length (servers p)) (current p);
  b ← Go.index (servers p) cur;
  ch ← push_start (startTimes p !! b) now;
  Returned (b, mk (servers p) (avgTime p) (<[b := ch]> (startTimes p))
                  (pastTimes p) cur).

(** [sum / float64(len(hist))] with [sum] accumulated left to right from [0.0]. *)
Definition mean (hist : list float) : float :=
  PrimFloat.div (fold_left PrimFloat.add hist 0%float)
                (Go.float64_of_int (Go.len hist)).

Definition Update (p : t) (server : string) (now : time.Time) : t :=
  match startTimes p !! server with
  | None => p
  | Some ch =>
      match Go.try_recv ch with
      | None => p
      | Some (start, ch') =>
          let elapsed := time.Seconds (time.Since now start) in
          let hist := past (pastTimes p) server ++ [elapsed] in
          mk (servers p)
             (<[server := mean hist]> (avgTime p))
             (<[server := ch']> (startTimes p))
             (<[server := hist]> (pastTimes p))
             (current p)
      end
  end.

Definition run : list call -> t -> outcome (list string * t) :=
  run_calls SelectServer Update.

(** The running mean of the backend at position [i] of the pool. *)
Definition avg_at (p : t) (i : Z) : float :=
  avg (avgTime p) (default ""%string (servers p !! Z.to_nat i)).

(** Whether the backend at position [i] of [pool] is tied with [selected]:
    the test of the second loop of [SelectServer]. *)
Definition tied (avgm : gmap string float) (pool : list string)
    (selected : string) (i : Z) : bool :=
  PrimFloat.eqb (avg avgm (default ""%string (pool !! Z.to_nat i)))
                (avg avgm selected).

(** The state invariant of a policy over [pool]: the channels are those of
    the pool's backends, each with the constructor's capacity and no more
    than that many pending timestamps, and the cursor is [-1] (before the
    first selection) or a position of the pool. *)
Definition inv (pool : list string) (p : t) : Prop :=
  servers p = pool /\
  (forall s, is_Some (startTimes p !! s) <-> s ∈ pool) /\
  (forall s ch, startTimes p !! s = Some ch ->
     Go.chan_cap ch = fifo_capacity /\
     Go.len (Go.chan_buf ch) <= fifo_capacity) /\
  -1 <= current p < Go.len pool.

End LeastResponseTime.

(** ** The [Policy] interface: the closed set of its four implementations *)
Module Policy.

Inductive t : Type :=
| OfN2One (p : N2One.t)
| OfRoundRobin (p : RoundRobin.t)
| OfLeastConnections (p : LeastConnections.t)
| OfLeastResponseTime (p : LeastResponseTime.t).

(** The policy names [main] accepts for [-a]. *)
Inductive kind : Type := N2One | RoundRobin | LeastConnections | LeastResponseTime.

(** The constructor call of [main]'s [switch] for each name. *)
Definition New (k : kind) (servers : list string) : t :=
  match k with
  | N2One => OfN2One (N2One.NewN2One servers)
  | RoundRobin => OfRoundRobin (RoundRobin.NewRoundRobin servers)
  | LeastConnections => OfLeastConnections (LeastConnections.NewLeastConnections servers)
  | LeastResponseTime =>
      OfLeastResponseTime (LeastResponseTime.NewLeastResponseTime servers)
  end.

Definition SelectServer (p : t) (now : time.Time) : outcome (string * t) :=
  match p with
  | OfN2One q => '(b, q') ← N2One.SelectServer q; Returned (b, OfN2One q')
  | OfRoundRobin q => '(b, q') ← RoundRobin.SelectServer q; Returned (b, OfRoundRobin q')
  | OfLeastConnections q =>
      let '(b, q') := LeastConnections.SelectServer q in
      Returned (b, OfLeastConnections q')
  | OfLeastResponseTime q =>
      '(b, q') ← LeastResponseTime.SelectServer q now;
      Returned (b, OfLeastResponseTime q')
  end.

Definition Update (p : t) (server : string) (now : time.Time) : t :=
  match p with
  | OfN2One q => OfN2One (N2One.Update q server)
  | OfRoundRobin q => OfRoundRobin (RoundRobin.Update q server)
  | OfLeastConnections q => OfLeastConnections (LeastConnections.Update q server)
  | OfLeastResponseTime q => OfLeastResponseTime (LeastResponseTime.Update q server now)
  end.

Definition run : list call -> t -> outcome (list string * t) :=
  run_calls SelectServer Update.

(** The backend pool of a policy. *)
Definition servers (p : t) : list string :=
  match p with
  | OfN2One q => N2One.servers q
  | OfRoundRobin q => RoundRobin.servers q
  | OfLeastConnections q => LeastConnections.servers q
  | OfLeastResponseTime q => LeastResponseTime.servers q
  end.

(** The rotating cursor of a policy, for the variants that have one. *)
Definition cursor (p : t) : option Z :=
  match p with
  | OfN2One _ => None
  | OfRoundRobin q => Some (RoundRobin.idx q)
  | OfLeastConnections _ => None
  | OfLeastResponseTime q => Some (LeastResponseTime.current q)
  end.

(** The variant of a policy. *)
Definition kind_of (p : t) : kind :=
  match p with
  | OfN2One _ => N2One
  | OfRoundRobin _ => RoundRobin
  | OfLeastConnections _ => LeastConnections
  | OfLeastResponseTime _ => LeastResponseTime
  end.

(** The state invariant of a policy over [pool], whatever its variant; [M]
    bounds the counts of LeastConnections. *)
Definition inv (pool : list string) (M : Z) (p : t) : Prop :=
  match p with
  | OfN2One q => N2One.servers q = pool
  | OfRoundRobin q => RoundRobin.servers q = pool
  | OfLeastConnections q => LeastConnections.inv pool M q
  | OfLeastResponseTime q => LeastResponseTime.inv pool q
  end.

(** Everything a policy stores under the key [s]. *)
Record backend_state : Type := mkBackendState {
  bs_count : option Z;
  bs_avg : option float;
  bs_fifo : option (Go.chan time.Time);
  bs_history : option (list float)
}.

Definition per_backend (p : t) (s : string) : backend_state :=
  match p with
  | OfN2One _ => mkBackendState None None None None
  | OfRoundRobin _ => mkBackendState None None None None
  | OfLeastConnections q =>
      mkBackendState (LeastConnections.connections q !! s) None None None
  | OfLeastResponseTime q =>
      mkBackendState None (LeastResponseTime.avgTime q !! s)
                     (LeastResponseTime.startTimes q !! s)
                     (LeastResponseTime.pastTimes q !! s)
  end.

End Policy.

(** ** [cmd/load_balancer/main.go] *)
Module main.

(** [handleClient] when [net.Dial] returns an error: the selection at clock
    reading [t_select], then the compensating [Update] at [t_update]; the
    result is the policy state the handler leaves behind. *)
Definition handleClient_dial_error (policy : Policy.t)
    (t_select t_update : time.Time) : outcome Policy.t :=
  '(backend, p1) ← Policy.SelectServer policy t_select;
  Returned (Policy.Update p1 backend t_update).

(** The command line as [flag.Parse] sees it: [None] when a flag is absent. *)
Record flags : Type := mkFlags {
  flag_a : option string;
  flag_p : option Z;
  flag_s : option string
}.

Inductive fatal : Type :=
| NoBackendServers
| UnknownPolicy (name : string)
| ListenFailed (port : Z).

(** How far start-up gets: a [logger.Fatalf] (the process exits with status
    1), or the accept loop running with the policy on the port. *)
Inductive startup : Type :=
| Fatal (why : fatal)
| AcceptLoop (policy : Policy.t) (port : Z).

(** ASCII white space, as [strings.Fields] splits on it. *)
Definition isSpace (c : ascii) : bool :=
  match c with
  | "009"%char | "010"%char | "011"%char | "012"%char | "013"%char | " "%char => true
  | _ => false
  end.

Fixpoint fields_from (s : string) (word : string) : list string :=
  match s with
  | EmptyString => if String.eqb word "" then [] else [word]
  | String c rest =>
      if isSpace c
      then (if String.eqb word "" then fields_from rest ""
            else word :: fields_from rest "")
      else fields_from rest (word +:+ String c "")
  end.

(** [strings.Fields] on ASCII input. *)
Definition Fields (s : string) : list string := fields_from s "".

(** The cases of [switch *policyName]. *)
Definition policy_kind (name : string) : option Policy.kind :=
  if String.eqb name "N2One" then Some Policy.N2One
  else if String.eqb name "RoundRobin" then Some Policy.RoundRobin
  else if String.eqb name "LeastConnections" then Some Policy.LeastConnections
  else if String.eqb name "LeastResponseTime" then Some Policy.LeastResponseTime
  else None.

(** [main] up to the accept loop; [listen_ok] is whether [net.Listen] succeeds. *)
Definition main (f : flags) (listen_ok : bool) : startup :=
  let policyName := default "RoundRobin"%string (flag_a f) in
  let port := default 8080 (flag_p f) in
  let serversFlag := default ""%string (flag_s f) in
  if (String.length serversFlag =? 0)%nat then Fatal NoBackendServers
  else
    let servers := Fields serversFlag in
    match policy_kind policyName with
    | None => Fatal (UnknownPolicy policyName)
    | Some k =>
        let policy := Policy.New k servers in
        if listen_ok then AcceptLoop policy port else Fatal (ListenFailed port)
    end.

End main.

(** ** The test scenarios of [load_balancer_test.go] *)
Module load_balancer_test.

Definition servers : list string :=
  ["localhost:5000"; "localhost:5001"; "localhost:5002"; "localhost:5003"]%string.

Definition peers : list string :=
  ["localhost:5000"; "localhost:5003"; "localhost:5002"]%string.

(** The [k]-th value [releaseSocket()] yields: [peers[k % len(peers)]]. *)
Definition releaseSocket (peers : list string) (k : nat) : string :=
  default ""%string (peers !! (k mod length peers)%nat).

Definition Millisecond : time.Duration := 1000000.

(** The calls of the loop [for i := range 8] of the [...Update] tests, from
    iteration [i] on: one [SelectServer], then, when [i > 3], one [Update]
    with the next value of [releaseSocket]. In iteration [i] the clock reads
    [select_at i] at the selection and [update_at i] at the update. *)
Fixpoint update_test_calls (peers : list string)
    (select_at update_at : nat -> time.Time) (n i : nat) : list call :=
  match n with
  | O => []
  | S n' =>
      CallSelect (select_at i)
      :: (if (3 <? i)%nat
          then [CallUpdate (releaseSocket peers (i - 4)) (update_at i)] else [])
      ++ update_test_calls peers select_at update_at n' (S i)
  end.

(** Iterations separated by [time.Sleep(100 * time.Millisecond)]. *)
Definition sleep_clock (i : nat) : time.Time := Z.of_nat i * (100 * Millisecond).

(** The same with a late start and sleeps that overshoot by 3.000017ms,
    and the clock 25 microseconds later when the update is made. *)
Definition late_clock (i : nat) : time.Time :=
  1234567 + Z.of_nat i * (100 * Millisecond + 3000017).

Definition later_clock (i : nat) : time.Time := late_clock i + 25000.

(** [equal], the helper that compares two string slices: the lengths
    first, then the elements position by position, [for i := range a]. *)
Definition equal (a b : list string) : bool :=
  if negb (Go.len a =? Go.len b) then false
  else
    forallb
      (fun i : nat =>
         if negb (String.eqb (default ""%string (a !! i))
                             (default ""%string (b !! i)))
         then false else true)
      (seq 0 (length a)).

End load_balancer_test.

(** ** The standalone copy [cmd/load_balancer/load_balancer.go]

    Its N2One, RoundRobin and LeastConnections are the ones of the package,
    line by line; its LeastResponseTime has no cursor. *)
Module legacy.

Record t : Type := mk {
  servers : list string;
  avgTime : gmap string float;
  startTimes : gmap string (Go.chan time.Time);
  pastTimes : gmap string (list float)
}.

Definition NewLeastResponseTime (servers : list string) : t :=
  mk servers
     (fold_left (fun m s => <[s := 0%float]> m) servers ∅)
     (fold_left
        (fun m s => <[s := Go.make_chan LeastResponseTime.fifo_capacity]> m)
        servers ∅)
     (fold_left (fun m s => <[s := []]> m) servers ∅).

(** The scan is that of the package; the start time goes to the FIFO of
    [selected], which is returned. *)
Definition SelectServer (p : t) (now : time.Time) : outcome (string * t) :=
  first ← Go.index (servers p) 0;
  let selected :=
    snd (LeastResponseTime.scan_min (avgTime p) (servers p) first) in
  ch ← LeastResponseTime.push_start (startTimes p !! selected) now;
  Returned (selected,
            mk (servers p) (avgTime p) (<[selected := ch]> (startTimes p))
               (pastTimes p)).

Definition Update (p : t) (server : string) (now : time.Time) : t :=
  match startTimes p !! server with
  | None => p
  | Some ch =>
      match Go.try_recv ch with
      | None => p
      | Some (start, ch') =>
          let elapsed := time.Seconds (time.Since now start) in
          let hist := LeastResponseTime.past (pastTimes p) server ++ [elapsed] in
          mk (servers p)
             (<[server := LeastResponseTime.mean hist]> (avgTime p))
             (<[server := ch']> (startTimes p))
             (<[server := hist]> (pastTimes p))
      end
  end.

Definition run : list call -> t -> outcome (list string * t) :=
  run_calls SelectServer Update.

(** The state invariant over [pool]: the channels are those of the pool's
    backends, each with the constructor's capacity and no more than that
    many pending timestamps. *)
Definition inv (pool : list string) (p : t) : Prop :=
  servers p = pool /\
  (forall s, is_Some (startTimes p !! s) <-> s ∈ pool) /\
  (forall s ch, startTimes p !! s = Some ch ->
     Go.chan_cap ch = LeastResponseTime.fifo_capacity /\
     Go.len (Go.chan_buf ch) <= LeastResponseTime.fifo_capacity).

End legacy.

(** ** The handlers of [main.go] side by side

    [main] starts [handleClient] in a goroutine of its own for every
    accepted connection. A handler calls [SelectServer] once, at its start,
    and [Update] once with the backend it got, at its end (after a failed
    dial, or when both copies are done). The policy's mutex makes each of
    these calls one step, so a run of the accept loop with its handlers is
    a sequence of handler starts and handler ends, in any order in which
    every end comes after its start.

    This is so for N2One (no state is written), RoundRobin and
    LeastConnections (the lock is held until the method returns a local
    variable). [LeastResponseTime.SelectServer] unlocks before it evaluates
    its [return] expression: for that policy a [Start] is a selection whose
    result is read before any other call on the policy, and [handlers]
    below has the two steps apart. *)
Module sessions.

Inductive event : Type :=
| Start (now : time.Time)
| Finish (i : nat) (now : time.Time).

(** The policy, the backends of the handlers that are between their
    [SelectServer] and their [Update], oldest first, and the backends of
    the handlers that have ended, in the order in which they ended. *)
Record state : Type := mk {
  policy : Policy.t;
  in_flight : list string;
  ended : list string
}.

Definition start (policy : Policy.t) : state := mk policy [] [].

(** [Finish i] ends the [i]-th handler in flight; there is nothing to end
    when there are not that many. *)
Fixpoint run (evs : list event) (st : state) : outcome state :=
  match evs with
  | [] => Returned st
  | Start now :: evs' =>
      '(backend, p1) ← Policy.SelectServer (policy st) now;
      run evs' (mk p1 (in_flight st ++ [backend]) (ended st))
  | Finish i now :: evs' =>
      match in_flight st !! i with
      | Some backend =>
          run evs' (mk (Policy.Update (policy st) backend now)
                       (delete i (in_flight st))
                       (ended st ++ [backend]))
      | None => run evs' st
      end
  end.

(** How many handlers in flight hold [b]. *)
Definition holding (b : string) (l : list string) : Z :=
  Go.len (List.filter (String.eqb b) l).

End sessions.

(** ** The handlers over LeastResponseTime, step by step

    [LeastResponseTime.SelectServer] ends in

      [p.mu.Unlock()]
      [return p.servers[p.current]]

    so the backend a handler gets is read from the cursor after the lock
    is released: another handler's selection can move the cursor in
    between. A handler is therefore three steps: the locked part of
    [SelectServer], the read of its result, and [Update]. The reads of
    this model fall between locked parts; a read that falls inside the
    cursor loop of another handler's locked part, and so sees a cursor that
    loop has not finished moving, is not among its schedules. *)
Module handlers.

(** [SelectServer] from [p.mu.Lock()] to [p.mu.Unlock()]. *)
Definition locked (p : LeastResponseTime.t) (now : time.Time)
    : outcome LeastResponseTime.t :=
  first ← Go.index (LeastResponseTime.servers p) 0;
  let selected :=
    snd (LeastResponseTime.scan_min (LeastResponseTime.avgTime p)
           (LeastResponseTime.servers p) first) in
  cur ← LeastResponseTime.rotate (LeastResponseTime.avgTime p)
          (LeastResponseTime.servers p) selected
          (length (LeastResponseTime.servers p)) (LeastResponseTime.current p);
  b ← Go.index (LeastResponseTime.servers p) cur;
  ch ← LeastResponseTime.push_start (LeastResponseTime.startTimes p !! b) now;
  Returned (LeastResponseTime.mk (LeastResponseTime.servers p)
              (LeastResponseTime.avgTime p)
              (<[b := ch]> (LeastResponseTime.startTimes p))
              (LeastResponseTime.pastTimes p) cur).

(** [return p.servers[p.current]]. *)
Definition result (p : LeastResponseTime.t) : outcome string :=
  Go.index (LeastResponseTime.servers p) (LeastResponseTime.current p).

Inductive event : Type :=
| Lock (now : time.Time)
| Return
| Finish (i : nat) (now : time.Time).

(** The policy, how many handlers are between the unlock and the read of
    their result, the backends of the handlers that have read it and are
    before their [Update], oldest first, and the backends of the handlers
    that have ended. *)
Record state : Type := mk {
  policy : LeastResponseTime.t;
  returning : nat;
  in_flight : list string;
  ended : list string
}.

Definition start (policy : LeastResponseTime.t) : state := mk policy 0 [] [].

(** [Return] lets one handler read its result, and [Finish i] ends the
    [i]-th handler in flight; there is nothing to do when there is no such
    handler. *)
Fixpoint run (evs : list event) (st : state) : outcome state :=
  match evs with
  | [] => Returned st
  | Lock now :: evs' =>
      p1 ← locked (policy st) now;
      run evs' (mk p1 (S (returning st)) (in_flight st) (ended st))
  | Return :: evs' =>
      match returning st with
      | O => run evs' st
      | S n =>
          backend ← result (policy st);
          run evs' (mk (policy st) n (in_flight st ++ [backend]) (ended st))
      end
  | Finish i now :: evs' =>
      match in_flight st !! i with
      | Some backend =>
          run evs' (mk (LeastResponseTime.Update (policy st) backend now)
                       (returning st)
                       (delete i (in_flight st))
                       (ended st ++ [backend]))
      | None => run evs' st
      end
  end.

(** The schedules in which every handler reads its result right after its
    locked part: those of [sessions]. *)
Definition serial (evs : list sessions.event) : list event :=
  flat_map (fun e => match e with
                     | sessions.Start now => [Lock now; Return]
                     | sessions.Finish i now => [Finish i now]
                     end) evs.

End handlers.

(** ** States of a run *)
Module reach.

(** [Policy.inv], and the cursor of RoundRobin on a position of the pool. *)
Definition wf (pool : list string) (M : Z) (p : Policy.t) : Prop :=
  Policy.inv pool M p /\
  match p with
  | Policy.OfRoundRobin q => 0 <= RoundRobin.idx q < Go.len pool
  | _ => True
  end.

(** The backend at position [j mod N] of the pool. *)
Definition turn (pool : list string) (j : nat) : string :=
  default ""%string (pool !! (j mod length pool)%nat).

(** How many of the calls are [SelectServer] calls. *)
Definition selects (cs : list call) : nat := length (List.filter is_select cs).

(** The counts of LeastConnections after [k] selections and no release:
    every backend has [k / N], and the first [k mod N] of the pool one more. *)
Definition dealt (pool : list string) (k : nat) (p : LeastConnections.t) : Prop :=
  LeastConnections.servers p = pool /\
  forall (i : nat) s, pool !! i = Some s ->
    LeastConnections.get (LeastConnections.connections p) s
    = Z.of_nat (k / length pool) + (if (i <? k mod length pool)%nat then 1 else 0).

(** Every count of LeastConnections is the number of handlers in flight on
    that backend. *)
Definition tracked (p : LeastConnections.t) (l : list string) : Prop :=
  forall b, LeastConnections.get (LeastConnections.connections p) b
            = sessions.holding b l.

(** How many start times are pending for [b]. *)
Definition pending (p : LeastResponseTime.t) (b : string) : Z :=
  match LeastResponseTime.startTimes p !! b with
  | Some ch => Go.len (Go.chan_buf ch)
  | None => 0
  end.

(** The running mean that goes with a history: [0.0], the constructor's
    value, as long as the history is empty. *)
Definition mean_of (hist : list float) : float :=
  match hist with
  | [] => 0%float
  | _ :: _ => LeastResponseTime.mean hist
  end.

(** The stored running mean of every backend of LeastResponseTime is the
    one that goes with its stored history. *)
Definition consistent (p : LeastResponseTime.t) : Prop :=
  forall b, LeastResponseTime.avgTime p !! b
            = mean_of <$> LeastResponseTime.pastTimes p !! b.

(** One pending start time for each handler in flight ([l]) and one sample
    for each handler that ended ([fin]), backend by backend. *)
Definition paired (p : LeastResponseTime.t) (l fin : list string) : Prop :=
  forall b, pending p b = sessions.holding b l /\
            Go.len (LeastResponseTime.past (LeastResponseTime.pastTimes p) b)
            = sessions.holding b fin.

End reach.

(** ** Values of the [-s] flag *)
Module words.

(** White space only. *)
Definition blank (s : string) : bool :=
  forallb main.isSpace (list_ascii_of_string s).

(** ASCII only: the values on which [main.Fields] is [strings.Fields]. *)
Definition ascii_only (s : string) : bool :=
  forallb (fun c => (nat_of_ascii c <? 128)%nat) (list_ascii_of_string s).

(** Not empty, ASCII, and no white space. *)
Definition is_word (w : string) : bool :=
  negb (String.eqb w "") &&
  forallb (fun c => negb (main.isSpace c) && (nat_of_ascii c <? 128)%nat)
          (list_ascii_of_string w).

(** The words, each followed by its separator. *)
Fixpoint spaced (ws : list (string * string)) : string :=
  match ws with
  | [] => ""
  | (w, sep) :: ws' => w +:+ sep +:+ spaced ws'
  end.

(** Every word is one and every separator is white space, not empty
    unless it is the last. *)
Fixpoint well_spaced (ws : list (string * string)) : bool :=
  match ws with
  | [] => true
  | (w, sep) :: ws' =>
      is_word w && blank sep &&
      (negb (String.eqb sep "") || match ws' with [] => true | _ => false end) &&
      well_spaced ws'
  end.

End words.

(** ** The demonstration backend: [leibnizPiPrecision] *)
Module server.

Definition Millisecond : time.Duration := 1000000.

(** The loop [for i := range precision], [n] iterations from [i] on: the
    value of [rv] and the time slept so far. *)
Fixpoint leibniz_loop (n : nat) (i : Z) (rv : float) (slept : time.Duration)
    : float * time.Duration :=
  match n with
  | O => (rv, slept)
  | S n' =>
      let term :=
        PrimFloat.div 1
          (PrimFloat.add
             (PrimFloat.mul 2 (Go.float64_of_int (Go.int_add i 1))) 1) in
      let rv' := if Z.rem i 2 =? 0 then PrimFloat.sub rv term
                 else PrimFloat.add rv term in
      leibniz_loop n' (Go.int_add i 1) rv'
        (slept + 1 * Millisecond)
  end.

(** The result, and the least time the call takes: one
    [time.Sleep(1 * time.Millisecond)] for each iteration. *)
Definition leibnizPiPrecision (precision : Z) : float * time.Duration :=
  let '(rv, slept) := leibniz_loop (Z.to_nat precision) 0 1 0 in
  (PrimFloat.mul rv 4, slept).

End server.

(** * Properties *)

(** ** Go integers *)

Lemma max_int_eq : Go.max_int = 2 ^ 63 - 1.
Proof. reflexivity. Qed.

Lemma wrap_in_range (z : Z) :
  Go.min_int <= z <= Go.max_int -> Go.wrap z = z.
Proof.
  intros Hz. unfold Go.wrap.
  rewrite Z.mod_small; [lia|].
  unfold Go.min_int in *. rewrite max_int_eq in *. unfold Go.int_size. lia.
Qed.

Lemma int_add_in_range (a b : Z) :
  Go.min_int <= a + b <= Go.max_int -> Go.int_add a b = a + b.
Proof. apply wrap_in_range. Qed.

Lemma int_sub_in_range (a b : Z) :
  Go.min_int <= a - b <= Go.max_int -> Go.int_sub a b = a - b.
Proof. apply wrap_in_range. Qed.

Lemma index_Returned {A} (l : list A) (i : Z) (a : A) :
  Go.index l i = Returned a <-> 0 <= i /\ l !! Z.to_nat i = Some a.
Proof.
  unfold Go.index, Go.len. split.
  - destruct (0 <=? i) eqn:H0; [|discriminate].
    destruct (i <? Z.of_nat (length l)) eqn:H1; [|discriminate]. simpl.
    destruct (l !! Z.to_nat i); [|discriminate].
    intros [= ->]. split; [lia|done].
  - intros [H0 Hl]. pose proof (lookup_lt_Some _ _ _ Hl).
    rewrite (proj2 (Z.leb_le 0 i) H0).
    rewrite (proj2 (Z.ltb_lt i (Z.of_nat (length l)))) by lia.
    simpl. by rewrite Hl.
Qed.

(** The constructors' loops: every pool member is a key, with the initial
    value, and nothing else is. *)
Lemma fold_insert_lookup {V} (v : V) (l : list string) (m : gmap string V) (k : string) :
  fold_left (fun m s => <[s := v]> m) l m !! k
  = if decide (k ∈ l) then Some v else m !! k.
Proof.
  revert m. induction l as [|s l IH]; intros m; simpl.
  - destruct (decide (k ∈ [])) as [H|H]; [by apply elem_of_nil in H|done].
  - rewrite IH. destruct (decide (k ∈ l)) as [Hin|Hnin].
    + rewrite decide_True by (apply elem_of_cons; by right). done.
    + destruct (decide (k = s)) as [->|Hne].
      * rewrite decide_True by (apply elem_of_cons; by left).
        by rewrite lookup_insert_eq.
      * rewrite decide_False by (by intros [?|?]%elem_of_cons).
        by rewrite lookup_insert_ne.
Qed.

(** ** LeastConnections *)
Section LeastConnectionsFacts.
Import LeastConnections.

Lemma lc_scan_fold (conn : gmap string Z) (l : list string) (m0 : Z) (s0 : string) :
  let r := fold_left
             (fun (acc : Z * string) s =>
                if get conn s <? fst acc then (get conn s, s) else acc)
             l (m0, s0) in
  (r = (m0, s0) /\ forall s, s ∈ l -> m0 <= get conn s) \/
  (snd r ∈ l /\ fst r = get conn (snd r) /\ fst r < m0 /\
   forall s, s ∈ l -> fst r <= get conn s).
Proof.
  revert m0 s0. induction l as [|x l IH]; intros m0 s0; simpl.
  - left. split; [done|]. intros s Hs. by apply elem_of_nil in Hs.
  - destruct (get conn x <? m0) eqn:Hlt.
    + apply Z.ltb_lt in Hlt. right.
      destruct (IH (get conn x) x) as [[Hr Hall]|(Hin & Hget & Hless & Hall)].
      * rewrite Hr. simpl. split; [set_solver|]. split; [done|]. split; [done|].
        intros s Hs. apply elem_of_cons in Hs as [->|Hs]; [lia|by apply Hall].
      * split; [set_solver|]. split; [done|]. split; [lia|].
        intros s Hs. apply elem_of_cons in Hs as [->|Hs]; [lia|by apply Hall].
    + apply Z.ltb_ge in Hlt.
      destruct (IH m0 s0) as [[Hr Hall]|(Hin & Hget & Hless & Hall)].
      * left. split; [done|].
        intros s Hs. apply elem_of_cons in Hs as [->|Hs]; [lia|by apply Hall].
      * right. split; [set_solver|]. split; [done|]. split; [done|].
        intros s Hs. apply elem_of_cons in Hs as [->|Hs]; [lia|by apply Hall].
Qed.

(** When some pool member is below the largest [int], the scan selects a
    pool member with the smallest count. *)
Lemma lc_scan_selected (conn : gmap string Z) (pool : list string) (s : string) :
  s ∈ pool -> get conn s < Go.max_int ->
  let sel := snd (scan conn pool) in
  sel ∈ pool /\ get conn sel < Go.max_int /\
  forall s', s' ∈ pool -> get conn sel <= get conn s'.
Proof.
  intros Hs Hlt. unfold scan.
  destruct (lc_scan_fold conn pool Go.max_int "") as [[_ Hall]|(Hin & Hget & Hless & Hall)].
  - specialize (Hall s Hs). lia.
  - simpl. split; [done|]. rewrite <- Hget. split; [done|]. done.
Qed.

Lemma get_insert_eq (m : gmap string Z) (s : string) (v : Z) :
  get (<[s := v]> m) s = v.
Proof. unfold get. by rewrite lookup_insert_eq. Qed.

Lemma get_insert_ne (m : gmap string Z) (s s' : string) (v : Z) :
  s <> s' -> get (<[s := v]> m) s' = get m s'.
Proof. intros. unfold get. by rewrite lookup_insert_ne. Qed.

Lemma lc_inv_New (pool : list string) : inv pool 0 (NewLeastConnections pool).
Proof.
  unfold inv, NewLeastConnections, get; simpl. split; [done|].
  split; intros s; rewrite fold_insert_lookup;
    destruct (decide (s ∈ pool)); simpl; rewrite ?lookup_empty; simpl;
    try lia; split; intros H; try done; try (by destruct H).
Qed.

Lemma lc_inv_weaken (pool : list string) (M M' : Z) (p : t) :
  inv pool M p -> M <= M' -> inv pool M' p.
Proof.
  intros (Hs & Hk & Hc) HM. split; [done|]. split; [done|].
  intros s. specialize (Hc s). lia.
Qed.

Lemma lc_inv_SelectServer (pool : list string) (M : Z) (p : t) :
  pool <> [] -> M < Go.max_int -> inv pool M p ->
  let b := fst (SelectServer p) in
  let p' := snd (SelectServer p) in
  b ∈ pool /\ inv pool (M + 1) p' /\
  get (connections p') b = get (connections p) b + 1 /\
  forall s, s <> b -> connections p' !! s = connections p !! s.
Proof.
  intros Hne HM (Hs & Hk & Hc). simpl.
  assert (Hex : exists s0, s0 ∈ pool).
  { destruct pool as [|s0 ?]; [done|]. exists s0. apply elem_of_cons. by left. }
  destruct Hex as [s0 Hs0].
  destruct (lc_scan_selected (connections p) pool s0 Hs0) as (Hin & Hlt & Hmin).
  { specialize (Hc s0). lia. }
  rewrite Hs. set (sel := snd (scan (connections p) pool)) in *.
  pose proof (Hc sel) as Hcs.
  assert (Hadd : Go.int_add (get (connections p) sel) 1 = get (connections p) sel + 1).
  { apply int_add_in_range. unfold Go.min_int. rewrite max_int_eq in *. lia. }
  rewrite Hadd. split; [done|]. split; [|split].
  - unfold inv; simpl. split; [done|]. split.
    + intros s. destruct (decide (sel = s)) as [<-|Hnes].
      * rewrite lookup_insert_eq. split; [done|]. intros _. by eexists.
      * rewrite lookup_insert_ne by done. apply Hk.
    + intros s. destruct (decide (sel = s)) as [<-|Hnes].
      * rewrite get_insert_eq. lia.
      * rewrite get_insert_ne by done. specialize (Hc s). lia.
  - apply get_insert_eq.
  - intros s Hnes. by rewrite lookup_insert_ne.
Qed.

Lemma lc_inv_Update (pool : list string) (M : Z) (p : t) (s : string) :
  M <= Go.max_int -> inv pool M p ->
  inv pool M (Update p s) /\
  get (connections (Update p s)) s
  = (if 0 <? get (connections p) s
     then get (connections p) s - 1 else get (connections p) s) /\
  forall s', s' <> s -> connections (Update p s) !! s' = connections p !! s'.
Proof.
  intros HM (Hs & Hk & Hc). unfold Update.
  pose proof (Hc s) as Hcs. unfold get in Hcs |- *.
  destruct (connections p !! s) as [c|] eqn:Hlook; simpl in *.
  - destruct (0 <? c) eqn:Hpos; simpl.
    + apply Z.ltb_lt in Hpos.
      assert (Hsub : Go.int_sub c 1 = c - 1).
      { apply int_sub_in_range. unfold Go.min_int. rewrite max_int_eq in *. lia. }
      rewrite Hsub. split; [|split].
      * unfold inv; simpl. split; [done|]. split.
        -- intros s'. destruct (decide (s = s')) as [<-|Hnes].
           ++ rewrite lookup_insert_eq. rewrite <- Hk, Hlook. done.
           ++ rewrite lookup_insert_ne by done. apply Hk.
        -- intros s'. destruct (decide (s = s')) as [<-|Hnes].
           ++ rewrite get_insert_eq. lia.
           ++ rewrite get_insert_ne by done. apply Hc.
      * by rewrite lookup_insert_eq.
      * intros s' Hnes. by rewrite lookup_insert_ne.
    + rewrite Hlook. simpl. split; [|done]. done.
  - rewrite Hlook. simpl. split; [|done]. done.
Qed.

Lemma selections_cons (b : string) (e : event) (evs : list event) :
  selections b (e :: evs)
  = (if is_selection_of b e then 1 else 0) + selections b evs.
Proof.
  unfold selections, Go.len. simpl.
  destruct (is_selection_of b e); simpl; lia.
Qed.

Lemma releases_cons (b : string) (e : event) (evs : list event) :
  releases b (e :: evs)
  = (if is_release_of b e then 1 else 0) + releases b evs.
Proof.
  unfold releases, Go.len. simpl.
  destruct (is_release_of b e); simpl; lia.
Qed.

Lemma lc_run_select (now : time.Time) (cs : list call) (p : t) :
  run (CallSelect now :: cs) p
  = (Selected (fst (SelectServer p)) :: fst (run cs (snd (SelectServer p))),
     snd (run cs (snd (SelectServer p)))).
Proof. simpl. by destruct (run cs _). Qed.

Lemma lc_run_update (s : string) (now : time.Time) (cs : list call) (p : t) :
  run (CallUpdate s now :: cs) p
  = (Released s (0 <? get (connections p) s) :: fst (run cs (Update p s)),
     snd (run cs (Update p s))).
Proof. simpl. by destruct (run cs _). Qed.

(** The counts after a run, from any state that satisfies the invariant. *)
Lemma lc_run_counts (pool : list string) (cs : list call) :
  pool <> [] ->
  forall (M : Z) (p : t),
    inv pool M p -> M + Go.len cs <= Go.max_int ->
    let evs := fst (run cs p) in
    let p' := snd (run cs p) in
    inv pool (M + Go.len cs) p' /\
    forall b, get (connections p') b
              = get (connections p) b + selections b evs - releases b evs.
Proof.
  intros Hne. induction cs as [|c cs IH]; intros M p Hinv HM; cbv zeta.
  - simpl. split.
    + eapply lc_inv_weaken; [done|]. unfold Go.len. simpl. lia.
    + intros b. unfold selections, releases, Go.len. simpl. lia.
  - assert (Hlen : Go.len (c :: cs) = 1 + Go.len cs).
    { unfold Go.len. simpl length. lia. }
    rewrite Hlen in *. assert (0 <= Go.len cs) by (unfold Go.len; lia).
    destruct c as [now|s now].
    + rewrite lc_run_select. cbn [fst snd].
      destruct (lc_inv_SelectServer pool M p Hne ltac:(lia) Hinv)
        as (Hb & Hinv' & Hget & Hother).
      destruct (IH (M + 1) (snd (SelectServer p)) Hinv' ltac:(lia)) as [IHinv IHc].
      split.
      * by replace (M + (1 + Go.len cs)) with (M + 1 + Go.len cs) by lia.
      * intros b'. rewrite IHc, selections_cons, releases_cons. simpl is_release_of.
        unfold is_selection_of. case_bool_decide as Hbb.
        -- subst b'. rewrite Hget. lia.
        -- unfold get. rewrite Hother by done. lia.
    + rewrite lc_run_update. cbn [fst snd].
      destruct (lc_inv_Update pool M p s ltac:(lia) Hinv) as (Hinv' & Hget & Hother).
      destruct (IH M (Update p s) Hinv' ltac:(lia)) as [IHinv IHc].
      split.
      * eapply lc_inv_weaken; [done|]. lia.
      * intros b'. rewrite IHc, selections_cons, releases_cons. simpl is_selection_of.
        unfold is_release_of. case_bool_decide as Hbb.
        -- subst b'. rewrite Hget. simpl.
           destruct (0 <? get (connections p) s); lia.
        -- simpl. unfold get. rewrite Hother by done. lia.
Qed.

(** C4. LeastConnections counter invariant. From the constructor over a
    non-empty pool, after any sequence of [SelectServer] and [Update] calls
    (fewer than the largest [int], so that no count can overflow), the
    count of every backend [b] is the number of selections of [b] minus the
    number of [Update(b)] calls that found the count positive, and it is not
    negative; the next [SelectServer] adds one to the count of the backend
    it returns, and [Update(b)] subtracts one from the count of [b] exactly
    when that count is positive. *)
Theorem least_connections_counter_invariant
    (pool : list string) (cs : list call) (b : string) :
  pool <> [] -> Go.len cs < Go.max_int ->
  let evs := fst (run cs (NewLeastConnections pool)) in
  let p := snd (run cs (NewLeastConnections pool)) in
  get (connections p) b = selections b evs - releases b evs /\
  0 <= get (connections p) b /\
  (let b' := fst (SelectServer p) in
   get (connections (snd (SelectServer p))) b' = get (connections p) b' + 1) /\
  get (connections (Update p b)) b
  = (if 0 <? get (connections p) b
     then get (connections p) b - 1 else get (connections p) b).
Proof.
  intros Hne Hlen. cbv zeta.
  destruct (lc_run_counts pool cs Hne 0 (NewLeastConnections pool) (lc_inv_New pool)
              ltac:(lia)) as [Hinv Hc].
  split; [|split; [|split]].
  - rewrite Hc. destruct (lc_inv_New pool) as (_ & _ & H0). specialize (H0 b). lia.
  - destruct Hinv as (_ & _ & H0). apply H0.
  - apply (lc_inv_SelectServer pool (0 + Go.len cs)); [done|lia|done].
  - apply (lc_inv_Update pool (0 + Go.len cs)); [lia|done].
Qed.

End LeastConnectionsFacts.

(** ** Sequences of calls *)
Section CallsFacts.
Context {P : Type}.
Variable select : P -> time.Time -> outcome (string * P).
Variable update : P -> string -> time.Time -> P.

Lemma run_calls_app (cs1 cs2 : list call) (p p1 : P) (bs1 : list string) :
  run_calls select update cs1 p = Returned (bs1, p1) ->
  run_calls select update (cs1 ++ cs2) p
  = '(bs2, p2) ← run_calls select update cs2 p1; Returned (bs1 ++ bs2, p2).
Proof.
  revert p bs1. induction cs1 as [|c cs1 IH]; intros p bs1; simpl.
  - intros [= <- <-]. destruct (run_calls select update cs2 p) as [[bs2 p2]| |]; done.
  - destruct c as [now|s now].
    + destruct (select p now) as [[b q]| |]; simpl; try discriminate.
      destruct (run_calls select update cs1 q) as [[bs q1]| |] eqn:Hrun;
        simpl; try discriminate.
      intros [= <- <-]. rewrite (IH _ _ Hrun).
      destruct (run_calls select update cs2 q1) as [[bs2 p2]| |]; done.
    + apply IH.
Qed.

(** When [Update] does nothing, the calls to it can be dropped from a run. *)
Lemma run_calls_update_noop (cs : list call) :
  (forall p s now, update p s now = p) ->
  forall p, run_calls select update cs p
            = run_calls select update (List.filter is_select cs) p.
Proof.
  intros Hnoop. induction cs as [|c cs IH]; intros p; simpl; [done|].
  destruct c as [now|s now]; simpl.
  - destruct (select p now) as [[b q]| |]; simpl; try done. by rewrite IH.
  - rewrite Hnoop. apply IH.
Qed.

End CallsFacts.

(** ** RoundRobin *)
Section RoundRobinFacts.
Import RoundRobin.

Lemma rr_SelectServer_at (pool : list string) (i : Z) (s : string) :
  Go.len pool <= Go.max_int -> 0 <= i ->
  pool !! Z.to_nat i = Some s ->
  SelectServer (mk pool i) = Returned (s, mk pool ((i + 1) mod Go.len pool)).
Proof.
  intros Hmax Hi Hs. unfold SelectServer. simpl.
  rewrite (proj2 (index_Returned pool i s)) by done. simpl.
  pose proof (lookup_lt_Some _ _ _ Hs) as Hlt.
  assert (Hil : i < Go.len pool) by (unfold Go.len; lia).
  rewrite int_add_in_range by (unfold Go.min_int; rewrite max_int_eq in *; lia).
  unfold Go.int_rem. rewrite (proj2 (Z.eqb_neq _ 0)) by lia. simpl.
  by rewrite Z.rem_mod_nonneg by lia.
Qed.

(** From the cursor [i], the next [k] selections are the [k] backends from
    position [i] on, as long as they do not pass the end of the pool. *)
Lemma rr_run_selects_from (pool : list string) (nows : list time.Time) :
  Go.len pool <= Go.max_int ->
  forall i : nat,
    (i < length pool)%nat -> (i + length nows <= length pool)%nat ->
    run (map CallSelect nows) (mk pool (Z.of_nat i))
    = Returned (take (length nows) (drop i pool),
                mk pool ((Z.of_nat i + Go.len nows) mod Go.len pool)).
Proof.
  intros Hmax. induction nows as [|now nows IH]; intros i Hi Hk.
  - simpl. unfold Go.len at 1. simpl. rewrite Z.add_0_r.
    rewrite Z.mod_small by (unfold Go.len; lia). done.
  - simpl in Hk. unfold run in *. simpl.
    destruct (lookup_lt_is_Some_2 pool i Hi) as [s Hs].
    rewrite (rr_SelectServer_at pool (Z.of_nat i) s) by (rewrite ?Nat2Z.id; done || lia).
    simpl. rewrite (drop_S _ _ _ Hs). simpl.
    assert (Hlen : Go.len (now :: nows) = 1 + Go.len nows).
    { unfold Go.len. simpl length. lia. }
    rewrite Hlen. destruct nows as [|now' nows'].
    + simpl. rewrite take_0. unfold Go.len at 2. simpl. by rewrite Z.add_0_r.
    + simpl in Hk. rewrite Z.mod_small by (unfold Go.len; lia).
      replace (Z.of_nat i + 1) with (Z.of_nat (S i)) by lia.
      rewrite IH by (simpl; lia). simpl.
      replace (Z.of_nat (S i) + Go.len (now' :: nows'))
        with (Z.of_nat i + (1 + Go.len (now' :: nows'))) by lia.
      done.
Qed.

(** One full turn: [N] selections from the cursor [0] return the pool in
    order and bring the cursor back to [0]. *)
Lemma rr_run_full_turn (pool : list string) (nows : list time.Time) :
  pool <> [] -> Go.len pool <= Go.max_int -> length nows = length pool ->
  run (map CallSelect nows) (NewRoundRobin pool)
  = Returned (pool, NewRoundRobin pool).
Proof.
  intros Hne Hmax Hlen. unfold NewRoundRobin.
  assert (0 < length pool)%nat by (destruct pool; [done|simpl; lia]).
  change (mk pool 0) with (mk pool (Z.of_nat 0)).
  rewrite (rr_run_selects_from pool nows Hmax 0%nat) by lia.
  rewrite drop_0, Hlen, firstn_all. simpl.
  unfold Go.len. rewrite Hlen, Z.mod_same by lia. done.
Qed.

(** C5. RoundRobin determinism. From the constructor over a pool of [N]
    backends ([N] at least one and an [int]), [N] consecutive
    [SelectServer] calls return the pool in order, index [0] to [N-1]; the
    next [N] calls return the same sequence again; and the [Update] calls
    of any sequence of calls can be dropped without changing what the
    [SelectServer] calls return. *)
Theorem round_robin_deterministic_cycle
    (pool : list string) (nows nows' : list time.Time) (cs : list call) :
  pool <> [] -> Go.len pool <= Go.max_int ->
  length nows = length pool -> length nows' = length pool ->
  run (map CallSelect nows) (NewRoundRobin pool)
  = Returned (pool, NewRoundRobin pool) /\
  run (map CallSelect (nows ++ nows')) (NewRoundRobin pool)
  = Returned (pool ++ pool, NewRoundRobin pool) /\
  run cs (NewRoundRobin pool)
  = run (List.filter is_select cs) (NewRoundRobin pool).
Proof.
  intros Hne Hmax Hn Hn'. split; [|split].
  - by apply rr_run_full_turn.
  - rewrite map_app. unfold run.
    rewrite (run_calls_app _ _ _ _ _ _ _ (rr_run_full_turn pool nows Hne Hmax Hn)).
    fold run. rewrite (rr_run_full_turn pool nows' Hne Hmax Hn'). done.
  - unfold run. by apply run_calls_update_noop.
Qed.

End RoundRobinFacts.

(** ** Start-up *)
Section MainFacts.
Import main.

(** Start-up without a value for [-s] is fatal. When [-s] is missing or its
    value is the empty string, [main] stops in
    [logger.Fatalf("No backend servers specified (-s).")]: whatever the
    other flags are and whether or not the port could be bound, it does not
    reach the accept loop. *)
Theorem main_without_backends_is_fatal (f : flags) (listen_ok : bool) :
  flag_s f = None \/ flag_s f = Some ""%string ->
  main.main f listen_ok = Fatal NoBackendServers /\
  forall policy port, main.main f listen_ok <> AcceptLoop policy port.
Proof.
  intros Hs. assert (Hfatal : main.main f listen_ok = Fatal NoBackendServers).
  { unfold main.main. by destruct Hs as [-> | ->]. }
  split; [done|]. intros policy port. by rewrite Hfatal.
Qed.

Lemma main_without_backends_is_fatal_witness :
  (flag_s (mkFlags (Some "LeastConnections"%string) (Some 9000) None) = None \/
   flag_s (mkFlags (Some "LeastConnections"%string) (Some 9000) None)
   = Some ""%string) /\
  main.main (mkFlags (Some "LeastConnections"%string) (Some 9000) None) true
  = Fatal NoBackendServers /\
  forall policy port,
    main.main (mkFlags (Some "LeastConnections"%string) (Some 9000) None) true
    <> AcceptLoop policy port.
Proof.
  split; [left; reflexivity|].
  apply (main_without_backends_is_fatal
           (mkFlags (Some "LeastConnections"%string) (Some 9000) None) true).
  left; reflexivity.
Defined.

(** The check is on the flag's text: a value made of white space only passes
    it, and the accept loop starts over the empty pool that [strings.Fields]
    returns. *)
Example main_blank_backends :
  main.main (mkFlags None None (Some "  "%string)) true
  = AcceptLoop (Policy.OfRoundRobin (RoundRobin.NewRoundRobin [])) 8080.
Proof. reflexivity. Qed.

Example main_three_backends :
  main.main (mkFlags (Some "N2One"%string) None
               (Some "localhost:8000 localhost:8001  localhost:8002 "%string)) true
  = AcceptLoop
      (Policy.OfN2One
         (N2One.NewN2One ["localhost:8000"; "localhost:8001"; "localhost:8002"]%string))
      8080.
Proof. reflexivity. Qed.

(** C8. The check of [main] is on the text of [-s], not on the list of
    backends. With [-s "  "] the text is not empty and the list that
    [strings.Fields] returns is: [main] does not stop in
    [logger.Fatalf("No backend servers specified (-s).")], it binds the
    port and runs the accept loop over the empty pool. Only a missing
    [-s] and the empty string are fatal. *)
Theorem main_blank_backends_not_fatal :
  let f := mkFlags None None (Some "  "%string) in
  Fields "  " = [] /\
  main.main f true
  = AcceptLoop (Policy.OfRoundRobin (RoundRobin.NewRoundRobin [])) 8080 /\
  main.main f true <> Fatal NoBackendServers /\
  main.main (mkFlags None None (Some ""%string)) true = Fatal NoBackendServers /\
  main.main (mkFlags None None None) true = Fatal NoBackendServers.
Proof. cbv zeta. repeat split; try reflexivity. discriminate. Qed.

End MainFacts.

(** ** What [Update] leaves alone *)
Section UpdateFrame.

(** C10. Frame of [Update]. For every policy variant, [Update(s)] leaves
    the state stored under every other backend [s'] as it was (the count
    for LeastConnections; the FIFO, the history and the running mean for
    LeastResponseTime), and it changes neither the pool nor the cursor of
    RoundRobin or LeastResponseTime. *)
Theorem update_frame (p : Policy.t) (s s' : string) (now : time.Time) :
  s' <> s ->
  Policy.per_backend (Policy.Update p s now) s' = Policy.per_backend p s' /\
  Policy.servers (Policy.Update p s now) = Policy.servers p /\
  Policy.cursor (Policy.Update p s now) = Policy.cursor p.
Proof.
  intros Hne. destruct p as [q|q|q|q]; simpl; try done.
  - unfold LeastConnections.Update.
    destruct (LeastConnections.connections q !! s) as [c|]; [|done].
    destruct (0 <? c); [|done]. simpl. by rewrite lookup_insert_ne.
  - unfold LeastResponseTime.Update.
    destruct (LeastResponseTime.startTimes q !! s) as [ch|]; [|done].
    destruct (Go.try_recv ch) as [[start ch']|]; [|done]. simpl.
    by rewrite !lookup_insert_ne.
Qed.

End UpdateFrame.


(** ** Order of [float64] values

    [<] and [==] on primitive floats, through their specification on
    [spec_float]: away from NaN they are a strict total preorder and its
    equivalence. *)
Section Float64Order.

Ltac cmp_cases :=
  repeat match goal with
  | |- context [Z.compare ?a ?b] => destruct (Z.compare_spec a b)
  | |- context [Pos.compare ?a ?b] => destruct (Pos.compare_spec a b)
  end.

Ltac sf_order :=
  unfold SFltb, SFeqb;
  repeat match goal with
  | x : spec_float |- _ => destruct x
  | b : bool |- _ => destruct b
  end;
  cbn [SFcompare];
  change (Pos.compare_cont Eq) with Pos.compare;
  cmp_cases; cbn [CompOpp]; intros; subst; try congruence; try lia.

Lemma SFltb_trans (x y z : spec_float) :
  SFltb x y = true -> SFltb y z = true -> SFltb x z = true.
Proof. sf_order. Qed.

Lemma SFltb_irrefl (x : spec_float) : SFltb x x = false.
Proof. sf_order. Qed.

Lemma SFltb_below (x e m : spec_float) :
  SFltb x m = true -> SFltb e m = false -> SFeqb e e = true -> SFltb x e = true.
Proof. sf_order. Qed.

Lemma SFltb_neq (x y : spec_float) :
  SFltb x y = true -> SFeqb y x = false.
Proof. sf_order. Qed.

Lemma SFeqb_ltb_r (x a m : spec_float) :
  SFeqb a m = true -> SFltb x a = SFltb x m.
Proof. sf_order. Qed.

Lemma ltb_trans (x y z : float) :
  PrimFloat.ltb x y = true -> PrimFloat.ltb y z = true -> PrimFloat.ltb x z = true.
Proof. rewrite !FloatAxioms.ltb_spec. apply SFltb_trans. Qed.

Lemma ltb_irrefl (x : float) : PrimFloat.ltb x x = false.
Proof. rewrite FloatAxioms.ltb_spec. apply SFltb_irrefl. Qed.

Lemma ltb_asym (x y : float) :
  PrimFloat.ltb x y = true -> PrimFloat.ltb y x = false.
Proof.
  intros Hxy. destruct (PrimFloat.ltb y x) eqn:Hyx; [|done].
  pose proof (ltb_trans x y x Hxy Hyx) as H. by rewrite ltb_irrefl in H.
Qed.

(** Below a value is below everything that is not below it. *)
Lemma ltb_below (x e m : float) :
  PrimFloat.ltb x m = true -> PrimFloat.ltb e m = false ->
  PrimFloat.is_nan e = false -> PrimFloat.ltb x e = true.
Proof.
  unfold PrimFloat.is_nan. rewrite !FloatAxioms.ltb_spec, FloatAxioms.eqb_spec. intros Hx He Hn.
  apply negb_false_iff in Hn. by apply (SFltb_below _ _ (Prim2SF m)).
Qed.

Lemma ltb_not_below (x s m : float) :
  PrimFloat.ltb x m = true -> PrimFloat.ltb s m = false -> PrimFloat.ltb s x = false.
Proof.
  intros Hx Hs. destruct (PrimFloat.ltb s x) eqn:Hsx; [|done].
  pose proof (ltb_trans s x m Hsx Hx) as H. by rewrite Hs in H.
Qed.

Lemma eqb_ltb_r (x a m : float) :
  PrimFloat.eqb a m = true -> PrimFloat.ltb x a = PrimFloat.ltb x m.
Proof. rewrite !FloatAxioms.ltb_spec, FloatAxioms.eqb_spec. apply SFeqb_ltb_r. Qed.

Lemma ltb_neq (x y : float) :
  PrimFloat.ltb x y = true -> PrimFloat.eqb y x = false.
Proof. rewrite FloatAxioms.ltb_spec, FloatAxioms.eqb_spec. apply SFltb_neq. Qed.

Lemma eqb_refl (x : float) :
  PrimFloat.is_nan x = false -> PrimFloat.eqb x x = true.
Proof. unfold PrimFloat.is_nan. apply negb_false_iff. Qed.

End Float64Order.

(** ** LeastResponseTime *)
Section LeastResponseTimeFacts.
Import LeastResponseTime.

Lemma index_in_range {A} (l : list A) (i : Z) :
  0 <= i < Go.len l ->
  exists a, l !! Z.to_nat i = Some a /\ Go.index l i = Returned a.
Proof.
  intros Hi. destruct (lookup_lt_is_Some_2 l (Z.to_nat i)) as [a Ha].
  { unfold Go.len in Hi. lia. }
  exists a. split; [done|]. apply index_Returned. split; [lia|done].
Qed.

(** *** First loop: the minimal running mean *)

Lemma lrt_scan_min_fold (avgm : gmap string float) (l : list string)
    (m0 : float) (s0 : string) :
  (forall s, s ∈ l -> PrimFloat.is_nan (avg avgm s) = false) ->
  let r := fold_left
             (fun (acc : float * string) s =>
                if PrimFloat.ltb (avg avgm s) (fst acc) then (avg avgm s, s) else acc)
             l (m0, s0) in
  (r = (m0, s0) /\ forall s, s ∈ l -> PrimFloat.ltb (avg avgm s) m0 = false) \/
  (exists i : nat,
     l !! i = Some (snd r) /\ fst r = avg avgm (snd r) /\
     PrimFloat.ltb (fst r) m0 = true /\
     (forall (j : nat) s, (j < i)%nat -> l !! j = Some s ->
        PrimFloat.ltb (fst r) (avg avgm s) = true) /\
     forall s, s ∈ l -> PrimFloat.ltb (avg avgm s) (fst r) = false).
Proof.
  revert m0 s0. induction l as [|x l IH]; intros m0 s0 Hnan; simpl.
  - left. split; [done|]. intros s Hs. by apply elem_of_nil in Hs.
  - assert (Hnan' : forall s, s ∈ l -> PrimFloat.is_nan (avg avgm s) = false).
    { intros s Hs. apply Hnan. set_solver. }
    assert (Hx : PrimFloat.is_nan (avg avgm x) = false) by (apply Hnan; set_solver).
    destruct (PrimFloat.ltb (avg avgm x) m0) eqn:Hlt.
    + right. destruct (IH (avg avgm x) x Hnan')
        as [[Hr Hall]|(i & Hi & Hget & Hless & Hfirst & Hall)].
      * exists 0%nat. rewrite Hr. simpl. repeat split; try done.
        -- intros j s Hj. lia.
        -- intros s Hs. apply elem_of_cons in Hs as [->|Hs];
             [apply ltb_irrefl|by apply Hall].
      * exists (S i). simpl. repeat split; try done.
        -- by apply (ltb_trans _ (avg avgm x)).
        -- intros [|j] s Hj Hs; simpl in Hs.
           ++ by injection Hs as <-.
           ++ apply (Hfirst j); [lia|done].
        -- intros s Hs. apply elem_of_cons in Hs as [->|Hs];
             [by apply ltb_asym|by apply Hall].
    + destruct (IH m0 s0 Hnan')
        as [[Hr Hall]|(i & Hi & Hget & Hless & Hfirst & Hall)].
      * left. split; [done|].
        intros s Hs. apply elem_of_cons in Hs as [->|Hs]; [done|by apply Hall].
      * right. exists (S i). simpl. repeat split; try done.
        -- intros [|j] s Hj Hs; simpl in Hs.
           ++ injection Hs as <-. by apply (ltb_below _ _ m0).
           ++ apply (Hfirst j); [lia|done].
        -- intros s Hs. apply elem_of_cons in Hs as [->|Hs]; [|by apply Hall].
           by apply (ltb_not_below _ _ m0).
Qed.

(** The scan that starts from the first backend of the pool ends on the
    first position that holds the least running mean. *)
Lemma lrt_scan_min_spec (avgm : gmap string float) (pool : list string) (first : string) :
  pool !! 0%nat = Some first ->
  (forall s, s ∈ pool -> PrimFloat.is_nan (avg avgm s) = false) ->
  let r := scan_min avgm pool first in
  exists i : nat,
    pool !! i = Some (snd r) /\ fst r = avg avgm (snd r) /\
    (forall (j : nat) s, (j < i)%nat -> pool !! j = Some s ->
       PrimFloat.ltb (fst r) (avg avgm s) = true) /\
    forall s, s ∈ pool -> PrimFloat.ltb (avg avgm s) (fst r) = false.
Proof.
  intros Hfirst Hnan. unfold scan_min.
  destruct (lrt_scan_min_fold avgm pool (avg avgm first) first Hnan)
    as [[Hr Hall]|(i & Hi & Hget & Hless & Hfst & Hall)].
  - exists 0%nat. rewrite Hr. simpl. repeat split; try done. intros j s Hj. lia.
  - exists i. done.
Qed.

(** *** Second loop: the rotating cursor *)

Lemma lrt_rotate_spec (avgm : gmap string float) (pool : list string) (selected : string) :
  0 < Go.len pool <= Go.max_int ->
  forall (n : nat) (c : Z),
    -1 <= c < Go.len pool ->
    exists c',
      rotate avgm pool selected n c = Returned c' /\
      ((exists k, 1 <= k <= Z.of_nat n /\
                  c' = (c + k) mod Go.len pool /\
                  tied avgm pool selected c' = true /\
                  forall j, 1 <= j < k ->
                    tied avgm pool selected ((c + j) mod Go.len pool) = false) \/
       (c' = (if n is O then c else (c + Z.of_nat n) mod Go.len pool) /\
        forall j, 1 <= j <= Z.of_nat n ->
          tied avgm pool selected ((c + j) mod Go.len pool) = false)).
Proof.
  intros HN. induction n as [|n IH]; intros c Hc.
  - exists c. split; [done|]. right. split; [done|]. intros j Hj. lia.
  - cbn [rotate].
    rewrite int_add_in_range
      by (unfold Go.min_int; rewrite max_int_eq in *; lia).
    unfold Go.int_rem. rewrite (proj2 (Z.eqb_neq _ 0)) by lia.
    rewrite Z.rem_mod_nonneg by lia. cbn [mbind outcome_bind].
    set (c1 := (c + 1) mod Go.len pool).
    assert (Hc1 : 0 <= c1 < Go.len pool) by (apply Z.mod_pos_bound; lia).
    destruct (index_in_range pool c1 Hc1) as (s & Hs & Hidx).
    rewrite Hidx. cbn [mbind outcome_bind].
    assert (Htied : PrimFloat.eqb (avg avgm s) (avg avgm selected)
                    = tied avgm pool selected c1).
    { unfold tied. by rewrite Hs. }
    rewrite Htied.
    destruct (tied avgm pool selected c1) eqn:Ht.
    + exists c1. split; [done|]. left. exists 1.
      split; [lia|]. split; [done|]. split; [done|]. intros j Hj. lia.
    + destruct (IH c1 ltac:(lia)) as (c' & Hrot & Hcases).
      exists c'. split; [done|].
      assert (Hshift : forall j, (c1 + j) mod Go.len pool
                                 = (c + (1 + j)) mod Go.len pool).
      { intros j. unfold c1. rewrite Zplus_mod_idemp_l. f_equal. lia. }
      destruct Hcases as [(k & Hk & Hc' & Htk & Hbefore)|[Hc' Hall]].
      * left. exists (1 + k). split; [lia|]. rewrite <- Hshift.
        split; [done|]. split; [done|].
        intros j Hj. destruct (decide (j = 1)) as [->|Hj1]; [done|].
        replace j with (1 + (j - 1)) by lia. rewrite <- Hshift.
        apply Hbefore. lia.
      * right. split.
        -- destruct n as [|n'].
           ++ rewrite Hc'. unfold c1. done.
           ++ rewrite Hc', Hshift. f_equal. lia.
        -- intros j Hj. destruct (decide (j = 1)) as [->|Hj1]; [done|].
           replace j with (1 + (j - 1)) by lia. rewrite <- Hshift.
           apply Hall. lia.
Qed.

(** A full turn of the cursor stops on a tied backend as soon as one is
    somewhere in the pool. *)
Lemma lrt_rotate_full_turn (avgm : gmap string float) (pool : list string)
    (selected : string) (c : Z) (i : nat) :
  0 < Go.len pool <= Go.max_int -> -1 <= c < Go.len pool ->
  (i < length pool)%nat -> tied avgm pool selected (Z.of_nat i) = true ->
  exists k,
    1 <= k <= Go.len pool /\
    rotate avgm pool selected (length pool) c = Returned ((c + k) mod Go.len pool) /\
    tied avgm pool selected ((c + k) mod Go.len pool) = true /\
    forall j, 1 <= j < k ->
      tied avgm pool selected ((c + j) mod Go.len pool) = false.
Proof.
  intros HN Hc Hi Ht.
  destruct (lrt_rotate_spec avgm pool selected HN (length pool) c Hc)
    as (c' & Hrot & [(k & Hk & Hc' & Htk & Hbefore)|[_ Hall]]).
  - exists k. rewrite <- Hc'. done.
  - exfalso. unfold Go.len in *.
    set (N := Z.of_nat (length pool)) in *.
    specialize (Hall (1 + (Z.of_nat i - c - 1) mod N)).
    pose proof (Z.mod_pos_bound (Z.of_nat i - c - 1) N ltac:(lia)).
    replace ((c + (1 + (Z.of_nat i - c - 1) mod N)) mod N) with (Z.of_nat i) in Hall.
    + rewrite Hall in Ht by lia. done.
    + rewrite Z.add_assoc, Zplus_mod_idemp_r.
      replace (c + 1 + (Z.of_nat i - c - 1)) with (Z.of_nat i) by lia.
      symmetry. apply Z.mod_small. lia.
Qed.

(** *** The push of the start time *)

Lemma lrt_push_start_spec (ch : Go.chan time.Time) (now : time.Time) :
  Go.chan_cap ch = fifo_capacity -> Go.len (Go.chan_buf ch) <= fifo_capacity ->
  exists ch',
    push_start (Some ch) now = Returned ch' /\
    Go.chan_cap ch' = fifo_capacity /\
    Go.chan_buf ch'
    = (if Go.len (Go.chan_buf ch) <? fifo_capacity
       then Go.chan_buf ch else tail (Go.chan_buf ch)) ++ [now] /\
    Go.len (Go.chan_buf ch') <= fifo_capacity.
Proof.
  destruct ch as [cap buf]. simpl. intros -> Hlen.
  unfold push_start, Go.try_send. simpl.
  destruct (Go.len buf <? fifo_capacity) eqn:Hroom.
  - eexists. split; [done|]. simpl. split; [done|]. split; [done|].
    apply Z.ltb_lt in Hroom. unfold Go.len in *. rewrite length_app. simpl. lia.
  - apply Z.ltb_ge in Hroom.
    destruct buf as [|oldest rest].
    { unfold Go.len, fifo_capacity in Hroom. simpl in Hroom. lia. }
    unfold Go.try_recv, Go.send, Go.try_send. simpl.
    assert (Hrest : (Go.len rest <? fifo_capacity) = true).
    { apply Z.ltb_lt. unfold Go.len in *. simpl length in *. lia. }
    rewrite Hrest. eexists. split; [done|]. simpl. split; [done|]. split; [done|].
    unfold Go.len in *. rewrite length_app. simpl length in *. lia.
Qed.

(** *** [SelectServer] and [Update] on states that satisfy the invariant *)

Lemma lrt_inv_New (pool : list string) : inv pool (NewLeastResponseTime pool).
Proof.
  unfold inv, NewLeastResponseTime; simpl. split; [done|]. split; [|split].
  - intros s. rewrite fold_insert_lookup. destruct (decide (s ∈ pool)); simpl.
    + split; [done|]. intros _. by eexists.
    + rewrite lookup_empty. split; [by intros [? ?]|done].
  - intros s ch. rewrite fold_insert_lookup. destruct (decide (s ∈ pool)); simpl.
    + intros [= <-]. simpl. unfold Go.len, fifo_capacity. simpl. lia.
    + by rewrite lookup_empty.
  - unfold Go.len. lia.
Qed.

(** The part of [SelectServer] after the two loops, for a cursor [c'] that
    the second loop left on a position of the pool. *)
Lemma lrt_SelectServer_after_rotate (p : t) (now : time.Time) (c' : Z) :
  0 < Go.len (servers p) <= Go.max_int -> inv (servers p) p ->
  rotate (avgTime p) (servers p)
    (snd (scan_min (avgTime p) (servers p)
            (default ""%string (servers p !! 0%nat))))
    (length (servers p)) (current p) = Returned c' ->
  0 <= c' < Go.len (servers p) ->
  exists b ch ch',
    servers p !! Z.to_nat c' = Some b /\
    startTimes p !! b = Some ch /\
    Go.chan_cap ch' = fifo_capacity /\
    Go.chan_buf ch'
    = (if Go.len (Go.chan_buf ch) <? fifo_capacity
       then Go.chan_buf ch else tail (Go.chan_buf ch)) ++ [now] /\
    Go.len (Go.chan_buf ch') <= fifo_capacity /\
    SelectServer p now
    = Returned (b, mk (servers p) (avgTime p) (<[b := ch']> (startTimes p))
                      (pastTimes p) c').
Proof.
  intros HN (_ & Hkeys & Hcaps & Hcur) Hrot Hc'.
  destruct (index_in_range (servers p) 0 ltac:(lia)) as (first & Hfirst & Hidx0).
  destruct (index_in_range (servers p) c' Hc') as (b & Hb & Hidx).
  assert (Hin : b ∈ servers p) by (eapply list_elem_of_lookup_2; done).
  destruct (proj2 (Hkeys b) Hin) as [ch Hch].
  destruct (Hcaps b ch Hch) as [Hcap Hlen].
  destruct (lrt_push_start_spec ch now Hcap Hlen) as (ch' & Hpush & Hcap' & Hbuf' & Hlen').
  exists b, ch, ch'. repeat (split; [done|]).
  unfold SelectServer. rewrite Hidx0. cbn [mbind outcome_bind].
  change (Z.to_nat 0) with 0%nat in Hfirst. rewrite Hfirst in Hrot. simpl in Hrot.
  rewrite Hrot. cbn [mbind outcome_bind]. rewrite Hidx. cbn [mbind outcome_bind].
  rewrite Hch, Hpush. done.
Qed.

Lemma lrt_inv_after_select (p : t) (b : string) (ch' : Go.chan time.Time) (c' : Z) :
  inv (servers p) p -> b ∈ servers p ->
  Go.chan_cap ch' = fifo_capacity -> Go.len (Go.chan_buf ch') <= fifo_capacity ->
  0 <= c' < Go.len (servers p) ->
  inv (servers p)
      (mk (servers p) (avgTime p) (<[b := ch']> (startTimes p)) (pastTimes p) c').
Proof.
  intros (_ & Hkeys & Hcaps & Hcur) Hb Hcap Hlen Hc'.
  unfold inv; simpl. split; [done|]. split; [|split; [|lia]].
  - intros s. destruct (decide (b = s)) as [<-|Hne].
    + rewrite lookup_insert_eq. split; [done|]. intros _. by eexists.
    + rewrite lookup_insert_ne by done. apply Hkeys.
  - intros s ch. destruct (decide (b = s)) as [<-|Hne].
    + rewrite lookup_insert_eq. by intros [= <-].
    + rewrite lookup_insert_ne by done. apply Hcaps.
Qed.

(** On a non-empty pool, [SelectServer] returns: a backend of the pool, and
    a state that satisfies the invariant again; it neither panics nor
    blocks. *)
Lemma lrt_SelectServer_returns (p : t) (now : time.Time) :
  0 < Go.len (servers p) <= Go.max_int -> inv (servers p) p ->
  exists b p',
    SelectServer p now = Returned (b, p') /\ b ∈ servers p /\
    servers p' = servers p /\ inv (servers p) p'.
Proof.
  intros HN Hinv. pose proof Hinv as (_ & _ & _ & Hcur).
  destruct (lrt_rotate_spec (avgTime p) (servers p)
              (snd (scan_min (avgTime p) (servers p)
                      (default ""%string (servers p !! 0%nat))))
              HN (length (servers p)) (current p) Hcur) as (c' & Hrot & Hcases).
  assert (Hc' : 0 <= c' < Go.len (servers p)).
  { destruct Hcases as [(k & _ & -> & _)|[-> _]].
    - apply Z.mod_pos_bound; lia.
    - destruct (length (servers p)) eqn:Hl; [unfold Go.len in HN; lia|].
      apply Z.mod_pos_bound; lia. }
  destruct (lrt_SelectServer_after_rotate p now c' HN Hinv Hrot Hc')
    as (b & ch & ch' & Hb & Hch & Hcap & Hbuf & Hlen & Hsel).
  assert (Hin : b ∈ servers p) by (eapply list_elem_of_lookup_2; done).
  eexists _, _. split; [exact Hsel|]. split; [done|]. split; [done|].
  by apply lrt_inv_after_select.
Qed.

Lemma lrt_inv_Update (pool : list string) (p : t) (s : string) (now : time.Time) :
  inv pool p -> inv pool (Update p s now).
Proof.
  intros Hinv. pose proof Hinv as (Hs & Hkeys & Hcaps & Hcur). unfold Update.
  destruct (startTimes p !! s) as [ch|] eqn:Hch; [|done].
  destruct ch as [cap buf]. unfold Go.try_recv. simpl.
  destruct buf as [|start rest]; [done|].
  destruct (Hcaps s _ Hch) as [Hcap Hlen]. simpl in *.
  unfold inv; simpl. split; [done|]. split; [|split; [|done]].
  - intros s'. destruct (decide (s = s')) as [<-|Hne].
    + rewrite lookup_insert_eq. rewrite <- Hkeys, Hch. done.
    + rewrite lookup_insert_ne by done. apply Hkeys.
  - intros s' ch'. destruct (decide (s = s')) as [<-|Hne].
    + rewrite lookup_insert_eq. intros [= <-]. simpl. split; [done|].
      unfold Go.len in *. simpl length in Hlen. lia.
    + rewrite lookup_insert_ne by done. apply Hcaps.
Qed.

(** Every sequence of calls runs to its end and keeps the invariant. *)
Lemma lrt_run_returns (pool : list string) (cs : list call) :
  0 < Go.len pool <= Go.max_int ->
  forall p, inv pool p ->
    exists bs p', run cs p = Returned (bs, p') /\ inv pool p'.
Proof.
  intros HN. induction cs as [|c cs IH]; intros p Hinv.
  - by exists [], p.
  - pose proof Hinv as (Hs & _). destruct c as [now|s now]; unfold run in *; simpl.
    + rewrite <- Hs in HN, Hinv.
      destruct (lrt_SelectServer_returns p now HN Hinv) as (b & p1 & Hsel & _ & Hs1 & Hinv1).
      rewrite Hsel. simpl. rewrite Hs in Hinv1.
      destruct (IH p1 Hinv1) as (bs & p' & Hrun & Hinv').
      rewrite Hrun. simpl. by eexists _, _.
    + apply IH. by apply lrt_inv_Update.
Qed.

(** C2. The two phases of [SelectServer]. On a non-empty pool, in a state
    that satisfies the invariant and in which no running mean of the pool
    is NaN, there are a position [first], a number of cursor steps [k] and
    a backend [b] such that
    (a) [first] is the first position that holds the least running mean
        [m] of the pool: the means before it are above [m], and no mean of
        the pool is below [m];
    (b) the cursor advances by [k] steps, between [1] and [N], wrapping
        around the pool: none of the backends it passes has a mean equal to
        [m], the one it stops on has, and this backend [b] is returned and
        the cursor stays there for the next call, so that ties are served
        in rotation and not always by the first minimal backend;
    in particular the running mean of [b] equals [m] and no backend of the
    pool has a smaller one. *)
Theorem least_response_time_select_two_phase (p : t) (now : time.Time) :
  0 < Go.len (servers p) <= Go.max_int ->
  inv (servers p) p ->
  (forall s, s ∈ servers p -> PrimFloat.is_nan (avg (avgTime p) s) = false) ->
  exists (first : nat) (k : Z) (b : string) (p' : t),
    let N := Go.len (servers p) in
    let m := avg_at p (Z.of_nat first) in
    (first < length (servers p))%nat /\
    (forall j : nat, (j < first)%nat ->
       PrimFloat.ltb m (avg_at p (Z.of_nat j)) = true) /\
    (forall s, s ∈ servers p -> PrimFloat.ltb (avg (avgTime p) s) m = false) /\
    1 <= k <= N /\
    (forall j, 1 <= j < k ->
       PrimFloat.eqb (avg_at p ((current p + j) mod N)) m = false) /\
    PrimFloat.eqb (avg_at p ((current p + k) mod N)) m = true /\
    SelectServer p now = Returned (b, p') /\
    current p' = (current p + k) mod N /\
    servers p !! Z.to_nat (current p') = Some b /\
    PrimFloat.eqb (avg (avgTime p) b) m = true /\
    (forall s, s ∈ servers p ->
       PrimFloat.ltb (avg (avgTime p) s) (avg (avgTime p) b) = false).
Proof.
  intros HN Hinv Hnan. pose proof Hinv as (_ & _ & _ & Hcur).
  destruct (index_in_range (servers p) 0 ltac:(lia)) as (s0 & Hs0 & _).
  change (Z.to_nat 0) with 0%nat in Hs0.
  destruct (lrt_scan_min_spec (avgTime p) (servers p) s0 Hs0 Hnan)
    as (first & Hfirst & Hm & Hbefore & Hleast).
  set (sel := snd (scan_min (avgTime p) (servers p) s0)) in *.
  rewrite Hm in Hbefore, Hleast.
  pose proof (lookup_lt_Some _ _ _ Hfirst) as Hlt.
  assert (Hsel : sel ∈ servers p) by (eapply list_elem_of_lookup_2; done).
  assert (Hat : avg_at p (Z.of_nat first) = avg (avgTime p) sel).
  { unfold avg_at. by rewrite Nat2Z.id, Hfirst. }
  assert (Htied : tied (avgTime p) (servers p) sel (Z.of_nat first) = true).
  { unfold tied. rewrite Nat2Z.id, Hfirst. simpl. apply eqb_refl. by apply Hnan. }
  destruct (lrt_rotate_full_turn (avgTime p) (servers p) sel (current p) first
              HN Hcur Hlt Htied) as (k & Hk & Hrot & Hstop & Hpass).
  assert (Hc' : 0 <= (current p + k) mod Go.len (servers p) < Go.len (servers p))
    by (apply Z.mod_pos_bound; lia).
  assert (Hrot' : rotate (avgTime p) (servers p)
                    (snd (scan_min (avgTime p) (servers p)
                            (default ""%string (servers p !! 0%nat))))
                    (length (servers p)) (current p)
                  = Returned ((current p + k) mod Go.len (servers p))).
  { by rewrite Hs0. }
  destruct (lrt_SelectServer_after_rotate p now _ HN Hinv Hrot' Hc')
    as (b & ch & ch' & Hb & Hch & Hcap & Hbuf & Hlen & Hselect).
  assert (Heq : PrimFloat.eqb (avg (avgTime p) b) (avg (avgTime p) sel) = true).
  { unfold tied in Hstop. by rewrite Hb in Hstop. }
  exists first, k, b. eexists. cbv zeta. rewrite Hat.
  split; [done|]. split; [|split; [done|]].
  { intros j Hj. destruct (lookup_lt_is_Some_2 (servers p) j ltac:(lia)) as [s Hs].
    unfold avg_at. rewrite Nat2Z.id, Hs. simpl. by apply (Hbefore j). }
  split; [done|]. split; [exact Hpass|]. split; [exact Hstop|].
  split; [exact Hselect|]. simpl. split; [done|]. split; [done|]. split; [done|].
  intros s Hs. rewrite (eqb_ltb_r _ _ _ Heq). by apply Hleast.
Qed.

(** C7. The FIFO of pending start times is bounded and the push does not
    block. From the constructor over a non-empty pool every sequence of
    calls runs to its end, every FIFO of the state it reaches has the
    capacity 10000 and holds at most 10000 timestamps, and the next
    [SelectServer] returns: it appends its timestamp to the FIFO of the
    backend it returns, after removing the oldest entry when that FIFO was
    at capacity. *)
Theorem least_response_time_fifo_bounded
    (pool : list string) (cs : list call) (now : time.Time) :
  pool <> [] -> Go.len pool <= Go.max_int ->
  exists bs p,
    run cs (NewLeastResponseTime pool) = Returned (bs, p) /\
    (forall s ch, startTimes p !! s = Some ch ->
       Go.chan_cap ch = 10000 /\ Go.len (Go.chan_buf ch) <= 10000) /\
    exists b p' ch ch',
      SelectServer p now = Returned (b, p') /\
      startTimes p !! b = Some ch /\
      startTimes p' !! b = Some ch' /\
      Go.chan_buf ch'
      = (if Go.len (Go.chan_buf ch) <? 10000
         then Go.chan_buf ch else tail (Go.chan_buf ch)) ++ [now] /\
      Go.len (Go.chan_buf ch') <= 10000.
Proof.
  intros Hne Hmax.
  assert (HN : 0 < Go.len pool <= Go.max_int).
  { split; [|done]. destruct pool; [done|]. unfold Go.len. simpl. lia. }
  destruct (lrt_run_returns pool cs HN _ (lrt_inv_New pool)) as (bs & p & Hrun & Hinv).
  exists bs, p. split; [done|]. pose proof Hinv as (Hs & _ & Hcaps & Hcur).
  split; [exact Hcaps|]. rewrite <- Hs in HN, Hinv.
  destruct (lrt_rotate_spec (avgTime p) (servers p)
              (snd (scan_min (avgTime p) (servers p)
                      (default ""%string (servers p !! 0%nat))))
              HN (length (servers p)) (current p) ltac:(by rewrite Hs))
    as (c' & Hrot & Hcases).
  assert (Hc' : 0 <= c' < Go.len (servers p)).
  { destruct Hcases as [(k & _ & -> & _)|[-> _]].
    - apply Z.mod_pos_bound; lia.
    - destruct (length (servers p)) eqn:Hl; [unfold Go.len in HN; lia|].
      apply Z.mod_pos_bound; lia. }
  destruct (lrt_SelectServer_after_rotate p now c' HN Hinv Hrot Hc')
    as (b & ch & ch' & Hb & Hch & Hcap & Hbuf & Hlen & Hsel).
  exists b. eexists. exists ch, ch'. split; [exact Hsel|]. split; [done|].
  simpl. rewrite lookup_insert_eq. done.
Qed.

End LeastResponseTimeFacts.

(** ** All variants: the states the calls can reach *)
Section PolicyFacts.

Lemma policy_inv_New (k : Policy.kind) (pool : list string) :
  Policy.inv pool 0 (Policy.New k pool).
Proof.
  destruct k; simpl; try done.
  - apply lc_inv_New.
  - apply lrt_inv_New.
Qed.

Lemma policy_inv_weaken (pool : list string) (M M' : Z) (p : Policy.t) :
  Policy.inv pool M p -> M <= M' -> Policy.inv pool M' p.
Proof. destruct p; simpl; try done. apply lc_inv_weaken. Qed.

Lemma policy_inv_SelectServer (pool : list string) (M : Z) (p p' : Policy.t)
    (now : time.Time) (b : string) :
  pool <> [] -> Go.len pool <= Go.max_int -> M < Go.max_int ->
  Policy.inv pool M p -> Policy.SelectServer p now = Returned (b, p') ->
  Policy.inv pool (M + 1) p'.
Proof.
  intros Hne Hmax HM Hinv. destruct p as [q|q|q|q]; simpl in *.
  - unfold N2One.SelectServer. destruct (Go.index _ _); simpl; try discriminate.
    by intros [= <- <-].
  - unfold RoundRobin.SelectServer.
    destruct (Go.index _ _); simpl; try discriminate.
    destruct (Go.int_rem _ _); simpl; try discriminate.
    by intros [= <- <-].
  - intros [= <- <-]. by apply (lc_inv_SelectServer pool M q).
  - assert (HN : 0 < Go.len (LeastResponseTime.servers q) <= Go.max_int).
    { destruct Hinv as [-> _]. split; [|done].
      destruct pool; [done|]. unfold Go.len. simpl. lia. }
    pose proof Hinv as [Hs _]. rewrite <- Hs in Hinv.
    destruct (lrt_SelectServer_returns q now HN Hinv) as (b' & q' & -> & _ & _ & Hinv').
    simpl. intros [= <- <-]. simpl. by rewrite <- Hs.
Qed.

Lemma policy_inv_Update (pool : list string) (M : Z) (p : Policy.t)
    (s : string) (now : time.Time) :
  M <= Go.max_int -> Policy.inv pool M p ->
  Policy.inv pool M (Policy.Update p s now).
Proof.
  intros HM Hinv. destruct p as [q|q|q|q]; simpl in *; try done.
  - by apply lc_inv_Update.
  - by apply lrt_inv_Update.
Qed.

Lemma policy_run_inv (pool : list string) (cs : list call) :
  pool <> [] -> Go.len pool <= Go.max_int ->
  forall (M : Z) (p p' : Policy.t) (bs : list string),
    Policy.inv pool M p -> M + Go.len cs <= Go.max_int ->
    Policy.run cs p = Returned (bs, p') ->
    Policy.inv pool (M + Go.len cs) p'.
Proof.
  intros Hne Hmax. induction cs as [|c cs IH]; intros M p p' bs Hinv HM.
  - intros [= <- <-]. eapply policy_inv_weaken; [done|]. unfold Go.len. simpl. lia.
  - assert (Hlen : Go.len (c :: cs) = 1 + Go.len cs).
    { unfold Go.len. simpl length. lia. }
    rewrite Hlen in *. assert (0 <= Go.len cs) by (unfold Go.len; lia).
    unfold Policy.run in *. destruct c as [now|s now]; simpl.
    + destruct (Policy.SelectServer p now) as [[b p1]| |] eqn:Hsel;
        simpl; try discriminate.
      destruct (run_calls _ _ cs p1) as [[bs' p2]| |] eqn:Hrun;
        simpl; try discriminate.
      intros [= <- <-].
      replace (M + (1 + Go.len cs)) with (M + 1 + Go.len cs) by lia.
      apply (IH (M + 1) p1 p2 bs'); [|lia|done].
      apply (policy_inv_SelectServer pool M p p1 now b); [done|done|lia|done|done].
    + intros Hrun. eapply policy_inv_weaken.
      * apply (IH M (Policy.Update p s now) p' bs); [|lia|done].
        apply policy_inv_Update; [lia|done].
      * lia.
Qed.

(** The states the calls can reach from the constructor. *)
Lemma policy_reachable_inv (k : Policy.kind) (pool : list string)
    (cs : list call) (bs : list string) (p : Policy.t) :
  pool <> [] -> Go.len pool <= Go.max_int -> Go.len cs < Go.max_int ->
  Policy.run cs (Policy.New k pool) = Returned (bs, p) ->
  Policy.inv pool (Go.len cs) p.
Proof.
  intros Hne Hmax Hlen Hrun.
  apply (policy_run_inv pool cs Hne Hmax 0 _ p bs (policy_inv_New k pool)); [lia|done].
Qed.

(** C9. [Update] of a string that is not a backend of the pool is a
    no-op. In every state that the calls reach from a constructor over a
    non-empty pool (fewer calls than the largest [int]), for every variant,
    [Update(s)] with [s] outside the pool leaves the whole state as it is;
    so does repeating it. *)
Theorem update_unknown_backend_is_noop
    (k : Policy.kind) (pool : list string) (cs : list call) (bs : list string)
    (p : Policy.t) (s : string) (now now' : time.Time) :
  pool <> [] -> Go.len pool <= Go.max_int -> Go.len cs < Go.max_int ->
  Policy.run cs (Policy.New k pool) = Returned (bs, p) ->
  s ∉ pool ->
  Policy.Update p s now = p /\
  Policy.Update (Policy.Update p s now) s now' = Policy.Update p s now.
Proof.
  intros Hne Hmax Hlen Hrun Hs.
  pose proof (policy_reachable_inv k pool cs bs p Hne Hmax Hlen Hrun) as Hinv.
  assert (Hnoop : forall t, Policy.Update p s t = p).
  { intros t. destruct p as [q|q|q|q]; simpl in *; try done.
    - destruct Hinv as (_ & Hkeys & _). unfold LeastConnections.Update.
      destruct (LeastConnections.connections q !! s) eqn:Hlook; [|done].
      exfalso. apply Hs, Hkeys. by eexists.
    - destruct Hinv as (_ & Hkeys & _). unfold LeastResponseTime.Update.
      destruct (LeastResponseTime.startTimes q !! s) eqn:Hlook; [|done].
      exfalso. apply Hs, Hkeys. by eexists. }
  by rewrite !Hnoop.
Qed.

Lemma policy_SelectServer_kind (p p' : Policy.t) (now : time.Time) (b : string) :
  Policy.SelectServer p now = Returned (b, p') ->
  Policy.kind_of p' = Policy.kind_of p.
Proof.
  destruct p as [q|q|q|q]; simpl.
  - destruct (N2One.SelectServer q) as [[? ?]| |]; simpl; try discriminate.
    by intros [= <- <-].
  - destruct (RoundRobin.SelectServer q) as [[? ?]| |]; simpl; try discriminate.
    by intros [= <- <-].
  - by intros [= <- <-].
  - destruct (LeastResponseTime.SelectServer q now) as [[? ?]| |];
      simpl; try discriminate.
    by intros [= <- <-].
Qed.

Lemma policy_run_kind (cs : list call) (p p' : Policy.t) (bs : list string) :
  Policy.run cs p = Returned (bs, p') -> Policy.kind_of p' = Policy.kind_of p.
Proof.
  unfold Policy.run. revert p bs. induction cs as [|c cs IH]; intros p bs; simpl.
  - by intros [= <- <-].
  - destruct c as [now|s now].
    + destruct (Policy.SelectServer p now) as [[b p1]| |] eqn:Hsel;
        simpl; try discriminate.
      destruct (run_calls _ _ cs p1) as [[bs' p2]| |] eqn:Hrun;
        simpl; try discriminate.
      intros [= <- <-]. rewrite (IH _ _ Hrun).
      by apply (policy_SelectServer_kind p p1 now b).
    + intros Hrun. rewrite (IH _ _ Hrun). by destruct p.
Qed.

(** C1, as the code has it. Dial-failure compensation holds for N2One and
    LeastConnections: in every state that the calls reach from the
    constructor over a non-empty pool (fewer calls than the largest [int]),
    [SelectServer] returns a backend [b], and the [Update(b)] that
    [handleClient] makes when the dial fails brings the policy back to the
    state before the selection. *)
Theorem dial_failure_compensation
    (k : Policy.kind) (pool : list string) (cs : list call) (bs : list string)
    (p : Policy.t) (t_select t_update : time.Time) :
  k = Policy.N2One \/ k = Policy.LeastConnections ->
  pool <> [] -> Go.len pool <= Go.max_int -> Go.len cs < Go.max_int ->
  Policy.run cs (Policy.New k pool) = Returned (bs, p) ->
  exists b p1,
    Policy.SelectServer p t_select = Returned (b, p1) /\
    Policy.Update p1 b t_update = p /\
    main.handleClient_dial_error p t_select t_update = Returned p.
Proof.
  intros Hk Hne Hmax Hlen Hrun.
  pose proof (policy_reachable_inv k pool cs bs p Hne Hmax Hlen Hrun) as Hinv.
  pose proof (policy_run_kind cs _ p bs Hrun) as Hkind.
  assert (Hstep : exists b p1,
             Policy.SelectServer p t_select = Returned (b, p1) /\
             Policy.Update p1 b t_update = p).
  { destruct p as [q|q|q|q]; simpl in Hinv, Hkind;
      try (destruct k, Hk; discriminate).
    - destruct (index_in_range (N2One.servers q) 0) as (s0 & _ & Hidx).
      { rewrite Hinv. destruct pool; [done|]. unfold Go.len. simpl. lia. }
      exists s0, (Policy.OfN2One q). simpl. unfold N2One.SelectServer.
      by rewrite Hidx.
    - destruct (lc_inv_SelectServer pool (Go.len cs) q Hne Hlen Hinv)
        as (Hb & Hinv' & Hget & Hother).
      eexists _, _. split; [reflexivity|]. simpl. f_equal.
      destruct Hinv as (Hs & Hkeys & Hc).
      set (b := snd (LeastConnections.scan (LeastConnections.connections q)
                       (LeastConnections.servers q))) in *.
      simpl in Hb, Hget. fold b in Hb, Hget.
      destruct (proj2 (Hkeys b) Hb) as [c Hlook].
      pose proof (Hc b) as Hcb. unfold LeastConnections.get in Hget, Hcb.
      rewrite Hlook in Hcb. simpl in Hcb.
      rewrite lookup_insert_eq in Hget. simpl in Hget.
      unfold LeastConnections.Update. simpl. rewrite lookup_insert_eq.
      unfold LeastConnections.get. rewrite Hlook. simpl.
      rewrite int_add_in_range
        by (unfold Go.min_int; rewrite max_int_eq in *; lia).
      rewrite (proj2 (Z.ltb_lt 0 (c + 1))) by lia.
      rewrite int_sub_in_range
        by (unfold Go.min_int; rewrite max_int_eq in *; lia).
      rewrite insert_insert_eq. replace (c + 1 - 1) with c by lia.
      rewrite insert_id by done. by destruct q. }
  destruct Hstep as (b & p1 & Hsel & Hupd). exists b, p1.
  split; [done|]. split; [done|].
  unfold main.handleClient_dial_error. rewrite Hsel. simpl. by rewrite Hupd.
Qed.

End PolicyFacts.

(** ** Evaluation of LeastResponseTime on states given by their inserts *)
Section LeastResponseTimeEvaluation.
Import LeastResponseTime.

Lemma avg_insert_eq (m : gmap string float) (s : string) (v : float) :
  avg (<[s := v]> m) s = v.
Proof. unfold avg. by rewrite lookup_insert_eq. Qed.

Lemma avg_insert_ne (m : gmap string float) (s s' : string) (v : float) :
  s <> s' -> avg (<[s := v]> m) s' = avg m s'.
Proof. intros. unfold avg. by rewrite lookup_insert_ne. Qed.

Lemma avg_empty (s : string) : avg ∅ s = 0%float.
Proof. done. Qed.

Lemma past_insert_eq (m : gmap string (list float)) (s : string) (v : list float) :
  past (<[s := v]> m) s = v.
Proof. unfold past. by rewrite lookup_insert_eq. Qed.

Lemma past_insert_ne (m : gmap string (list float)) (s s' : string) (v : list float) :
  s <> s' -> past (<[s := v]> m) s' = past m s'.
Proof. intros. unfold past. by rewrite lookup_insert_ne. Qed.

Lemma lrt_run_select (now : time.Time) (cs : list call) (p p1 p2 : t)
    (b : string) (bs : list string) :
  SelectServer p now = Returned (b, p1) ->
  run cs p1 = Returned (bs, p2) ->
  run (CallSelect now :: cs) p = Returned (b :: bs, p2).
Proof.
  unfold run. intros Hsel Hrun. cbn [run_calls]. rewrite Hsel.
  cbn [mbind outcome_bind]. by rewrite Hrun.
Qed.

Lemma lrt_run_update (s : string) (now : time.Time) (cs : list call) (p : t)
    (r : outcome (list string * t)) :
  run cs (Update p s now) = r -> run (CallUpdate s now :: cs) p = r.
Proof. done. Qed.

(** [SelectServer], phase by phase. *)
Lemma lrt_SelectServer_eval (p : t) (now : time.Time) (first sel b : string)
    (m : float) (c' : Z) (ch ch' : Go.chan time.Time) :
  Go.index (servers p) 0 = Returned first ->
  scan_min (avgTime p) (servers p) first = (m, sel) ->
  rotate (avgTime p) (servers p) sel (length (servers p)) (current p) = Returned c' ->
  Go.index (servers p) c' = Returned b ->
  startTimes p !! b = Some ch ->
  push_start (Some ch) now = Returned ch' ->
  SelectServer p now
  = Returned (b, mk (servers p) (avgTime p) (<[b := ch']> (startTimes p))
                    (pastTimes p) c').
Proof.
  intros H0 Hscan Hrot Hb Hch Hpush. unfold SelectServer.
  rewrite H0. cbn [mbind outcome_bind]. rewrite Hscan. cbn [snd].
  rewrite Hrot. cbn [mbind outcome_bind]. rewrite Hb. cbn [mbind outcome_bind].
  rewrite Hch, Hpush. done.
Qed.

Lemma lrt_Update_eval (p : t) (s : string) (now start : time.Time)
    (ch ch' : Go.chan time.Time) (hist : list float) :
  startTimes p !! s = Some ch ->
  Go.try_recv ch = Some (start, ch') ->
  past (pastTimes p) s = hist ->
  Update p s now
  = mk (servers p)
       (<[s := mean (hist ++ [time.Seconds (time.Since now start)])]> (avgTime p))
       (<[s := ch']> (startTimes p))
       (<[s := hist ++ [time.Seconds (time.Since now start)]]> (pastTimes p))
       (current p).
Proof. intros Hch Hrecv <-. unfold Update. by rewrite Hch, Hrecv. Qed.

Lemma scan_step (avgm : gmap string float) (s : string) (l : list string)
    (m : float) (sel : string) (r : float * string) (b : bool) :
  PrimFloat.ltb (avg avgm s) m = b ->
  fold_left
    (fun (acc : float * string) s =>
       if PrimFloat.ltb (avg avgm s) (fst acc) then (avg avgm s, s) else acc)
    l (if b then (avg avgm s, s) else (m, sel)) = r ->
  fold_left
    (fun (acc : float * string) s =>
       if PrimFloat.ltb (avg avgm s) (fst acc) then (avg avgm s, s) else acc)
    (s :: l) (m, sel) = r.
Proof. intros <- <-. done. Qed.

Lemma rotate_step (avgm : gmap string float) (pool : list string) (sel s : string)
    (n : nat) (c c1 : Z) (b : bool) (r : outcome Z) :
  Go.int_rem (Go.int_add c 1) (Go.len pool) = Returned c1 ->
  Go.index pool c1 = Returned s ->
  PrimFloat.eqb (avg avgm s) (avg avgm sel) = b ->
  (if b then Returned c1 else rotate avgm pool sel n c1) = r ->
  rotate avgm pool sel (S n) c = r.
Proof.
  intros Hrem Hidx <- <-. cbn [rotate]. rewrite Hrem. cbn [mbind outcome_bind].
  by rewrite Hidx.
Qed.

(** The facts about a positive running mean that the scenarios use. *)
Lemma positive_mean_facts (e : float) :
  PrimFloat.ltb 0 e = true ->
  PrimFloat.ltb e 0 = false /\ PrimFloat.ltb e e = false /\
  PrimFloat.eqb e 0 = false.
Proof.
  intros Hpos. split; [by apply ltb_asym|]. split; [apply ltb_irrefl|].
  by apply ltb_neq.
Qed.

End LeastResponseTimeEvaluation.

Ltac lrt_fields :=
  cbn [LeastResponseTime.servers LeastResponseTime.avgTime
       LeastResponseTime.startTimes LeastResponseTime.pastTimes
       LeastResponseTime.current].

Ltac lrt_lookups :=
  repeat match goal with
  | |- context [LeastResponseTime.avg (<[?k := ?v]> ?m) ?k'] =>
      first [ rewrite (avg_insert_eq m k v)
            | rewrite (avg_insert_ne m k k' v) by done ]
  | |- context [LeastResponseTime.avg ∅ ?k] => rewrite (avg_empty k)
  | |- context [LeastResponseTime.past (<[?k := ?v]> ?m) ?k'] =>
      first [ rewrite (past_insert_eq m k v)
            | rewrite (past_insert_ne m k k' v) by done ]
  | |- context [<[?k := ?v]> ?m !! ?k'] =>
      first [ rewrite (lookup_insert_eq m k v)
            | rewrite (lookup_insert_ne m k k' v) by done ]
  end.

(** Evaluation of the left-hand side of an equation. *)
Ltac eval_lhs :=
  lazymatch goal with
  | |- ?l = _ => let r := eval vm_compute in l in change l with r
  end;
  reflexivity.

(** A comparison of two running means: by a hypothesis, or by evaluation. *)
Ltac lrt_compare :=
  lrt_lookups;
  first [ eassumption | eval_lhs ].

Ltac lrt_scan :=
  unfold LeastResponseTime.scan_min; lrt_lookups;
  repeat (eapply scan_step; [lrt_compare | cbv iota]);
  reflexivity.

Ltac lrt_rotate :=
  cbn [length];
  repeat (eapply rotate_step; [ eval_lhs | eval_lhs | lrt_compare | cbv iota ]);
  reflexivity.

Ltac lrt_select :=
  eapply lrt_run_select;
  [ eapply lrt_SelectServer_eval;
    lrt_fields;
    [ eval_lhs
    | lrt_scan
    | lrt_rotate
    | eval_lhs
    | lrt_lookups; reflexivity
    | eval_lhs ]
  | lrt_fields ].

Ltac lrt_update :=
  apply lrt_run_update;
  erewrite lrt_Update_eval;
  [
  | lrt_fields; lrt_lookups; reflexivity
  | eval_lhs
  | lrt_fields; lrt_lookups; reflexivity ];
  lrt_fields; cbn [app].

(** ** The test scenarios *)
Section Scenarios.
Import load_balancer_test.

Lemma lc_selected_select (now : time.Time) (cs : list call) (p : LeastConnections.t) :
  LeastConnections.selected_backends
    (fst (LeastConnections.run (CallSelect now :: cs) p))
  = fst (LeastConnections.SelectServer p)
    :: LeastConnections.selected_backends
         (fst (LeastConnections.run cs (snd (LeastConnections.SelectServer p)))).
Proof. by rewrite lc_run_select. Qed.

Lemma lc_selected_update (s : string) (now : time.Time) (cs : list call)
    (p : LeastConnections.t) :
  LeastConnections.selected_backends
    (fst (LeastConnections.run (CallUpdate s now :: cs) p))
  = LeastConnections.selected_backends
      (fst (LeastConnections.run cs (LeastConnections.Update p s))).
Proof. by rewrite lc_run_update. Qed.

Lemma get_empty (s : string) : LeastConnections.get ∅ s = 0.
Proof. done. Qed.

(** The backends of a pool without duplicates are different from each other. *)
Lemma four_distinct (b0 b1 b2 b3 : string) :
  NoDup [b0; b1; b2; b3] ->
  (b0 <> b1 /\ b0 <> b2 /\ b0 <> b3 /\ b1 <> b2 /\ b1 <> b3 /\ b2 <> b3) /\
  (b1 <> b0 /\ b2 <> b0 /\ b3 <> b0 /\ b2 <> b1 /\ b3 <> b1 /\ b3 <> b2).
Proof.
  intros Hnd.
  assert (Hne : forall (i j : nat) x y,
             [b0; b1; b2; b3] !! i = Some x ->
             [b0; b1; b2; b3] !! j = Some y -> i <> j -> x <> y).
  { intros i j x y Hi Hj Hij ->. apply Hij. by eapply NoDup_lookup. }
  split; repeat split.
  - by apply (Hne 0 1)%nat.
  - by apply (Hne 0 2)%nat.
  - by apply (Hne 0 3)%nat.
  - by apply (Hne 1 2)%nat.
  - by apply (Hne 1 3)%nat.
  - by apply (Hne 2 3)%nat.
  - by apply (Hne 1 0)%nat.
  - by apply (Hne 2 0)%nat.
  - by apply (Hne 3 0)%nat.
  - by apply (Hne 2 1)%nat.
  - by apply (Hne 3 1)%nat.
  - by apply (Hne 3 2)%nat.
Qed.

(** Evaluation of closed integer expressions. *)
Ltac lc_closed :=
  repeat match goal with
  | |- context [Go.int_add ?a ?b] =>
      let r := eval vm_compute in (Go.int_add a b) in
      change (Go.int_add a b) with r
  | |- context [Go.int_sub ?a ?b] =>
      let r := eval vm_compute in (Go.int_sub a b) in
      change (Go.int_sub a b) with r
  | |- context [Z.ltb ?a ?b] =>
      let r := eval vm_compute in (Z.ltb a b) in
      change (Z.ltb a b) with r
  end.

(** Reads of a map that was built by inserts under keys known to differ. *)
Ltac lc_gets :=
  repeat first
    [ rewrite get_insert_eq
    | rewrite get_insert_ne by done
    | rewrite get_empty
    | rewrite lookup_insert_eq
    | rewrite lookup_insert_ne by done ].

(** One call of a run, on a state given by its inserts. *)
Ltac lc_step :=
  first [ rewrite lc_selected_select;
          unfold LeastConnections.SelectServer, LeastConnections.scan;
          cbn [fold_left fst snd LeastConnections.servers
               LeastConnections.connections];
          repeat (lc_gets; lc_closed; cbn [fst snd])
        | rewrite lc_selected_update; unfold LeastConnections.Update;
          cbn [LeastConnections.servers LeastConnections.connections];
          repeat (lc_gets; lc_closed;
                  cbn [fst snd LeastConnections.servers
                       LeastConnections.connections]) ].

(** C6. LeastConnections scenario of [TestLeastConnectionsUpdate]: over
    four different backends [b0] to [b3], eight iterations of one
    [SelectServer], followed from the fifth iteration on by one [Update]
    (of [b0], [b3], [b2], [b0] in this order), select
    [b0, b1, b2, b3, b0, b0, b3, b2]. *)
Theorem least_connections_update_scenario
    (b0 b1 b2 b3 : string) (clock uclock : nat -> time.Time) :
  NoDup [b0; b1; b2; b3] ->
  LeastConnections.selected_backends
    (fst (LeastConnections.run (update_test_calls [b0; b3; b2] clock uclock 8 0)
            (LeastConnections.NewLeastConnections [b0; b1; b2; b3])))
  = [b0; b1; b2; b3; b0; b0; b3; b2].
Proof.
  intros Hnd.
  destruct (four_distinct b0 b1 b2 b3 Hnd)
    as ((H01 & H02 & H03 & H12 & H13 & H23) & (H10 & H20 & H30 & H21 & H31 & H32)).
  change (update_test_calls [b0; b3; b2] clock uclock 8 0)
    with [CallSelect (clock 0%nat); CallSelect (clock 1%nat);
          CallSelect (clock 2%nat); CallSelect (clock 3%nat);
          CallSelect (clock 4%nat); CallUpdate b0 (uclock 4%nat);
          CallSelect (clock 5%nat); CallUpdate b3 (uclock 5%nat);
          CallSelect (clock 6%nat); CallUpdate b2 (uclock 6%nat);
          CallSelect (clock 7%nat); CallUpdate b0 (uclock 7%nat)].
  unfold LeastConnections.NewLeastConnections. cbn [fold_left].
  do 12 lc_step. reflexivity.
Qed.

Lemma servers_NoDup : NoDup servers.
Proof.
  unfold servers.
  repeat (apply NoDup_cons_2;
          [intros H; repeat (apply elem_of_cons in H as [H|H]; [discriminate H|]);
           by apply elem_of_nil in H|]).
  apply NoDup_nil_2.
Defined.

Lemma least_connections_update_scenario_witness :
  NoDup servers /\
  LeastConnections.selected_backends
    (fst (LeastConnections.run (update_test_calls peers sleep_clock sleep_clock 8 0)
            (LeastConnections.NewLeastConnections servers)))
  = ["localhost:5000"; "localhost:5001"; "localhost:5002"; "localhost:5003";
     "localhost:5000"; "localhost:5000"; "localhost:5003"; "localhost:5002"]%string.
Proof.
  split; [exact servers_NoDup|].
  exact (least_connections_update_scenario
           "localhost:5000" "localhost:5001" "localhost:5002" "localhost:5003"
           sleep_clock sleep_clock servers_NoDup).
Defined.

(** The calls of the scenario, spelled out. *)
Example update_test_calls_unfolded :
  map (fun c => match c with
                | CallSelect _ => None
                | CallUpdate s _ => Some s
                end)
      (update_test_calls peers sleep_clock sleep_clock 8 0)
  = [None; None; None; None;
     None; Some "localhost:5000"; None; Some "localhost:5003";
     None; Some "localhost:5002"; None; Some "localhost:5000"]%string.
Proof. reflexivity. Qed.

(** C3. LeastResponseTime scenario of [TestLeastResponseTimeUpdate]: over
    four different backends [b0] to [b3], eight iterations of one
    [SelectServer], followed from the fifth iteration on by one [Update] (of
    [b0], [b3], [b2], [b0] in this order), select
    [b0, b1, b2, b3, b0, b1, b2, b1], whenever the three response times
    that decide the selections (of [b0], [b3] and [b2], each from the first
    selection of the backend to its update) give a positive running mean,
    as they do with 100ms between the iterations. *)
Theorem least_response_time_update_scenario
    (b0 b1 b2 b3 : string) (clock uclock : nat -> time.Time) :
  NoDup [b0; b1; b2; b3] ->
  PrimFloat.ltb 0
    (LeastResponseTime.mean
       [time.Seconds (time.Since (uclock 4%nat) (clock 0%nat))]) = true ->
  PrimFloat.ltb 0
    (LeastResponseTime.mean
       [time.Seconds (time.Since (uclock 5%nat) (clock 3%nat))]) = true ->
  PrimFloat.ltb 0
    (LeastResponseTime.mean
       [time.Seconds (time.Since (uclock 6%nat) (clock 2%nat))]) = true ->
  exists p,
    LeastResponseTime.run (update_test_calls [b0; b3; b2] clock uclock 8 0)
      (LeastResponseTime.NewLeastResponseTime [b0; b1; b2; b3])
    = Returned ([b0; b1; b2; b3; b0; b1; b2; b1], p).
Proof.
  intros Hnd Hp0 Hp3 Hp2.
  destruct (four_distinct b0 b1 b2 b3 Hnd)
    as ((H01 & H02 & H03 & H12 & H13 & H23) & (H10 & H20 & H30 & H21 & H31 & H32)).
  destruct (positive_mean_facts _ Hp0) as (Hn0 & Hi0 & He0).
  destruct (positive_mean_facts _ Hp3) as (Hn3 & Hi3 & He3).
  destruct (positive_mean_facts _ Hp2) as (Hn2 & Hi2 & He2).
  change (update_test_calls [b0; b3; b2] clock uclock 8 0)
    with [CallSelect (clock 0%nat); CallSelect (clock 1%nat);
          CallSelect (clock 2%nat); CallSelect (clock 3%nat);
          CallSelect (clock 4%nat); CallUpdate b0 (uclock 4%nat);
          CallSelect (clock 5%nat); CallUpdate b3 (uclock 5%nat);
          CallSelect (clock 6%nat); CallUpdate b2 (uclock 6%nat);
          CallSelect (clock 7%nat); CallUpdate b0 (uclock 7%nat)].
  eexists. unfold LeastResponseTime.NewLeastResponseTime. cbn [fold_left].
  do 5 lrt_select.
  lrt_update. lrt_select.
  lrt_update. lrt_select.
  lrt_update. lrt_select.
  lrt_update. reflexivity.
Qed.

Lemma least_response_time_update_scenario_witness :
  NoDup servers /\
  PrimFloat.ltb 0
    (LeastResponseTime.mean
       [time.Seconds (time.Since (sleep_clock 4) (sleep_clock 0))]) = true /\
  PrimFloat.ltb 0
    (LeastResponseTime.mean
       [time.Seconds (time.Since (sleep_clock 5) (sleep_clock 3))]) = true /\
  PrimFloat.ltb 0
    (LeastResponseTime.mean
       [time.Seconds (time.Since (sleep_clock 6) (sleep_clock 2))]) = true /\
  exists p,
    LeastResponseTime.run (update_test_calls peers sleep_clock sleep_clock 8 0)
      (LeastResponseTime.NewLeastResponseTime servers)
    = Returned
        (["localhost:5000"; "localhost:5001"; "localhost:5002"; "localhost:5003";
          "localhost:5000"; "localhost:5001"; "localhost:5002"; "localhost:5001"]%string,
         p).
Proof.
  split; [exact servers_NoDup|].
  split; [vm_compute; reflexivity|].
  split; [vm_compute; reflexivity|].
  split; [vm_compute; reflexivity|].
  exact (least_response_time_update_scenario
           "localhost:5000" "localhost:5001" "localhost:5002" "localhost:5003"
           sleep_clock sleep_clock servers_NoDup eq_refl eq_refl eq_refl).
Defined.

(** The three response times of the scenario with exactly 100ms between
    the iterations: 0.4s, 0.2s and 0.4s (the nearest [float64] values). *)
Example scenario_response_times :
  map (fun '(u, c) => time.Seconds (time.Since (sleep_clock u) (sleep_clock c)))
      [(4, 0); (5, 3); (6, 2)]%nat
  = [0x1.999999999999ap-2; 0x1.999999999999ap-3; 0x1.999999999999ap-2]%float.
Proof. vm_compute. reflexivity. Qed.

(** The selections do not depend on the sleeps being exact. *)
Example least_response_time_update_scenario_late :
  exists p,
    LeastResponseTime.run (update_test_calls peers late_clock later_clock 8 0)
      (LeastResponseTime.NewLeastResponseTime servers)
    = Returned
        (["localhost:5000"; "localhost:5001"; "localhost:5002"; "localhost:5003";
          "localhost:5000"; "localhost:5001"; "localhost:5002"; "localhost:5001"]%string,
         p).
Proof. eexists. vm_compute. reflexivity. Qed.

(** [TestN2One], [TestLeastConnections]: eight selections without [Update]. *)
Example n2one_scenario :
  run_calls (fun p _ => N2One.SelectServer p) (fun p s _ => N2One.Update p s)
    (map CallSelect (map sleep_clock (seq 0 8))) (N2One.NewN2One servers)
  = Returned (replicate 8 "localhost:5000"%string, N2One.NewN2One servers).
Proof. reflexivity. Qed.

Example least_connections_scenario :
  LeastConnections.selected_backends
    (fst (LeastConnections.run (map CallSelect (map sleep_clock (seq 0 8)))
            (LeastConnections.NewLeastConnections servers)))
  = servers ++ servers.
Proof. vm_compute. reflexivity. Qed.

(** Why the statements about LeastConnections bound the number of calls:
    once every count is the largest [int] the scan selects nothing, and
    [SelectServer] returns the empty string and counts it. *)
Example least_connections_saturated :
  LeastConnections.SelectServer
    (LeastConnections.mk ["a"%string] {["a"%string := Go.max_int]})
  = (""%string,
     LeastConnections.mk ["a"%string]
       (<[""%string := 1]> {["a"%string := Go.max_int]})).
Proof. vm_compute. reflexivity. Qed.

End Scenarios.

(** ** Instances on the test pool *)
Section Instances.
Import load_balancer_test.

Lemma servers_nonempty : servers <> [].
Proof. discriminate. Defined.

Lemma servers_len : Go.len servers <= Go.max_int.
Proof. rewrite max_int_eq. unfold Go.len. simpl. lia. Defined.

Lemma scenario_len : Go.len (update_test_calls peers sleep_clock sleep_clock 8 0) < Go.max_int.
Proof. rewrite max_int_eq. unfold Go.len. simpl. lia. Defined.

Lemma not_a_server : "localhost:9999"%string ∉ servers.
Proof.
  unfold servers. intros H.
  repeat (apply elem_of_cons in H as [H|H]; [discriminate H|]).
  by apply elem_of_nil in H.
Defined.

(** C1 as the specification states it fails for RoundRobin and for
    LeastResponseTime: on the
    freshly constructed policy, [SelectServer] returns a backend and the
    [Update] of the dial-failure path does not bring the state back (the
    cursor stays advanced; LeastResponseTime also records a sample). *)
Lemma dial_failure_not_compensated :
  let rr := Policy.New Policy.RoundRobin servers in
  let lrt := Policy.New Policy.LeastResponseTime servers in
  (exists b p1,
     Policy.run [] rr = Returned ([], rr) /\
     Policy.SelectServer rr 0 = Returned (b, p1) /\
     Policy.Update p1 b Millisecond <> rr /\
     main.handleClient_dial_error rr 0 Millisecond <> Returned rr) /\
  (exists b p1,
     Policy.run [] lrt = Returned ([], lrt) /\
     Policy.SelectServer lrt 0 = Returned (b, p1) /\
     Policy.Update p1 b Millisecond <> lrt /\
     main.handleClient_dial_error lrt 0 Millisecond <> Returned lrt).
Proof.
  cbv zeta. split.
  - eexists _, _. split; [reflexivity|]. split; [vm_compute; reflexivity|].
    split; intros H.
    + apply (f_equal Policy.cursor) in H. vm_compute in H. discriminate H.
    + apply (f_equal (fun o => match o with
                               | Returned p => Policy.cursor p
                               | _ => None
                               end)) in H.
      vm_compute in H. discriminate H.
  - eexists _, _. split; [reflexivity|]. split; [vm_compute; reflexivity|].
    split; intros H.
    + apply (f_equal Policy.cursor) in H. vm_compute in H. discriminate H.
    + apply (f_equal (fun o => match o with
                               | Returned p => Policy.cursor p
                               | _ => None
                               end)) in H.
      vm_compute in H. discriminate H.
Qed.

(** What the dial-failure path leaves behind on the fresh LeastResponseTime
    policy: the cursor on position 0 and one sample of 1ms (the [float64]
    nearest to 0.001) for the backend. *)
Example dial_failure_least_response_time :
  match main.handleClient_dial_error
          (Policy.New Policy.LeastResponseTime servers) 0 Millisecond with
  | Returned (Policy.OfLeastResponseTime q) =>
      LeastResponseTime.current q = 0 /\
      LeastResponseTime.pastTimes q !! "localhost:5000"%string = Some [0x1.0624dd2f1a9fcp-10%float] /\
      LeastResponseTime.avgTime q !! "localhost:5000"%string = Some 0x1.0624dd2f1a9fcp-10%float
  | _ => False
  end.
Proof. vm_compute. repeat split. Qed.

Lemma dial_failure_compensation_witness :
  let cs := update_test_calls peers sleep_clock sleep_clock 8 0 in
  let r := LeastConnections.run cs (LeastConnections.NewLeastConnections servers) in
  let p := Policy.OfLeastConnections (snd r) in
  let bs := LeastConnections.selected_backends (fst r) in
  (Policy.LeastConnections = Policy.N2One \/
   Policy.LeastConnections = Policy.LeastConnections) /\
  servers <> [] /\ Go.len servers <= Go.max_int /\ Go.len cs < Go.max_int /\
  Policy.run cs (Policy.New Policy.LeastConnections servers) = Returned (bs, p) /\
  exists b p1,
    Policy.SelectServer p 0 = Returned (b, p1) /\
    Policy.Update p1 b Millisecond = p /\
    main.handleClient_dial_error p 0 Millisecond = Returned p.
Proof.
  cbv zeta.
  assert (Hrun :
    Policy.run (update_test_calls peers sleep_clock sleep_clock 8 0)
      (Policy.New Policy.LeastConnections servers)
    = Returned
        (LeastConnections.selected_backends
           (fst (LeastConnections.run (update_test_calls peers sleep_clock sleep_clock 8 0)
                   (LeastConnections.NewLeastConnections servers))),
         Policy.OfLeastConnections
           (snd (LeastConnections.run (update_test_calls peers sleep_clock sleep_clock 8 0)
                   (LeastConnections.NewLeastConnections servers)))))
    by (vm_compute; reflexivity).
  split; [right; reflexivity|]. split; [exact servers_nonempty|].
  split; [exact servers_len|]. split; [exact scenario_len|]. split; [exact Hrun|].
  exact (dial_failure_compensation Policy.LeastConnections servers
           (update_test_calls peers sleep_clock sleep_clock 8 0) _ _ 0 Millisecond
           (or_intror eq_refl) servers_nonempty servers_len scenario_len Hrun).
Defined.

Lemma least_connections_counter_invariant_witness :
  let cs := update_test_calls peers sleep_clock sleep_clock 8 0 in
  let b := "localhost:5000"%string in
  servers <> [] /\ Go.len cs < Go.max_int /\
  let evs := fst (LeastConnections.run cs
                    (LeastConnections.NewLeastConnections servers)) in
  let p := snd (LeastConnections.run cs
                  (LeastConnections.NewLeastConnections servers)) in
  LeastConnections.get (LeastConnections.connections p) b
  = LeastConnections.selections b evs - LeastConnections.releases b evs /\
  0 <= LeastConnections.get (LeastConnections.connections p) b /\
  (let b' := fst (LeastConnections.SelectServer p) in
   LeastConnections.get
     (LeastConnections.connections (snd (LeastConnections.SelectServer p))) b'
   = LeastConnections.get (LeastConnections.connections p) b' + 1) /\
  LeastConnections.get
    (LeastConnections.connections (LeastConnections.Update p b)) b
  = (if 0 <? LeastConnections.get (LeastConnections.connections p) b
     then LeastConnections.get (LeastConnections.connections p) b - 1
     else LeastConnections.get (LeastConnections.connections p) b).
Proof.
  cbv zeta. split; [exact servers_nonempty|]. split; [exact scenario_len|].
  exact (least_connections_counter_invariant servers
           (update_test_calls peers sleep_clock sleep_clock 8 0) "localhost:5000"
           servers_nonempty scenario_len).
Defined.

(** The counts at the end of the scenario of C6. *)
Example least_connections_scenario_counts :
  let r := LeastConnections.run (update_test_calls peers sleep_clock sleep_clock 8 0)
             (LeastConnections.NewLeastConnections servers) in
  map (LeastConnections.get (LeastConnections.connections (snd r))) servers
  = [1; 1; 1; 1] /\
  map (fun b => LeastConnections.selections b (fst r)) servers = [3; 1; 2; 2] /\
  map (fun b => LeastConnections.releases b (fst r)) servers = [2; 0; 1; 1].
Proof. vm_compute. repeat split. Qed.

Lemma round_robin_deterministic_cycle_witness :
  let nows := [0; 1; 2; 3] in
  let nows' := [4; 5; 6; 7] in
  let cs := update_test_calls peers sleep_clock sleep_clock 8 0 in
  servers <> [] /\ Go.len servers <= Go.max_int /\
  length nows = length servers /\ length nows' = length servers /\
  RoundRobin.run (map CallSelect nows) (RoundRobin.NewRoundRobin servers)
  = Returned (servers, RoundRobin.NewRoundRobin servers) /\
  RoundRobin.run (map CallSelect (nows ++ nows')) (RoundRobin.NewRoundRobin servers)
  = Returned (servers ++ servers, RoundRobin.NewRoundRobin servers) /\
  RoundRobin.run cs (RoundRobin.NewRoundRobin servers)
  = RoundRobin.run (List.filter is_select cs) (RoundRobin.NewRoundRobin servers).
Proof.
  cbv zeta. split; [exact servers_nonempty|]. split; [exact servers_len|].
  split; [reflexivity|]. split; [reflexivity|].
  exact (round_robin_deterministic_cycle servers [0; 1; 2; 3] [4; 5; 6; 7]
           (update_test_calls peers sleep_clock sleep_clock 8 0)
           servers_nonempty servers_len eq_refl eq_refl).
Defined.

(** [TestRoundRobinUpdate]. *)
Example round_robin_update_scenario :
  RoundRobin.run (update_test_calls peers sleep_clock sleep_clock 8 0) (RoundRobin.NewRoundRobin servers)
  = Returned (servers ++ servers, RoundRobin.NewRoundRobin servers).
Proof. vm_compute. reflexivity. Qed.

Lemma update_unknown_backend_is_noop_witness :
  let cs := update_test_calls peers sleep_clock sleep_clock 8 0 in
  let r := LeastConnections.run cs (LeastConnections.NewLeastConnections servers) in
  let p := Policy.OfLeastConnections (snd r) in
  let bs := LeastConnections.selected_backends (fst r) in
  let s := "localhost:9999"%string in
  servers <> [] /\ Go.len servers <= Go.max_int /\ Go.len cs < Go.max_int /\
  Policy.run cs (Policy.New Policy.LeastConnections servers) = Returned (bs, p) /\
  (s ∉ servers) /\
  Policy.Update p s 0 = p /\
  Policy.Update (Policy.Update p s 0) s Millisecond = Policy.Update p s 0.
Proof.
  cbv zeta.
  assert (Hrun :
    Policy.run (update_test_calls peers sleep_clock sleep_clock 8 0)
      (Policy.New Policy.LeastConnections servers)
    = Returned
        (LeastConnections.selected_backends
           (fst (LeastConnections.run (update_test_calls peers sleep_clock sleep_clock 8 0)
                   (LeastConnections.NewLeastConnections servers))),
         Policy.OfLeastConnections
           (snd (LeastConnections.run (update_test_calls peers sleep_clock sleep_clock 8 0)
                   (LeastConnections.NewLeastConnections servers)))))
    by (vm_compute; reflexivity).
  split; [exact servers_nonempty|]. split; [exact servers_len|].
  split; [exact scenario_len|]. split; [exact Hrun|]. split; [exact not_a_server|].
  exact (update_unknown_backend_is_noop Policy.LeastConnections servers
           (update_test_calls peers sleep_clock sleep_clock 8 0) _ _ "localhost:9999" 0 Millisecond
           servers_nonempty servers_len scenario_len Hrun not_a_server).
Defined.

Lemma update_frame_witness :
  let p := Policy.OfLeastConnections
             (snd (LeastConnections.run (update_test_calls peers sleep_clock sleep_clock 8 0)
                     (LeastConnections.NewLeastConnections servers))) in
  let s := "localhost:5000"%string in
  let s' := "localhost:5001"%string in
  s' <> s /\
  Policy.per_backend (Policy.Update p s 0) s' = Policy.per_backend p s' /\
  Policy.servers (Policy.Update p s 0) = Policy.servers p /\
  Policy.cursor (Policy.Update p s 0) = Policy.cursor p.
Proof.
  cbv zeta.
  assert (Hne : "localhost:5001"%string <> "localhost:5000"%string) by discriminate.
  split; [exact Hne|].
  exact (update_frame _ "localhost:5000" "localhost:5001" 0 Hne).
Defined.

(** The state of the scenario of C3 before its last iteration: the cursor
    is on [b2], the running means are 0.4, 0, 0.4 and 0.2 seconds. *)
Example scenario_state_before_last :
  match LeastResponseTime.run (update_test_calls peers sleep_clock sleep_clock 7 0)
          (LeastResponseTime.NewLeastResponseTime servers) with
  | Returned (_, p) =>
      LeastResponseTime.current p = 2 /\
      map (LeastResponseTime.avg (LeastResponseTime.avgTime p)) servers
      = [0x1.999999999999ap-2; 0; 0x1.999999999999ap-2; 0x1.999999999999ap-3]%float
  | _ => False
  end.
Proof. vm_compute. split; reflexivity. Qed.

Lemma least_response_time_select_two_phase_witness :
  let p := match LeastResponseTime.run (update_test_calls peers sleep_clock sleep_clock 7 0)
                   (LeastResponseTime.NewLeastResponseTime servers) with
           | Returned (_, p) => p
           | _ => LeastResponseTime.NewLeastResponseTime servers
           end in
  let now := sleep_clock 7 in
  let pool := LeastResponseTime.servers p in
  let mean := LeastResponseTime.avg (LeastResponseTime.avgTime p) in
  0 < Go.len pool <= Go.max_int /\
  LeastResponseTime.inv pool p /\
  (forall s, s ∈ pool -> PrimFloat.is_nan (mean s) = false) /\
  exists (first : nat) (k : Z) (b : string) (p' : LeastResponseTime.t),
    let N := Go.len pool in
    let m := LeastResponseTime.avg_at p (Z.of_nat first) in
    (first < length pool)%nat /\
    (forall j : nat, (j < first)%nat ->
       PrimFloat.ltb m (LeastResponseTime.avg_at p (Z.of_nat j)) = true) /\
    (forall s, s ∈ pool -> PrimFloat.ltb (mean s) m = false) /\
    1 <= k <= N /\
    (forall j, 1 <= j < k ->
       PrimFloat.eqb
         (LeastResponseTime.avg_at p ((LeastResponseTime.current p + j) mod N)) m
       = false) /\
    PrimFloat.eqb
      (LeastResponseTime.avg_at p ((LeastResponseTime.current p + k) mod N)) m
    = true /\
    LeastResponseTime.SelectServer p now = Returned (b, p') /\
    LeastResponseTime.current p' = (LeastResponseTime.current p + k) mod N /\
    pool !! Z.to_nat (LeastResponseTime.current p') = Some b /\
    PrimFloat.eqb (mean b) m = true /\
    (forall s, s ∈ pool -> PrimFloat.ltb (mean s) (mean b) = false).
Proof.
  cbv zeta.
  set (p := match LeastResponseTime.run (update_test_calls peers sleep_clock sleep_clock 7 0)
                    (LeastResponseTime.NewLeastResponseTime servers) with
            | Returned (_, p) => p
            | _ => LeastResponseTime.NewLeastResponseTime servers
            end).
  assert (Hpool : LeastResponseTime.servers p = servers) by (vm_compute; reflexivity).
  assert (HN : 0 < Go.len servers <= Go.max_int).
  { rewrite max_int_eq. unfold Go.len. simpl. lia. }
  assert (H1 : 0 < Go.len (LeastResponseTime.servers p) <= Go.max_int)
    by (rewrite Hpool; exact HN).
  assert (H2 : LeastResponseTime.inv (LeastResponseTime.servers p) p).
  { rewrite Hpool.
    destruct (lrt_run_returns servers (update_test_calls peers sleep_clock sleep_clock 7 0) HN _
                (lrt_inv_New servers)) as (bs & p' & Hrun & Hinv).
    unfold p. rewrite Hrun. exact Hinv. }
  assert (H3 : forall s, s ∈ LeastResponseTime.servers p ->
                 PrimFloat.is_nan
                   (LeastResponseTime.avg (LeastResponseTime.avgTime p) s) = false).
  { rewrite Hpool. unfold servers. intros s Hs.
    repeat (apply elem_of_cons in Hs as [->|Hs]; [vm_compute; reflexivity|]).
    destruct (proj1 (elem_of_nil s) Hs). }
  exact (conj H1 (conj H2 (conj H3
           (least_response_time_select_two_phase p (sleep_clock 7) H1 H2 H3)))).
Defined.

(** The last selection of the scenario of C3: the least mean is that of
    [b1]; the cursor passes [b3] and [b0] and stops on [b1]. *)
Example scenario_last_selection :
  match LeastResponseTime.run (update_test_calls peers sleep_clock sleep_clock 7 0)
          (LeastResponseTime.NewLeastResponseTime servers) with
  | Returned (_, p) =>
      match LeastResponseTime.SelectServer p (sleep_clock 7) with
      | Returned (b, p') =>
          b = "localhost:5001"%string /\ LeastResponseTime.current p' = 1
      | _ => False
      end
  | _ => False
  end.
Proof. vm_compute. split; reflexivity. Qed.

(** [TestLeastResponseTime]: with all means tied at zero, eight selections
    go round the pool twice. *)
Example least_response_time_ties_rotate :
  exists p,
    LeastResponseTime.run (map CallSelect (map sleep_clock (seq 0 8)))
      (LeastResponseTime.NewLeastResponseTime servers)
    = Returned (servers ++ servers, p).
Proof. eexists. vm_compute. reflexivity. Qed.

Lemma least_response_time_fifo_bounded_witness :
  let pool := ["localhost:5000"%string] in
  let cs := map CallSelect (map Z.of_nat (seq 0 (Z.to_nat 10000))) in
  let now := 10000 in
  pool <> [] /\ Go.len pool <= Go.max_int /\
  exists bs p,
    LeastResponseTime.run cs (LeastResponseTime.NewLeastResponseTime pool)
    = Returned (bs, p) /\
    (forall s ch, LeastResponseTime.startTimes p !! s = Some ch ->
       Go.chan_cap ch = 10000 /\ Go.len (Go.chan_buf ch) <= 10000) /\
    exists b p' ch ch',
      LeastResponseTime.SelectServer p now = Returned (b, p') /\
      LeastResponseTime.startTimes p !! b = Some ch /\
      LeastResponseTime.startTimes p' !! b = Some ch' /\
      Go.chan_buf ch'
      = (if Go.len (Go.chan_buf ch) <? 10000
         then Go.chan_buf ch else tail (Go.chan_buf ch)) ++ [now] /\
      Go.len (Go.chan_buf ch') <= 10000.
Proof.
  cbv zeta.
  assert (Hne : ["localhost:5000"%string] <> []) by discriminate.
  assert (Hmax : Go.len ["localhost:5000"%string] <= Go.max_int).
  { rewrite max_int_eq. unfold Go.len. simpl. lia. }
  exact (conj Hne (conj Hmax
           (least_response_time_fifo_bounded ["localhost:5000"%string]
              (map CallSelect (map Z.of_nat (seq 0 (Z.to_nat 10000)))) 10000 Hne Hmax))).
Defined.

(** A push on a full FIFO: the oldest of the 10000 timestamps goes, the new
    one is appended, and the send returns. *)
Lemma push_start_full (buf : list time.Time) (now : time.Time) :
  Go.len buf = 10000 ->
  LeastResponseTime.push_start (Some (Go.mkChan 10000 buf)) now
  = Returned (Go.mkChan 10000 (tail buf ++ [now])).
Proof.
  intros Hlen.
  destruct (lrt_push_start_spec (Go.mkChan 10000 buf) now eq_refl)
    as ([cap' buf'] & -> & Hcap & Hbuf & _).
  { cbn [Go.chan_buf]. rewrite Hlen. unfold LeastResponseTime.fifo_capacity. lia. }
  cbn [Go.chan_buf Go.chan_cap] in Hcap, Hbuf. rewrite Hlen in Hbuf.
  by rewrite Hcap, Hbuf.
Qed.

(** On a fresh channel the push is a plain send. *)
Example push_start_fresh :
  LeastResponseTime.push_start
    (Some (Go.make_chan LeastResponseTime.fifo_capacity)) 7
  = Returned (Go.mkChan 10000 [7]).
Proof. reflexivity. Qed.

(** On the nil channel of a key that is not in the map the push blocks. *)
Example push_start_nil : LeastResponseTime.push_start None 7 = Blocked.
Proof. reflexivity. Qed.

End Instances.

(** * Further properties of the code *)

(** ** N2One and RoundRobin *)
Section MoreSimplePolicies.

Lemma n2one_SelectServer (p : N2One.t) (first : string) :
  N2One.servers p !! 0%nat = Some first ->
  N2One.SelectServer p = Returned (first, p).
Proof.
  intros Hfirst. unfold N2One.SelectServer.
  by rewrite (proj2 (index_Returned _ 0 first)) by (split; [lia|done]).
Qed.

(** X1. N2One returns the first backend of the pool at every selection,
    whatever calls come before, and never changes. *)
Theorem n2one_always_first (pool : list string) (first : string) (cs : list call) :
  pool !! 0%nat = Some first ->
  run_calls (fun p _ => N2One.SelectServer p) (fun p s _ => N2One.Update p s)
    cs (N2One.NewN2One pool)
  = Returned (replicate (reach.selects cs) first, N2One.NewN2One pool).
Proof.
  intros Hfirst. unfold reach.selects.
  induction cs as [|[now|s now] cs IH];
    cbn [run_calls List.filter is_select length replicate]; [done| |done].
  rewrite (n2one_SelectServer _ first) by done.
  cbn [mbind outcome_bind]. by rewrite IH.
Qed.

Lemma n2one_always_first_witness :
  load_balancer_test.servers !! 0%nat = Some "localhost:5000"%string /\
  run_calls (fun p _ => N2One.SelectServer p) (fun p s _ => N2One.Update p s)
    (load_balancer_test.update_test_calls load_balancer_test.peers
       load_balancer_test.sleep_clock load_balancer_test.sleep_clock 8 0)
    (N2One.NewN2One load_balancer_test.servers)
  = Returned
      (replicate
         (reach.selects
            (load_balancer_test.update_test_calls load_balancer_test.peers
               load_balancer_test.sleep_clock load_balancer_test.sleep_clock 8 0))
         "localhost:5000"%string,
       N2One.NewN2One load_balancer_test.servers).
Proof.
  split; [reflexivity|].
  exact (n2one_always_first load_balancer_test.servers "localhost:5000"
           (load_balancer_test.update_test_calls load_balancer_test.peers
              load_balancer_test.sleep_clock load_balancer_test.sleep_clock 8 0)
           eq_refl).
Defined.

Lemma turn_lookup (pool : list string) (j : nat) :
  pool <> [] -> pool !! (j mod length pool)%nat = Some (reach.turn pool j).
Proof.
  intros Hne. unfold reach.turn.
  destruct (lookup_lt_is_Some_2 pool (j mod length pool)%nat) as [s Hs].
  { apply Nat.mod_upper_bound. by destruct pool. }
  by rewrite Hs.
Qed.

Lemma rr_run_from (pool : list string) (cs : list call) :
  pool <> [] -> Go.len pool <= Go.max_int ->
  forall j : nat,
    RoundRobin.run cs (RoundRobin.mk pool (Z.of_nat (j mod length pool)))
    = Returned
        (map (reach.turn pool) (seq j (reach.selects cs)),
         RoundRobin.mk pool
           (Z.of_nat ((j + reach.selects cs) mod length pool))).
Proof.
  intros Hne Hmax. assert (HN : (length pool <> 0)%nat) by (by destruct pool).
  unfold RoundRobin.run, reach.selects.
  induction cs as [|[now|s now] cs IH]; intros j; simpl.
  - by rewrite Nat.add_0_r.
  - rewrite (rr_SelectServer_at pool _ (reach.turn pool j)); [|done|lia|].
    2:{ rewrite Nat2Z.id. by apply turn_lookup. }
    simpl.
    assert (Hnext : (Z.of_nat (j mod length pool) + 1) mod Go.len pool
                    = Z.of_nat (S j mod length pool)).
    { unfold Go.len. rewrite <- (Nat2Z.inj_add _ 1), <- Nat2Z.inj_mod.
      f_equal. rewrite Nat.add_1_r, <- Nat.add_1_r.
      rewrite Nat.Div0.add_mod_idemp_l. by rewrite Nat.add_1_r. }
    rewrite Hnext, IH. simpl. by rewrite Nat.add_succ_r.
  - apply IH.
Qed.

(** X2. RoundRobin serves the pool in turn: whatever the calls, the [j]-th
    selection (from 0) returns the backend at position [j mod N], and the
    cursor ends on the number of selections modulo [N]. *)
Theorem round_robin_turns (pool : list string) (cs : list call) :
  pool <> [] -> Go.len pool <= Go.max_int ->
  RoundRobin.run cs (RoundRobin.NewRoundRobin pool)
  = Returned
      (map (reach.turn pool) (seq 0 (reach.selects cs)),
       RoundRobin.mk pool (Z.of_nat (reach.selects cs mod length pool))).
Proof.
  intros Hne Hmax. unfold RoundRobin.NewRoundRobin.
  assert (HN : (length pool <> 0)%nat) by (by destruct pool).
  replace 0 with (Z.of_nat (0 mod length pool)%nat)
    by (by rewrite Nat.Div0.mod_0_l).
  by rewrite (rr_run_from pool cs Hne Hmax 0%nat).
Qed.

End MoreSimplePolicies.

(** ** LeastConnections: which backend is selected *)
Section MoreLeastConnections.
Import LeastConnections.

Lemma lc_scan_first_fold (conn : gmap string Z) (l : list string)
    (m0 : Z) (s0 : string) :
  let r := fold_left
             (fun (acc : Z * string) s =>
                if get conn s <? fst acc then (get conn s, s) else acc)
             l (m0, s0) in
  (r = (m0, s0) /\ forall s, s ∈ l -> m0 <= get conn s) \/
  (exists i : nat,
     l !! i = Some (snd r) /\ fst r = get conn (snd r) /\ fst r < m0 /\
     (forall (j : nat) s, (j < i)%nat -> l !! j = Some s -> fst r < get conn s) /\
     forall s, s ∈ l -> fst r <= get conn s).
Proof.
  revert m0 s0. induction l as [|x l IH]; intros m0 s0; simpl.
  - left. split; [done|]. intros s Hs. by apply elem_of_nil in Hs.
  - destruct (get conn x <? m0) eqn:Hlt.
    + apply Z.ltb_lt in Hlt. right.
      destruct (IH (get conn x) x)
        as [[Hr Hall]|(i & Hi & Hget & Hless & Hfirst & Hall)].
      * exists 0%nat. rewrite Hr. simpl. repeat split; try done.
        -- intros j s Hj. lia.
        -- intros s Hs. apply elem_of_cons in Hs as [->|Hs]; [lia|by apply Hall].
      * exists (S i). simpl. repeat split; try done; try lia.
        -- intros [|j] s Hj Hs; simpl in Hs.
           ++ injection Hs as <-. lia.
           ++ apply (Hfirst j); [lia|done].
        -- intros s Hs. apply elem_of_cons in Hs as [->|Hs]; [lia|by apply Hall].
    + apply Z.ltb_ge in Hlt.
      destruct (IH m0 s0) as [[Hr Hall]|(i & Hi & Hget & Hless & Hfirst & Hall)].
      * left. split; [done|].
        intros s Hs. apply elem_of_cons in Hs as [->|Hs]; [lia|by apply Hall].
      * right. exists (S i). simpl. repeat split; try done.
        -- intros [|j] s Hj Hs; simpl in Hs.
           ++ injection Hs as <-. lia.
           ++ apply (Hfirst j); [lia|done].
        -- intros s Hs. apply elem_of_cons in Hs as [->|Hs]; [lia|by apply Hall].
Qed.

(** X3. [SelectServer] returns the first backend, in pool order, among those
    with the least count, as long as some count is below the largest
    [int]: every backend before it has a larger count and none has a
    smaller one. *)
Theorem least_connections_selects_first_least (p : t) (s0 : string) :
  s0 ∈ servers p -> get (connections p) s0 < Go.max_int ->
  exists i : nat,
    servers p !! i = Some (fst (SelectServer p)) /\
    (forall (j : nat) s, (j < i)%nat -> servers p !! j = Some s ->
       get (connections p) (fst (SelectServer p)) < get (connections p) s) /\
    (forall s, s ∈ servers p ->
       get (connections p) (fst (SelectServer p)) <= get (connections p) s).
Proof.
  intros Hs0 Hlt. simpl. unfold scan.
  destruct (lc_scan_first_fold (connections p) (servers p) Go.max_int "")
    as [[_ Hall]|(i & Hi & Hget & _ & Hfirst & Hall)].
  - specialize (Hall s0 Hs0). lia.
  - exists i. rewrite <- Hget. done.
Qed.

(** The position the scan selects, when it is known: the backend [b] at a
    position before which all counts are larger and with no smaller count
    anywhere. *)
Lemma lc_select_at (p : t) (i : nat) (b : string) :
  servers p !! i = Some b -> get (connections p) b < Go.max_int ->
  (forall (j : nat) s, (j < i)%nat -> servers p !! j = Some s ->
     get (connections p) b < get (connections p) s) ->
  (forall s, s ∈ servers p -> get (connections p) b <= get (connections p) s) ->
  fst (SelectServer p) = b.
Proof.
  intros Hb Hlt Hbefore Hleast.
  assert (Hin : b ∈ servers p) by (eapply list_elem_of_lookup_2; done).
  simpl. unfold scan.
  destruct (lc_scan_first_fold (connections p) (servers p) Go.max_int "")
    as [[_ Hall]|(k & Hk & Hget & _ & Hkbefore & Hkleast)].
  { specialize (Hall b Hin). lia. }
  rewrite Hget in Hkbefore, Hkleast.
  destruct (Nat.lt_trichotomy k i) as [Hlt'|[->|Hgt]].
  - specialize (Hbefore k _ Hlt' Hk). specialize (Hkleast b Hin). lia.
  - rewrite Hb in Hk. by injection Hk.
  - specialize (Hkbefore i b Hgt Hb).
    assert (Hsel : snd (fold_left
                          (fun (acc : Z * string) s =>
                             if get (connections p) s <? fst acc
                             then (get (connections p) s, s) else acc)
                          (servers p) (Go.max_int, ""%string)) ∈ servers p)
      by (eapply list_elem_of_lookup_2; done).
    specialize (Hleast _ Hsel). lia.
Qed.

End MoreLeastConnections.

(** ** LeastConnections without [Update], and with handlers in flight *)
Section LeastConnectionsRuns.
Import LeastConnections.

Lemma succ_div_mod (k N : nat) :
  (0 < N)%nat ->
  ((S k mod N = S (k mod N) /\ S k / N = k / N /\ S (k mod N) < N) \/
   (S (k mod N) = N /\ S k mod N = 0 /\ S k / N = S (k / N)))%nat.
Proof.
  intros HN.
  pose proof (Nat.div_mod_eq k N) as Hk.
  pose proof (Nat.mod_upper_bound k N ltac:(lia)) as Hr.
  destruct (decide (S (k mod N) = N)) as [Heq|Hne].
  - right. split; [done|].
    destruct (Nat.div_mod_unique N (S k / N) (S (k / N)) (S k mod N) 0)
      as [Hq Hm].
    + apply Nat.mod_upper_bound. lia.
    + lia.
    + rewrite <- Nat.div_mod_eq. nia.
    + done.
  - left.
    destruct (Nat.div_mod_unique N (S k / N) (k / N) (S k mod N) (S (k mod N)))
      as [Hq Hm].
    + apply Nat.mod_upper_bound. lia.
    + lia.
    + rewrite <- Nat.div_mod_eq. nia.
    + repeat split; [done|done|lia].
Qed.

Lemma dealt_New (pool : list string) : reach.dealt pool 0 (NewLeastConnections pool).
Proof.
  split; [done|]. intros i s Hs.
  destruct pool as [|x pool]; [done|].
  rewrite Nat.Div0.div_0_l, Nat.Div0.mod_0_l.
  unfold get, NewLeastConnections. cbn [connections].
  assert (Hin : s ∈ x :: pool) by (eapply list_elem_of_lookup_2; done).
  rewrite fold_insert_lookup.
  destruct (decide (s ∈ x :: pool)); done.
Qed.

Lemma dealt_SelectServer (pool : list string) (k : nat) (p : t) :
  NoDup pool -> pool <> [] -> Z.of_nat k < Go.max_int -> reach.dealt pool k p ->
  fst (SelectServer p) = reach.turn pool k /\ reach.dealt pool (S k) (snd (SelectServer p)).
Proof.
  intros Hnd Hne Hk [Hpool Hcount].
  assert (HN : (0 < length pool)%nat) by (destruct pool; [done|simpl; lia]).
  pose proof (turn_lookup pool k Hne) as Hturn.
  pose proof (Nat.mod_upper_bound k (length pool) ltac:(lia)) as Hr.
  assert (Hdiv : (k / length pool <= k)%nat) by (apply Nat.Div0.div_le_upper_bound; nia).
  assert (Hb : get (connections p) (reach.turn pool k) = Z.of_nat (k / length pool)).
  { rewrite (Hcount _ _ Hturn). rewrite Nat.ltb_irrefl. lia. }
  assert (Hsel : fst (SelectServer p) = reach.turn pool k).
  { apply (lc_select_at p (k mod length pool)%nat).
    - by rewrite Hpool.
    - lia.
    - intros j s Hj Hs. rewrite Hpool in Hs. rewrite Hb, (Hcount _ _ Hs).
      destruct (Nat.ltb_spec j (k mod length pool)); lia.
    - intros s Hs. rewrite Hpool in Hs.
      apply list_elem_of_lookup_1 in Hs as [j Hs].
      rewrite Hb, (Hcount _ _ Hs). destruct (j <? k mod length pool)%nat; lia. }
  split; [done|].
  simpl in Hsel. split; [done|]. intros i s Hs. cbn [SelectServer snd connections].
  rewrite Hsel, Hb.
  assert (Hadd : Go.int_add (Z.of_nat (k / length pool)) 1
                 = Z.of_nat (k / length pool) + 1).
  { apply int_add_in_range. pose proof max_int_eq. unfold Go.min_int. lia. }
  rewrite Hadd.
  destruct (decide (i = (k mod length pool)%nat)) as [->|Hi].
  - rewrite Hturn in Hs. injection Hs as <-. rewrite get_insert_eq.
    destruct (succ_div_mod k (length pool) HN) as [(Hm & Hq & _)|(Hlast & Hm & Hq)].
    + rewrite Hm, Hq. destruct (Nat.ltb_spec (k mod length pool) (S (k mod length pool))); lia.
    + rewrite Hm, Hq. destruct (Nat.ltb_spec (k mod length pool) 0); lia.
  - assert (Hsne : reach.turn pool k <> s).
    { intros <-. apply Hi. eapply NoDup_lookup; done. }
    rewrite get_insert_ne by done. rewrite (Hcount _ _ Hs).
    assert (Hil : (i < length pool)%nat) by (eapply lookup_lt_Some; done).
    destruct (succ_div_mod k (length pool) HN) as [(Hm & Hq & _)|(Hlast & Hm & Hq)].
    + rewrite Hm, Hq.
      destruct (Nat.ltb_spec i (k mod length pool)),
               (Nat.ltb_spec i (S (k mod length pool))); lia.
    + rewrite Hm, Hq.
      destruct (Nat.ltb_spec i (k mod length pool)), (Nat.ltb_spec i 0); lia.
Qed.

Lemma lc_run_dealt (pool : list string) : 
  NoDup pool -> pool <> [] ->
  forall (nows : list time.Time) (k : nat) (p : t),
    Z.of_nat k + Go.len nows <= Go.max_int -> reach.dealt pool k p ->
    fst (run (map CallSelect nows) p)
    = map (fun j => Selected (reach.turn pool j)) (seq k (length nows)) /\
    reach.dealt pool (k + length nows) (snd (run (map CallSelect nows) p)).
Proof.
  intros Hnd Hne. induction nows as [|now nows IH]; intros k p Hk Hp.
  - simpl. by rewrite Nat.add_0_r.
  - unfold Go.len in Hk. simpl length in Hk.
    destruct (dealt_SelectServer pool k p Hnd Hne ltac:(lia) Hp) as [Hsel Hp1].
    cbn [map]. rewrite lc_run_select. cbn [fst snd length seq map].
    destruct (IH (S k) (snd (SelectServer p))) as [Hevs Hfin].
    { unfold Go.len. lia. }
    { done. }
    rewrite Hevs, Hsel. split; [done|].
    by replace (k + S (length nows))%nat with (S k + length nows)%nat by lia.
Qed.

(** X4. With no [Update] in between, LeastConnections over a pool without
    duplicates selects in round-robin order: the [j]-th selection returns
    the backend at position [j mod N], and after [k] selections every count
    is [k / N], one more for the first [k mod N] backends. *)
Theorem least_connections_deals_in_turn (pool : list string)
    (nows : list time.Time) :
  NoDup pool -> pool <> [] -> Go.len nows <= Go.max_int ->
  fst (run (map CallSelect nows) (NewLeastConnections pool))
  = map (fun j => Selected (reach.turn pool j)) (seq 0 (length nows)) /\
  forall (i : nat) s, pool !! i = Some s ->
    get (connections (snd (run (map CallSelect nows) (NewLeastConnections pool)))) s
    = Z.of_nat (length nows / length pool)
      + (if (i <? length nows mod length pool)%nat then 1 else 0).
Proof.
  intros Hnd Hne Hlen.
  destruct (lc_run_dealt pool Hnd Hne nows 0 (NewLeastConnections pool))
    as [Hevs [_ Hcount]].
  - lia.
  - apply dealt_New.
  - done.
Qed.

End LeastConnectionsRuns.

(** ** Handlers in flight *)
Section Sessions.

Lemma holding_nil (b : string) : sessions.holding b [] = 0.
Proof. reflexivity. Qed.

Lemma holding_cons (b x : string) (l : list string) :
  sessions.holding b (x :: l)
  = (if String.eqb b x then 1 else 0) + sessions.holding b l.
Proof.
  unfold sessions.holding, Go.len. simpl.
  destruct (String.eqb b x); simpl length; lia.
Qed.

Lemma holding_app (b x : string) (l : list string) :
  sessions.holding b (l ++ [x])
  = sessions.holding b l + (if String.eqb b x then 1 else 0).
Proof.
  induction l as [|y l IH].
  - simpl app. rewrite holding_cons, holding_nil. lia.
  - simpl app. rewrite !holding_cons, IH. lia.
Qed.

Lemma holding_delete (b x : string) (l : list string) (i : nat) :
  l !! i = Some x ->
  sessions.holding b (delete i l)
  = sessions.holding b l - (if String.eqb b x then 1 else 0).
Proof.
  revert i. induction l as [|y l IH]; intros [|i] Hi; try done.
  - simpl in Hi. injection Hi as ->. simpl delete. rewrite holding_cons. lia.
  - simpl in Hi. simpl delete. rewrite !holding_cons, (IH i Hi). lia.
Qed.

Lemma holding_bounds (b : string) (l : list string) :
  0 <= sessions.holding b l <= Go.len l.
Proof.
  induction l as [|y l IH].
  - rewrite holding_nil. unfold Go.len. simpl. lia.
  - rewrite holding_cons. unfold Go.len in *. simpl length.
    destruct (String.eqb b y); lia.
Qed.

Lemma holding_member (b : string) (l : list string) (i : nat) :
  l !! i = Some b -> 1 <= sessions.holding b l.
Proof.
  intros Hi. pose proof (holding_delete b b l i Hi) as Hd.
  pose proof (holding_bounds b (delete i l)). rewrite String.eqb_refl in Hd. lia.
Qed.

Lemma eqb_bool_decide (b x : string) :
  (if String.eqb b x then 1 else 0) = (if decide (x = b) then 1 else 0).
Proof.
  destruct (String.eqb_spec b x) as [->|Hne].
  - by rewrite decide_True.
  - by rewrite decide_False.
Qed.

Import LeastConnections.

Lemma tracked_New (pool : list string) : reach.tracked (NewLeastConnections pool) [].
Proof.
  intros b. rewrite holding_nil. unfold get, NewLeastConnections.
  cbn [connections]. rewrite fold_insert_lookup.
  destruct (decide (b ∈ pool)); [done|]. by rewrite lookup_empty.
Qed.

Lemma tracked_SelectServer (p : t) (l : list string) :
  Go.len l < Go.max_int -> reach.tracked p l ->
  reach.tracked (snd (SelectServer p)) (l ++ [fst (SelectServer p)]).
Proof.
  intros Hlen Htr b. cbn [SelectServer fst snd connections].
  set (sel := snd (scan (connections p) (servers p))).
  rewrite holding_app, eqb_bool_decide.
  pose proof (holding_bounds sel l) as Hb. pose proof max_int_eq as Hmax.
  destruct (decide (sel = b)) as [<-|Hne].
  - rewrite get_insert_eq, (Htr sel).
    apply int_add_in_range. unfold Go.min_int. lia.
  - rewrite get_insert_ne by done. rewrite (Htr b). lia.
Qed.

Lemma tracked_Update (p : t) (l : list string) (i : nat) (x : string) :
  Go.len l <= Go.max_int -> reach.tracked p l -> l !! i = Some x ->
  reach.tracked (Update p x) (delete i l).
Proof.
  intros Hlen Htr Hi b.
  rewrite (holding_delete b x l i Hi), eqb_bool_decide.
  pose proof (holding_member x l i Hi) as Hx.
  pose proof (holding_bounds x l) as Hb. pose proof max_int_eq as Hmax.
  pose proof (Htr x) as Hget. unfold get in Hget. unfold Update.
  destruct (connections p !! x) as [c|] eqn:Hc; simpl in Hget; [|lia].
  destruct (Z.ltb_spec 0 c) as [_|Hc0]; [|lia]. cbn [connections].
  destruct (decide (x = b)) as [<-|Hne].
  - rewrite get_insert_eq. rewrite Hget.
    apply int_sub_in_range. unfold Go.min_int. lia.
  - rewrite get_insert_ne by done. rewrite (Htr b). lia.
Qed.

Lemma sessions_run_tracked (evs : list sessions.event) :
  forall (p : t) (l fin : list string),
    Go.len l + Go.len evs <= Go.max_int -> reach.tracked p l ->
    exists p' l' fin',
      sessions.run evs (sessions.mk (Policy.OfLeastConnections p) l fin)
      = Returned (sessions.mk (Policy.OfLeastConnections p') l' fin') /\
      servers p' = servers p /\ reach.tracked p' l'.
Proof.
  induction evs as [|[now|i now] evs IH]; intros p l fin Hlen Htr.
  - by exists p, l, fin.
  - unfold Go.len in Hlen. simpl length in Hlen.
    destruct (IH (snd (SelectServer p)) (l ++ [fst (SelectServer p)]) fin)
      as (p' & l' & fin' & Hrun & Hsrv & Htr').
    + unfold Go.len. rewrite length_app. simpl length. lia.
    + apply tracked_SelectServer; [unfold Go.len; lia|done].
    + exists p', l', fin'. done.
  - unfold Go.len in Hlen. simpl length in Hlen.
    cbn [sessions.run sessions.in_flight sessions.policy sessions.ended].
    destruct (l !! i) as [x|] eqn:Hi.
    + destruct (IH (Update p x) (delete i l) (fin ++ [x]))
        as (p' & l' & fin' & Hrun & Hsrv & Htr').
      * pose proof (length_delete l i ltac:(by rewrite Hi)) as Hd.
        unfold Go.len. lia.
      * apply (tracked_Update p l i x); [unfold Go.len; lia|done|done].
      * exists p', l', fin'. split; [done|]. split; [|done].
        rewrite Hsrv. unfold Update.
        destruct (connections p !! x) as [c|]; [|done]. by destruct (0 <? c).
    + destruct (IH p l fin) as (p' & l' & fin' & Hrun & Hsrv & Htr').
      * unfold Go.len. lia.
      * done.
      * by exists p', l', fin'.
Qed.

(** X5. With LeastConnections, however the handlers of [main] start and end,
    the count of every backend is the number of handlers in flight that
    were given that backend, as long as fewer handlers start than the
    largest [int]. When no handler is in flight, every count is zero. *)
Theorem least_connections_counts_handlers (pool : list string)
    (evs : list sessions.event) :
  Go.len evs <= Go.max_int ->
  exists p l fin,
    sessions.run evs
      (sessions.start (Policy.New Policy.LeastConnections pool))
    = Returned (sessions.mk (Policy.OfLeastConnections p) l fin) /\
    servers p = pool /\
    forall b, get (connections p) b = sessions.holding b l.
Proof.
  intros Hlen.
  destruct (sessions_run_tracked evs (NewLeastConnections pool) [] [])
    as (p & l & fin & Hrun & Hsrv & Htr).
  - unfold Go.len in *. simpl length. lia.
  - apply tracked_New.
  - by exists p, l, fin.
Qed.

End Sessions.

(** ** Runs never fail over a pool that is not empty *)
Section RunsReturn.

Lemma wf_New (k : Policy.kind) (pool : list string) :
  pool <> [] -> reach.wf pool 0 (Policy.New k pool).
Proof.
  intros Hne. split; [apply policy_inv_New|].
  destruct k; try done. simpl. unfold Go.len.
  destruct pool; [done|simpl length; lia].
Qed.

Lemma wf_SelectServer (pool : list string) (M : Z) (p : Policy.t)
    (now : time.Time) :
  pool <> [] -> Go.len pool <= Go.max_int -> M < Go.max_int ->
  reach.wf pool M p ->
  exists b p',
    Policy.SelectServer p now = Returned (b, p') /\ b ∈ pool /\
    reach.wf pool (M + 1) p'.
Proof.
  intros Hne Hlen HM [Hinv Hwf].
  assert (Hpos : 0 < Go.len pool)
    by (unfold Go.len; destruct pool; [done|simpl length; lia]).
  destruct p as [q|q|q|q]; simpl in Hinv, Hwf.
  - destruct (index_in_range pool 0 ltac:(lia)) as (a & Ha & Hidx).
    exists a, (Policy.OfN2One q). simpl. unfold N2One.SelectServer.
    rewrite Hinv, Hidx. simpl. split; [done|]. split; [|done].
    eapply list_elem_of_lookup_2; done.
  - destruct q as [srv i]. simpl in Hinv, Hwf. subst srv.
    destruct (index_in_range pool i Hwf) as (a & Ha & _).
    exists a, (Policy.OfRoundRobin (RoundRobin.mk pool ((i + 1) mod Go.len pool))).
    simpl. rewrite (rr_SelectServer_at pool i a) by (done || lia). simpl.
    split; [done|]. split; [eapply list_elem_of_lookup_2; done|].
    split; [done|]. simpl. apply Z.mod_pos_bound. lia.
  - destruct (lc_inv_SelectServer pool M q Hne HM Hinv) as (Hb & Hinv' & _).
    exists (fst (LeastConnections.SelectServer q)),
           (Policy.OfLeastConnections (snd (LeastConnections.SelectServer q))).
    done.
  - destruct Hinv as [Hsrv Hrest].
    destruct (lrt_SelectServer_returns q now) as (b & q' & Hsel & Hb & Hsrv' & Hinv').
    { by rewrite Hsrv. }
    { rewrite Hsrv. done. }
    exists b, (Policy.OfLeastResponseTime q'). simpl. rewrite Hsel. simpl.
    rewrite Hsrv in Hb, Hinv'. done.
Qed.

Lemma wf_Update (pool : list string) (M : Z) (p : Policy.t) (s : string)
    (now : time.Time) :
  M <= Go.max_int -> reach.wf pool M p ->
  reach.wf pool M (Policy.Update p s now).
Proof.
  intros HM [Hinv Hwf]. split; [by apply policy_inv_Update|].
  destruct p; done.
Qed.

Lemma wf_weaken (pool : list string) (M M' : Z) (p : Policy.t) :
  reach.wf pool M p -> M <= M' -> reach.wf pool M' p.
Proof. intros [Hinv Hwf] HM. split; [by eapply policy_inv_weaken|done]. Qed.

Lemma wf_servers (pool : list string) (M : Z) (p : Policy.t) :
  reach.wf pool M p -> Policy.servers p = pool.
Proof.
  intros [Hinv _]. destruct p as [q|q|q|q]; simpl in *; try done.
  - by destruct Hinv.
  - by destruct Hinv.
Qed.

Lemma wf_run (pool : list string) (cs : list call) :
  pool <> [] -> Go.len pool <= Go.max_int ->
  forall (M : Z) (p : Policy.t),
    reach.wf pool M p -> M + Go.len cs <= Go.max_int ->
    exists bs p',
      Policy.run cs p = Returned (bs, p') /\
      length bs = reach.selects cs /\ Forall (fun b => b ∈ pool) bs /\
      reach.wf pool (M + Go.len cs) p'.
Proof.
  intros Hne Hlen. induction cs as [|[now|s now] cs IH]; intros M p Hwf HM.
  - exists [], p. unfold Go.len. simpl length. rewrite Z.add_0_r. done.
  - unfold Go.len in HM. simpl length in HM.
    destruct (wf_SelectServer pool M p now Hne Hlen ltac:(lia) Hwf)
      as (b & p1 & Hsel & Hb & Hwf1).
    destruct (IH (M + 1) p1 Hwf1) as (bs & p2 & Hrun & Hn & Hall & Hwf2).
    { unfold Go.len. lia. }
    exists (b :: bs), p2. unfold Policy.run in *. cbn [run_calls].
    rewrite Hsel. cbn [mbind outcome_bind]. rewrite Hrun. cbn [mbind outcome_bind].
    split; [done|]. split; [unfold reach.selects in *; simpl; lia|].
    split; [by constructor|].
    replace (M + Go.len (CallSelect now :: cs)) with (M + 1 + Go.len cs)
      by (unfold Go.len; simpl length; lia).
    done.
  - unfold Go.len in HM. simpl length in HM.
    destruct (IH M (Policy.Update p s now)) as (bs & p2 & Hrun & Hn & Hall & Hwf2).
    { apply wf_Update; [lia|done]. }
    { unfold Go.len. lia. }
    exists bs, p2. split; [done|]. split; [done|]. split; [done|].
    eapply wf_weaken; [done|]. unfold Go.len. simpl length. lia.
Qed.

(** X6. Over a pool that is not empty, a run of fewer calls than the largest
    [int] from the constructor of any of the four policies neither panics
    nor blocks; it returns one backend per [SelectServer] call, each of them
    a member of the pool, and leaves the pool and the variant as they were. *)
Theorem policy_run_returns_pool_members (k : Policy.kind) (pool : list string)
    (cs : list call) :
  pool <> [] -> Go.len pool <= Go.max_int -> Go.len cs < Go.max_int ->
  exists bs p,
    Policy.run cs (Policy.New k pool) = Returned (bs, p) /\
    length bs = reach.selects cs /\
    Forall (fun b => b ∈ pool) bs /\
    Policy.servers p = pool /\ Policy.kind_of p = k.
Proof.
  intros Hne Hlen Hcs.
  destruct (wf_run pool cs Hne Hlen 0 (Policy.New k pool) (wf_New k pool Hne))
    as (bs & p & Hrun & Hn & Hall & Hwf); [lia|].
  exists bs, p. repeat split; try done.
  - by eapply wf_servers.
  - rewrite (policy_run_kind _ _ _ _ Hrun). by destruct k.
Qed.

(** ** An empty pool *)

(** X7. Over an empty pool the first [SelectServer] of N2One, RoundRobin and
    LeastResponseTime panics on its index expression, whatever calls to
    [Update] came before; LeastConnections returns the empty string and
    counts a connection for it. *)
Theorem empty_pool_select (k : Policy.kind) (ss : list (string * time.Time))
    (now : time.Time) (cs : list call) :
  Policy.run (map (fun st => CallUpdate (fst st) (snd st)) ss ++ CallSelect now :: cs)
    (Policy.New k [])
  = match k with
    | Policy.LeastConnections =>
        '(bs, p) ← Policy.run cs
          (Policy.OfLeastConnections (LeastConnections.mk [] {[ ""%string := 1 ]}));
        Returned (""%string :: bs, p)
    | _ => Panic
    end.
Proof.
  assert (Hupd : forall p, Policy.servers p = [] ->
            (match p with
             | Policy.OfLeastConnections q => LeastConnections.connections q = ∅
             | Policy.OfLeastResponseTime q => LeastResponseTime.startTimes q = ∅
             | _ => True
             end) ->
            forall s t, Policy.Update p s t = p).
  { intros [q|q|q|q] Hs He s t; try done; simpl in *.
    - unfold LeastConnections.Update. by rewrite He, lookup_empty.
    - unfold LeastResponseTime.Update. by rewrite He, lookup_empty. }
  induction ss as [|[s t] ss IH].
  - simpl app. unfold Policy.run. cbn [run_calls]. by destruct k.
  - simpl. unfold Policy.run in *. cbn [run_calls]. rewrite Hupd; [apply IH| |];
      by destruct k.
Qed.

End RunsReturn.

(** ** LeastResponseTime: histories, means and handlers *)
Section MoreLeastResponseTime.
Import LeastResponseTime.

(** What [SelectServer] returns on a pool that is not empty, with the
    channel it finds and the channel it leaves. *)
Lemma lrt_SelectServer_detail (p : t) (now : time.Time) :
  0 < Go.len (servers p) <= Go.max_int -> inv (servers p) p ->
  exists b ch ch' c',
    0 <= c' < Go.len (servers p) /\
    servers p !! Z.to_nat c' = Some b /\
    startTimes p !! b = Some ch /\
    Go.chan_cap ch' = fifo_capacity /\
    Go.chan_buf ch'
    = (if Go.len (Go.chan_buf ch) <? fifo_capacity
       then Go.chan_buf ch else tail (Go.chan_buf ch)) ++ [now] /\
    Go.len (Go.chan_buf ch') <= fifo_capacity /\
    SelectServer p now
    = Returned (b, mk (servers p) (avgTime p) (<[b := ch']> (startTimes p))
                      (pastTimes p) c').
Proof.
  intros HN Hinv. pose proof Hinv as (_ & _ & _ & Hcur).
  destruct (lrt_rotate_spec (avgTime p) (servers p)
              (snd (scan_min (avgTime p) (servers p)
                      (default ""%string (servers p !! 0%nat))))
              HN (length (servers p)) (current p) Hcur) as (c' & Hrot & Hcases).
  assert (Hc' : 0 <= c' < Go.len (servers p)).
  { destruct Hcases as [(k & _ & -> & _)|[-> _]].
    - apply Z.mod_pos_bound; lia.
    - destruct (length (servers p)) eqn:Hl; [unfold Go.len in HN; lia|].
      apply Z.mod_pos_bound; lia. }
  destruct (lrt_SelectServer_after_rotate p now c' HN Hinv Hrot Hc')
    as (b & ch & ch' & Hb & Hch & Hcap & Hbuf & Hlen & Hsel).
  by exists b, ch, ch', c'.
Qed.

(** [SelectServer] writes neither the means nor the histories. *)
Lemma lrt_SelectServer_keeps (p p' : t) (now : time.Time) (b : string) :
  SelectServer p now = Returned (b, p') ->
  servers p' = servers p /\ avgTime p' = avgTime p /\ pastTimes p' = pastTimes p /\
  forall s, s <> b -> startTimes p' !! s = startTimes p !! s.
Proof.
  unfold SelectServer.
  destruct (Go.index (servers p) 0) as [first| |]; simpl; try discriminate.
  destruct (rotate _ _ _ _ _) as [cur| |]; simpl; try discriminate.
  destruct (Go.index (servers p) cur) as [b'| |]; simpl; try discriminate.
  destruct (push_start _ _) as [ch| |]; simpl; try discriminate.
  intros [= <- <-]. simpl. repeat split; try done.
  intros s Hs. by rewrite lookup_insert_ne.
Qed.

Lemma mean_of_app (hist : list float) (e : float) :
  reach.mean_of (hist ++ [e]) = mean (hist ++ [e]).
Proof. by destruct hist. Qed.

Lemma consistent_New (pool : list string) :
  reach.consistent (NewLeastResponseTime pool).
Proof.
  intros b. unfold NewLeastResponseTime. cbn [avgTime pastTimes].
  rewrite !fold_insert_lookup. destruct (decide (b ∈ pool)); [done|].
  by rewrite !lookup_empty.
Qed.

Lemma consistent_Update (p : t) (s : string) (now : time.Time) :
  reach.consistent p -> reach.consistent (Update p s now).
Proof.
  intros Hc b. unfold Update.
  destruct (startTimes p !! s) as [ch|]; [|apply Hc].
  destruct (Go.try_recv ch) as [[start ch']|]; [|apply Hc].
  cbn [avgTime pastTimes]. destruct (decide (s = b)) as [<-|Hne].
  - rewrite !lookup_insert_eq. simpl. by rewrite mean_of_app.
  - rewrite !lookup_insert_ne by done. apply Hc.
Qed.

Lemma consistent_run (cs : list call) :
  forall (p p' : t) (bs : list string),
    reach.consistent p -> run cs p = Returned (bs, p') ->
    reach.consistent p'.
Proof.
  induction cs as [|[now|s now] cs IH]; intros p p' bs Hc; unfold run in *;
    cbn [run_calls].
  - by intros [= <- <-].
  - destruct (SelectServer p now) as [[b p1]| |] eqn:Hsel; simpl; try discriminate.
    destruct (run_calls SelectServer Update cs p1) as [[bs1 p2]| |] eqn:Hrun;
      simpl; try discriminate.
    intros [= <- <-]. apply (IH p1 p2 bs1); [|done].
    destruct (lrt_SelectServer_keeps _ _ _ _ Hsel) as (_ & Ha & Hp & _).
    intros b'. rewrite Ha, Hp. apply Hc.
  - intros Hrun. apply (IH _ _ _ (consistent_Update p s now Hc) Hrun).
Qed.

(** X8. After any run from the constructor, the stored running mean of every
    backend is the mean of its stored history, [0.0] while the history is
    empty, and a backend has the one exactly when it has the other. *)
Theorem least_response_time_mean_of_history (pool : list string)
    (cs : list call) :
  pool <> [] -> Go.len pool <= Go.max_int ->
  exists bs p,
    run cs (NewLeastResponseTime pool) = Returned (bs, p) /\
    forall b, avgTime p !! b = reach.mean_of <$> pastTimes p !! b.
Proof.
  intros Hne Hlen.
  assert (Hpos : 0 < Go.len pool)
    by (unfold Go.len; destruct pool; [done|simpl length; lia]).
  destruct (lrt_run_returns pool cs ltac:(lia) (NewLeastResponseTime pool)
              (lrt_inv_New pool)) as (bs & p & Hrun & _).
  exists bs, p. split; [done|].
  apply (consistent_run cs _ _ _ (consistent_New pool) Hrun).
Qed.

End MoreLeastResponseTime.

Section LeastResponseTimeTurns.
Import LeastResponseTime.

Lemma rotate_all_tied (avgm : gmap string float) (pool : list string)
    (sel : string) (n : nat) (c : Z) :
  0 < Go.len pool <= Go.max_int -> -1 <= c < Go.len pool ->
  (forall s, avg avgm s = 0%float) ->
  rotate avgm pool sel (S n) c = Returned ((c + 1) mod Go.len pool).
Proof.
  intros HN Hc Hzero. pose proof max_int_eq as Hmax.
  assert (Hc1 : 0 <= (c + 1) mod Go.len pool < Go.len pool)
    by (apply Z.mod_pos_bound; lia).
  destruct (index_in_range pool _ Hc1) as (s & _ & Hidx).
  apply (rotate_step avgm pool sel s n c ((c + 1) mod Go.len pool) true).
  - rewrite int_add_in_range by (unfold Go.min_int; lia).
    unfold Go.int_rem. destruct (Z.eqb_spec (Go.len pool) 0) as [H0|_]; [lia|].
    by rewrite Z.rem_mod_nonneg by lia.
  - done.
  - by rewrite !Hzero.
  - done.
Qed.

Lemma lrt_select_in_turn (pool : list string) (k : nat) (p : t) (now : time.Time) :
  pool <> [] -> Go.len pool <= Go.max_int ->
  inv pool p -> (forall s, avg (avgTime p) s = 0%float) ->
  (current p + 1) mod Go.len pool = Z.of_nat (k mod length pool) ->
  exists p',
    SelectServer p now = Returned (reach.turn pool k, p') /\
    inv pool p' /\ (forall s, avg (avgTime p') s = 0%float) /\
    (current p' + 1) mod Go.len pool = Z.of_nat (S k mod length pool).
Proof.
  intros Hne Hlen Hinv Hzero Hcur.
  assert (Hpos : 0 < Go.len pool)
    by (unfold Go.len; destruct pool; [done|simpl length; lia]).
  pose proof Hinv as (Hsrv & Hkeys & Hcaps & Hc).
  pose proof (turn_lookup pool k Hne) as Hturn.
  assert (Hin : reach.turn pool k ∈ pool) by (eapply list_elem_of_lookup_2; done).
  destruct (proj2 (Hkeys _) Hin) as [ch Hch].
  destruct (Hcaps _ ch Hch) as [Hcap Hbuf].
  destruct (lrt_push_start_spec ch now Hcap Hbuf) as (ch' & Hpush & Hcap' & _ & Hlen').
  destruct (index_in_range pool 0 ltac:(lia)) as (first & _ & Hidx0).
  destruct (length pool) as [|n] eqn:Hn; [unfold Go.len in Hpos; lia|].
  rewrite <- Hn in *.
  assert (Hc' : 0 <= (current p + 1) mod Go.len pool < Go.len pool)
    by (apply Z.mod_pos_bound; lia).
  eexists. split; [|split; [|split]].
  - apply (lrt_SelectServer_eval p now first
             (snd (scan_min (avgTime p) (servers p) first))
             (reach.turn pool k)
             (fst (scan_min (avgTime p) (servers p) first))
             ((current p + 1) mod Go.len pool) ch ch').
    + by rewrite Hsrv.
    + by destruct (scan_min _ _ _).
    + rewrite Hsrv, Hn. apply rotate_all_tied; [lia|done|done].
    + rewrite Hsrv. unfold Go.index.
      destruct (Z.leb_spec 0 ((current p + 1) mod Go.len pool)) as [_|?]; [|lia].
      destruct (Z.ltb_spec ((current p + 1) mod Go.len pool) (Go.len pool))
        as [_|?]; [|lia].
      simpl. by rewrite Hcur, Nat2Z.id, Hturn.
    + done.
    + done.
  - rewrite <- Hsrv. apply lrt_inv_after_select; rewrite ?Hsrv; done.
  - done.
  - cbn [current]. rewrite Hcur.
    rewrite !Nat2Z.inj_mod, Nat2Z.inj_succ. unfold Go.len.
    rewrite Zplus_mod_idemp_l. f_equal; lia.
Qed.

Lemma lrt_run_in_turn (pool : list string) :
  pool <> [] -> Go.len pool <= Go.max_int ->
  forall (nows : list time.Time) (k : nat) (p : t),
    inv pool p -> (forall s, avg (avgTime p) s = 0%float) ->
    (current p + 1) mod Go.len pool = Z.of_nat (k mod length pool) ->
    exists p',
      run (map CallSelect nows) p
      = Returned (map (reach.turn pool) (seq k (length nows)), p') /\
      (forall s, avg (avgTime p') s = 0%float).
Proof.
  intros Hne Hlen. induction nows as [|now nows IH]; intros k p Hinv Hzero Hcur.
  - by exists p.
  - destruct (lrt_select_in_turn pool k p now Hne Hlen Hinv Hzero Hcur)
      as (p1 & Hsel & Hinv1 & Hzero1 & Hcur1).
    destruct (IH (S k) p1 Hinv1 Hzero1 Hcur1) as (p2 & Hrun & Hzero2).
    exists p2. split; [|done]. cbn [map length seq].
    by apply (lrt_run_select now _ p p1 p2).
Qed.

(** X9. Until the first [Update] every running mean is [0.0], every backend is
    tied, and LeastResponseTime is round robin: the [j]-th [SelectServer]
    returns the backend at position [j mod N] of the pool, also when the
    pool lists a backend twice. *)
Theorem least_response_time_starts_round_robin (pool : list string)
    (nows : list time.Time) :
  pool <> [] -> Go.len pool <= Go.max_int ->
  exists p,
    run (map CallSelect nows) (NewLeastResponseTime pool)
    = Returned (map (reach.turn pool) (seq 0 (length nows)), p).
Proof.
  intros Hne Hlen.
  assert (Hpos : 0 < Go.len pool)
    by (unfold Go.len; destruct pool; [done|simpl length; lia]).
  destruct (lrt_run_in_turn pool Hne Hlen nows 0 (NewLeastResponseTime pool))
    as (p & Hrun & _).
  - apply lrt_inv_New.
  - intros s. unfold avg, NewLeastResponseTime. cbn [avgTime].
    rewrite fold_insert_lookup. destruct (decide (s ∈ pool)); [done|].
    by rewrite lookup_empty.
  - cbn [current NewLeastResponseTime]. rewrite Nat.Div0.mod_0_l.
    change (-1 + 1) with 0. by rewrite Z.mod_0_l by lia.
  - by exists p.
Qed.

End LeastResponseTimeTurns.

Section LeastResponseTimeSessions.
Import LeastResponseTime.

Lemma paired_New (pool : list string) : reach.paired (NewLeastResponseTime pool) [] [].
Proof.
  intros b. rewrite !holding_nil. unfold reach.pending, past, NewLeastResponseTime.
  cbn [startTimes pastTimes]. rewrite !fold_insert_lookup.
  destruct (decide (b ∈ pool)); [done|]. by rewrite !lookup_empty.
Qed.

Lemma paired_SelectServer (pool : list string) (p : t) (l fin : list string)
    (now : time.Time) :
  pool <> [] -> Go.len pool <= Go.max_int -> Go.len l < fifo_capacity ->
  inv pool p -> reach.paired p l fin ->
  exists b p',
    SelectServer p now = Returned (b, p') /\ inv pool p' /\
    reach.paired p' (l ++ [b]) fin.
Proof.
  intros Hne Hlen Hl Hinv Hpair.
  assert (Hpos : 0 < Go.len pool)
    by (unfold Go.len; destruct pool; [done|simpl length; lia]).
  pose proof Hinv as (Hsrv & _). rewrite <- Hsrv in Hinv, Hpos, Hlen.
  destruct (lrt_SelectServer_detail p now ltac:(lia) Hinv)
    as (b & ch & ch' & c' & Hc' & Hb & Hch & Hcap & Hbuf & Hlen' & Hsel).
  assert (Hin : b ∈ servers p) by (eapply list_elem_of_lookup_2; done).
  exists b. eexists. split; [exact Hsel|]. split.
  { rewrite <- Hsrv. by apply lrt_inv_after_select. }
  intros s. destruct (Hpair s) as [Hpend Hpast]. cbn [pastTimes]. split; [|done].
  rewrite holding_app, eqb_bool_decide. unfold reach.pending in *. cbn [startTimes].
  destruct (decide (b = s)) as [<-|Hs].
  - rewrite lookup_insert_eq, Hbuf. rewrite Hch in Hpend.
    pose proof (holding_bounds b l) as Hbound.
    destruct (Z.ltb_spec (Go.len (Go.chan_buf ch)) fifo_capacity) as [_|?]; [|lia].
    unfold Go.len in *. rewrite length_app. simpl length. lia.
  - rewrite lookup_insert_ne by done. lia.
Qed.

Lemma paired_Update (p : t) (l fin : list string) (i : nat) (x : string)
    (now : time.Time) :
  reach.paired p l fin -> l !! i = Some x ->
  reach.paired (Update p x now) (delete i l) (fin ++ [x]).
Proof.
  intros Hpair Hi.
  pose proof (holding_member x l i Hi) as Hx.
  destruct (Hpair x) as [Hpend _]. unfold reach.pending in Hpend.
  destruct (startTimes p !! x) as [ch|] eqn:Hch; [|lia].
  destruct (Go.chan_buf ch) as [|start rest] eqn:Hbuf;
    [unfold Go.len in Hpend; simpl in Hpend; lia|].
  rewrite (lrt_Update_eval p x now start ch (Go.mkChan (Go.chan_cap ch) rest)
             (past (pastTimes p) x)); [|done| |done].
  2: { unfold Go.try_recv. by rewrite Hbuf. }
  intros s. destruct (Hpair s) as [Hps Hpast].
  rewrite (holding_delete s x l i Hi), holding_app, !eqb_bool_decide.
  unfold reach.pending in *. cbn [startTimes pastTimes].
  destruct (decide (x = s)) as [<-|Hs].
  - rewrite lookup_insert_eq, past_insert_eq. cbn [Go.chan_buf].
    rewrite Hch, Hbuf in Hps. unfold Go.len in *. rewrite length_app.
    simpl length in *. lia.
  - rewrite lookup_insert_ne, past_insert_ne by done. lia.
Qed.

Lemma sessions_run_paired (pool : list string) (evs : list sessions.event) :
  pool <> [] -> Go.len pool <= Go.max_int ->
  forall (p : t) (l fin : list string),
    Go.len l + Go.len evs <= fifo_capacity -> inv pool p -> reach.paired p l fin ->
    exists p' l' fin',
      sessions.run evs (sessions.mk (Policy.OfLeastResponseTime p) l fin)
      = Returned (sessions.mk (Policy.OfLeastResponseTime p') l' fin') /\
      inv pool p' /\ reach.paired p' l' fin'.
Proof.
  intros Hne Hlen.
  induction evs as [|[now|i now] evs IH]; intros p l fin Hl Hinv Hpair.
  - by exists p, l, fin.
  - unfold Go.len in Hl. simpl length in Hl.
    destruct (paired_SelectServer pool p l fin now Hne Hlen
                ltac:(unfold Go.len; lia) Hinv Hpair)
      as (b & p1 & Hsel & Hinv1 & Hpair1).
    destruct (IH p1 (l ++ [b]) fin) as (p' & l' & fin' & Hrun & Hinv' & Hpair').
    + unfold Go.len. rewrite length_app. simpl length. lia.
    + done.
    + done.
    + exists p', l', fin'. split; [|done].
      cbn [sessions.run sessions.policy sessions.in_flight sessions.ended
           Policy.SelectServer].
      rewrite Hsel. done.
  - unfold Go.len in Hl. simpl length in Hl.
    cbn [sessions.run sessions.in_flight sessions.policy sessions.ended].
    destruct (l !! i) as [x|] eqn:Hi.
    + destruct (IH (Update p x now) (delete i l) (fin ++ [x]))
        as (p' & l' & fin' & Hrun & Hinv' & Hpair').
      * pose proof (length_delete l i ltac:(by rewrite Hi)) as Hd.
        unfold Go.len. lia.
      * by apply lrt_inv_Update.
      * by apply (paired_Update p l fin i x).
      * by exists p', l', fin'.
    + destruct (IH p l fin) as (p' & l' & fin' & Hrun & Hinv' & Hpair').
      * unfold Go.len. lia.
      * done.
      * done.
      * by exists p', l', fin'.
Qed.

End LeastResponseTimeSessions.

(** ** The handlers over LeastResponseTime, step by step *)
Section HandlersSteps.
Import LeastResponseTime.

(** [SelectServer] is its locked part followed by the read of the result. *)
Lemma select_locked_result (p : t) (now : time.Time) :
  SelectServer p now
  = p' ← handlers.locked p now; b ← handlers.result p'; Returned (b, p').
Proof.
  unfold SelectServer, handlers.locked, handlers.result.
  destruct (Go.index (servers p) 0) as [first| |]; simpl; try done.
  destruct (rotate _ _ _ _ _) as [cur| |]; simpl; try done.
  destruct (Go.index (servers p) cur) as [b| |] eqn:Hb; simpl; try done.
  destruct (push_start _ _) as [ch| |]; simpl; try done.
  by rewrite Hb.
Qed.

Lemma select_locked (p p' : t) (now : time.Time) (b : string) :
  SelectServer p now = Returned (b, p') ->
  handlers.locked p now = Returned p' /\ handlers.result p' = Returned b.
Proof.
  rewrite select_locked_result.
  destruct (handlers.locked p now) as [q| |]; simpl; try discriminate.
  destruct (handlers.result q) as [b'| |] eqn:Hres; simpl; try discriminate.
  by intros [= <- <-].
Qed.

(** A run of [sessions] over LeastResponseTime is the run of [handlers] on
    the serial schedule. *)
Lemma serial_run (evs : list sessions.event) :
  forall (p p' : t) (l l' fin fin' : list string),
    sessions.run evs (sessions.mk (Policy.OfLeastResponseTime p) l fin)
    = Returned (sessions.mk (Policy.OfLeastResponseTime p') l' fin') ->
    handlers.run (handlers.serial evs) (handlers.mk p 0 l fin)
    = Returned (handlers.mk p' 0 l' fin').
Proof.
  induction evs as [|[now|i now] evs IH]; intros p p' l l' fin fin'.
  - simpl. by intros [= <- <- <-].
  - cbn [sessions.run sessions.policy sessions.in_flight sessions.ended
         Policy.SelectServer].
    destruct (SelectServer p now) as [[b p1]| |] eqn:Hsel; simpl; try discriminate.
    intros Hrun. destruct (select_locked _ _ _ _ Hsel) as [Hlock Hres].
    change (handlers.serial (sessions.Start now :: evs))
      with (handlers.Lock now :: handlers.Return :: handlers.serial evs).
    cbn [handlers.run handlers.policy handlers.returning handlers.in_flight
         handlers.ended].
    rewrite Hlock. cbn [mbind outcome_bind handlers.run handlers.policy
                        handlers.returning handlers.in_flight handlers.ended].
    rewrite Hres. cbn [mbind outcome_bind]. by apply IH.
  - cbn [sessions.run sessions.policy sessions.in_flight sessions.ended].
    change (handlers.serial (sessions.Finish i now :: evs))
      with (handlers.Finish i now :: handlers.serial evs).
    cbn [handlers.run handlers.policy handlers.returning handlers.in_flight
         handlers.ended].
    destruct (l !! i) as [x|]; [|by apply IH].
    cbn [Policy.Update]. by apply IH.
Qed.

(** X10. With LeastResponseTime, when every handler of [main] reads the
    result of its [SelectServer] before any other call on the policy (the
    serial schedules), however the handlers start and end, as long as no
    more than 10000 of them start: a backend's FIFO holds one start time
    for each handler in flight on it, and its history holds one sample for
    each handler that ended on it. No start time is dropped and no
    [Update] of a handler finds the FIFO empty. *)
Theorem least_response_time_one_sample_per_handler (pool : list string)
    (evs : list sessions.event) :
  pool <> [] -> Go.len pool <= Go.max_int -> Go.len evs <= fifo_capacity ->
  exists p l fin,
    handlers.run (handlers.serial evs)
      (handlers.start (NewLeastResponseTime pool))
    = Returned (handlers.mk p 0 l fin) /\
    forall b, reach.pending p b = sessions.holding b l /\
              Go.len (past (pastTimes p) b) = sessions.holding b fin.
Proof.
  intros Hne Hlen Hevs.
  destruct (sessions_run_paired pool evs Hne Hlen (NewLeastResponseTime pool) [] [])
    as (p & l & fin & Hrun & _ & Hpair).
  - unfold Go.len in *. simpl length. lia.
  - apply lrt_inv_New.
  - apply paired_New.
  - exists p, l, fin. split; [|done]. by apply serial_run.
Qed.

Lemma lrt_select_turn_exact (pool : list string) (k : nat) (p : t)
    (now : time.Time) (ch : Go.chan time.Time) :
  pool <> [] -> Go.len pool <= Go.max_int ->
  inv pool p -> (forall s, avg (avgTime p) s = 0%float) ->
  (current p + 1) mod Go.len pool = Z.of_nat (k mod length pool) ->
  startTimes p !! reach.turn pool k = Some ch ->
  Go.len (Go.chan_buf ch) < Go.chan_cap ch ->
  SelectServer p now
  = Returned (reach.turn pool k,
              mk (servers p) (avgTime p)
                 (<[reach.turn pool k
                    := Go.mkChan (Go.chan_cap ch) (Go.chan_buf ch ++ [now])]>
                    (startTimes p))
                 (pastTimes p) (Z.of_nat (k mod length pool))).
Proof.
  intros Hne Hlen Hinv Hzero Hcur Hch Hroom.
  assert (Hpos : 0 < Go.len pool)
    by (unfold Go.len; destruct pool; [done|simpl length; lia]).
  pose proof Hinv as (Hsrv & Hkeys & Hcaps & Hc).
  pose proof (turn_lookup pool k Hne) as Hturn.
  destruct (index_in_range pool 0 ltac:(lia)) as (first & _ & Hidx0).
  destruct (length pool) as [|n] eqn:Hn; [unfold Go.len in Hpos; lia|].
  rewrite <- Hn in *.
  assert (Hc' : 0 <= (current p + 1) mod Go.len pool < Go.len pool)
    by (apply Z.mod_pos_bound; lia).
  apply (lrt_SelectServer_eval p now first
           (snd (scan_min (avgTime p) (servers p) first))
           (reach.turn pool k)
           (fst (scan_min (avgTime p) (servers p) first))
           (Z.of_nat (k mod length pool)) ch).
  - by rewrite Hsrv.
  - by destruct (scan_min _ _ _).
  - rewrite <- Hcur, Hsrv, Hn. apply rotate_all_tied; [lia|done|done].
  - rewrite Hsrv, <- Hcur. unfold Go.index.
    destruct (Z.leb_spec 0 ((current p + 1) mod Go.len pool)) as [_|?]; [|lia].
    destruct (Z.ltb_spec ((current p + 1) mod Go.len pool) (Go.len pool))
      as [_|?]; [|lia].
    simpl. by rewrite Hcur, Nat2Z.id, Hturn.
  - done.
  - unfold push_start, Go.try_send.
    by destruct (Z.ltb_spec (Go.len (Go.chan_buf ch)) (Go.chan_cap ch)); [|lia].
Qed.

Lemma fresh_channel (pool : list string) (b : string) :
  b ∈ pool ->
  startTimes (NewLeastResponseTime pool) !! b = Some (Go.make_chan fifo_capacity).
Proof.
  intros Hb. unfold NewLeastResponseTime. cbn [startTimes].
  rewrite fold_insert_lookup. by rewrite decide_True.
Qed.

Lemma fresh_avg_zero (pool : list string) (s : string) :
  avg (avgTime (NewLeastResponseTime pool)) s = 0%float.
Proof.
  unfold avg, NewLeastResponseTime. cbn [avgTime].
  rewrite fold_insert_lookup. destruct (decide (s ∈ pool)); [done|].
  by rewrite lookup_empty.
Qed.

Lemma fresh_past_nil (pool : list string) (s : string) :
  past (pastTimes (NewLeastResponseTime pool)) s = [].
Proof.
  unfold past, NewLeastResponseTime. cbn [pastTimes].
  rewrite fold_insert_lookup. destruct (decide (s ∈ pool)); [done|].
  by rewrite lookup_empty.
Qed.

(** X23. Two handlers whose selections overlap get the same backend. Over
    a pool that starts with two different backends [b0] and [b1], when
    the second handler's locked part runs before the first handler reads
    its result, both handlers are given [b1], although the first one's
    start time went to the FIFO of [b0]. When both have ended, the start
    time of [b0] is still pending, [b0] has no sample, and [b1] has one
    sample for the two handlers that ended on it: the second [Update]
    found its FIFO empty. *)
Theorem overlapping_selections_share_backend (b0 b1 : string)
    (rest : list string) (t0 t1 t2 t3 : time.Time) :
  b0 <> b1 -> Go.len (b0 :: b1 :: rest) <= Go.max_int ->
  exists p,
    handlers.run
      [handlers.Lock t0; handlers.Lock t1; handlers.Return; handlers.Return;
       handlers.Finish 0 t2; handlers.Finish 0 t3]
      (handlers.start (NewLeastResponseTime (b0 :: b1 :: rest)))
    = Returned (handlers.mk p 0 [] [b1; b1]) /\
    (exists ch, startTimes p !! b0 = Some ch /\ Go.chan_buf ch = [t0]) /\
    (exists ch, startTimes p !! b1 = Some ch /\ Go.chan_buf ch = []) /\
    past (pastTimes p) b0 = [] /\
    past (pastTimes p) b1 = [time.Seconds (time.Since t2 t1)].
Proof.
  intros Hne Hlen. set (pool := b0 :: b1 :: rest) in *.
  assert (Hpool : pool <> []) by done.
  assert (Hlen2 : 2 <= Go.len pool) by (unfold Go.len, pool; simpl length; lia).
  assert (Hin0 : b0 ∈ pool) by (apply elem_of_cons; by left).
  assert (Hin1 : b1 ∈ pool)
    by (apply elem_of_cons; right; apply elem_of_cons; by left).
  assert (Hmod0 : (0 mod length pool = 0)%nat) by (apply Nat.Div0.mod_0_l).
  assert (Hmod1 : (1 mod length pool = 1)%nat).
  { apply Nat.mod_small. unfold Go.len in Hlen2. lia. }
  assert (Hturn0 : reach.turn pool 0 = b0) by (unfold reach.turn; by rewrite Hmod0).
  assert (Hturn1 : reach.turn pool 1 = b1) by (unfold reach.turn; by rewrite Hmod1).
  set (p0 := NewLeastResponseTime pool).
  (* the first locked part *)
  pose proof (lrt_select_turn_exact pool 0 p0 t0 (Go.make_chan fifo_capacity)
                Hpool Hlen (lrt_inv_New pool) (fresh_avg_zero pool)) as Hsel0.
  rewrite Hturn0, Hmod0 in Hsel0.
  specialize (Hsel0 ltac:(cbn [current p0 NewLeastResponseTime];
                          change (-1 + 1) with 0; by rewrite Z.mod_0_l by lia)
                    (fresh_channel pool b0 Hin0)
                    ltac:(unfold Go.len, fifo_capacity; simpl; lia)).
  cbn [Go.chan_cap Go.chan_buf Go.make_chan app] in Hsel0.
  set (p1 := mk (servers p0) (avgTime p0)
                (<[b0 := Go.mkChan fifo_capacity [t0]]> (startTimes p0))
                (pastTimes p0) (Z.of_nat 0)) in *.
  destruct (select_locked _ _ _ _ Hsel0) as [Hlock0 _].
  assert (Hinv1 : inv pool p1).
  { apply (lrt_inv_after_select p0 b0 (Go.mkChan fifo_capacity [t0]) (Z.of_nat 0)).
    - apply lrt_inv_New.
    - done.
    - done.
    - unfold Go.len, fifo_capacity. simpl. lia.
    - cbn [servers p0 NewLeastResponseTime]. lia. }
  (* the second locked part *)
  pose proof (lrt_select_turn_exact pool 1 p1 t1 (Go.make_chan fifo_capacity)
                Hpool Hlen Hinv1 (fresh_avg_zero pool)) as Hsel1.
  rewrite Hturn1, Hmod1 in Hsel1.
  specialize (Hsel1 ltac:(cbn [current p1]; change (Z.of_nat 0 + 1) with 1;
                          change (Z.of_nat 1) with 1; apply Z.mod_small; lia)).
  specialize (Hsel1 ltac:(cbn [startTimes p1]; rewrite lookup_insert_ne by done;
                          exact (fresh_channel pool b1 Hin1))
                    ltac:(unfold Go.len, fifo_capacity; simpl; lia)).
  cbn [Go.chan_cap Go.chan_buf Go.make_chan app servers avgTime startTimes
       pastTimes p1] in Hsel1.
  set (p2 := mk (servers p0) (avgTime p0)
                (<[b1 := Go.mkChan fifo_capacity [t1]]>
                   (<[b0 := Go.mkChan fifo_capacity [t0]]> (startTimes p0)))
                (pastTimes p0) (Z.of_nat 1)) in *.
  destruct (select_locked _ _ _ _ Hsel1) as [Hlock1 Hres].
  (* the first handler ends *)
  pose proof (lrt_Update_eval p2 b1 t2 t1 (Go.mkChan fifo_capacity [t1])
                (Go.mkChan fifo_capacity []) []) as Hupd.
  specialize (Hupd ltac:(cbn [startTimes p2]; by rewrite lookup_insert_eq)
                   eq_refl (fresh_past_nil pool b1)).
  cbn [app servers avgTime startTimes pastTimes current p2] in Hupd.
  set (p3 := mk (servers p0)
                (<[b1 := mean [time.Seconds (time.Since t2 t1)]]> (avgTime p0))
                (<[b1 := Go.mkChan fifo_capacity []]>
                   (<[b1 := Go.mkChan fifo_capacity [t1]]>
                      (<[b0 := Go.mkChan fifo_capacity [t0]]> (startTimes p0))))
                (<[b1 := [time.Seconds (time.Since t2 t1)]]> (pastTimes p0))
                (Z.of_nat 1)) in *.
  (* the second handler ends on an empty FIFO *)
  assert (Hupd' : Update p3 b1 t3 = p3).
  { unfold Update. cbn [startTimes p3]. by rewrite lookup_insert_eq. }
  exists p3. split; [|split; [|split; [|split]]].
  - unfold handlers.start.
    cbn [handlers.run handlers.policy handlers.returning handlers.in_flight
         handlers.ended].
    fold p0. rewrite Hlock0. cbn [mbind outcome_bind]. rewrite Hlock1.
    cbn [mbind outcome_bind]. rewrite Hres. cbn [mbind outcome_bind app].
    cbn [lookup list_lookup delete list_delete]. rewrite Hupd, Hupd'. done.
  - exists (Go.mkChan fifo_capacity [t0]). split; [|done]. cbn [startTimes p3].
    by rewrite !lookup_insert_ne, lookup_insert_eq by done.
  - exists (Go.mkChan fifo_capacity []). split; [|done]. cbn [startTimes p3].
    by rewrite lookup_insert_eq.
  - cbn [pastTimes p3]. rewrite past_insert_ne by done. apply fresh_past_nil.
  - cbn [pastTimes p3]. by rewrite past_insert_eq.
Qed.

End HandlersSteps.

(** ** What [SelectServer] leaves alone *)
Section SelectFrame.

(** X11. Frame of [SelectServer]. For every policy variant, a [SelectServer]
    that returns [b] keeps the pool and the variant, leaves everything
    stored under any other backend as it was, and for [b] itself writes
    neither the running mean nor the history; N2One is left as it was. *)
Theorem select_frame (p p' : Policy.t) (now : time.Time) (b s : string) :
  Policy.SelectServer p now = Returned (b, p') ->
  Policy.servers p' = Policy.servers p /\
  Policy.kind_of p' = Policy.kind_of p /\
  (s <> b -> Policy.per_backend p' s = Policy.per_backend p s) /\
  Policy.bs_avg (Policy.per_backend p' b) = Policy.bs_avg (Policy.per_backend p b) /\
  Policy.bs_history (Policy.per_backend p' b)
  = Policy.bs_history (Policy.per_backend p b) /\
  (Policy.kind_of p = Policy.N2One -> p' = p).
Proof.
  intros Hsel. split; [|split; [by eapply policy_SelectServer_kind|]].
  - destruct p as [q|q|q|q]; simpl in Hsel.
    + unfold N2One.SelectServer in Hsel.
      destruct (Go.index _ _); simpl in Hsel; try discriminate.
      by injection Hsel as <- <-.
    + unfold RoundRobin.SelectServer in Hsel.
      destruct (Go.index _ _); simpl in Hsel; try discriminate.
      destruct (Go.int_rem _ _); simpl in Hsel; try discriminate.
      by injection Hsel as <- <-.
    + by injection Hsel as <- <-.
    + destruct (LeastResponseTime.SelectServer q now) as [[b' q']| |] eqn:Hq;
        simpl in Hsel; try discriminate.
      injection Hsel as <- <-.
      by destruct (lrt_SelectServer_keeps _ _ _ _ Hq) as (Hs & _).
  - destruct p as [q|q|q|q]; simpl in Hsel.
    + unfold N2One.SelectServer in Hsel.
      destruct (Go.index _ _); simpl in Hsel; try discriminate.
      by injection Hsel as <- <-.
    + unfold RoundRobin.SelectServer in Hsel.
      destruct (Go.index _ _); simpl in Hsel; try discriminate.
      destruct (Go.int_rem _ _); simpl in Hsel; try discriminate.
      injection Hsel as <- <-. repeat split; done.
    + injection Hsel as <- <-. simpl. repeat split; try done.
      intros Hs. by rewrite lookup_insert_ne.
    + destruct (LeastResponseTime.SelectServer q now) as [[b' q']| |] eqn:Hq;
        simpl in Hsel; try discriminate.
      injection Hsel as <- <-.
      destruct (lrt_SelectServer_keeps _ _ _ _ Hq) as (_ & Ha & Hp & Hst).
      simpl. rewrite Ha, Hp. repeat split; try done.
      intros Hs. by rewrite (Hst s Hs).
Qed.

End SelectFrame.

(** ** The standalone copy of LeastResponseTime *)
Section Legacy.
Import LeastResponseTime.

Lemma legacy_inv_New (pool : list string) :
  legacy.inv pool (legacy.NewLeastResponseTime pool).
Proof.
  unfold legacy.inv, legacy.NewLeastResponseTime; simpl. split; [done|]. split.
  - intros s. rewrite fold_insert_lookup. destruct (decide (s ∈ pool)) as [Hin|Hnin].
    + split; [done|]. intros _. by eexists.
    + rewrite lookup_empty. split; [by intros [? ?]|done].
  - intros s ch. rewrite fold_insert_lookup. destruct (decide (s ∈ pool)).
    + intros [= <-]. simpl. unfold Go.len. simpl. unfold fifo_capacity. lia.
    + by rewrite lookup_empty.
Qed.

Lemma legacy_New_avg_zero (pool : list string) (s : string) :
  avg (legacy.avgTime (legacy.NewLeastResponseTime pool)) s = 0%float.
Proof.
  unfold avg, legacy.NewLeastResponseTime. cbn [legacy.avgTime].
  rewrite fold_insert_lookup. destruct (decide (s ∈ pool)); [done|].
  by rewrite lookup_empty.
Qed.

Lemma legacy_SelectServer_eval (p : legacy.t) (now : time.Time) (first : string) :
  legacy.servers p !! 0%nat = Some first ->
  legacy.inv (legacy.servers p) p ->
  snd (scan_min (legacy.avgTime p) (legacy.servers p) first) ∈ legacy.servers p ->
  exists ch ch',
    legacy.startTimes p
      !! snd (scan_min (legacy.avgTime p) (legacy.servers p) first) = Some ch /\
    Go.chan_cap ch' = fifo_capacity /\
    Go.chan_buf ch'
    = (if Go.len (Go.chan_buf ch) <? fifo_capacity
       then Go.chan_buf ch else tail (Go.chan_buf ch)) ++ [now] /\
    Go.len (Go.chan_buf ch') <= fifo_capacity /\
    legacy.SelectServer p now
    = Returned (snd (scan_min (legacy.avgTime p) (legacy.servers p) first),
                legacy.mk (legacy.servers p) (legacy.avgTime p)
                  (<[snd (scan_min (legacy.avgTime p) (legacy.servers p) first)
                     := ch']> (legacy.startTimes p))
                  (legacy.pastTimes p)).
Proof.
  intros Hfirst (_ & Hkeys & Hcaps) Hin.
  destruct (proj2 (Hkeys _) Hin) as [ch Hch].
  destruct (Hcaps _ ch Hch) as [Hcap Hlen].
  destruct (lrt_push_start_spec ch now Hcap Hlen) as (ch' & Hpush & Hcap' & Hbuf' & Hlen').
  exists ch, ch'. repeat (split; [done|]).
  unfold legacy.SelectServer, Go.index.
  assert (Hpos : 0 < Go.len (legacy.servers p)).
  { unfold Go.len. destruct (legacy.servers p); [done|simpl length; lia]. }
  destruct (Z.ltb_spec 0 (Go.len (legacy.servers p))) as [_|?]; [|lia].
  change (Z.to_nat 0) with 0%nat. rewrite Hfirst. cbn [mbind outcome_bind andb Z.leb Z.compare].
  rewrite Hch, Hpush. done.
Qed.

(** X12. The standalone copy has no cursor: its [SelectServer] returns the
    first backend, in pool order, among those with the least running mean,
    every time, and pushes the start time on that backend's FIFO: the new
    FIFO of the backend is the old one, without its oldest entry when it
    was full, followed by the start time. Nothing else changes. *)
Theorem legacy_selects_first_least (p : legacy.t) (now : time.Time) :
  legacy.servers p <> [] -> legacy.inv (legacy.servers p) p ->
  (forall s, s ∈ legacy.servers p ->
     PrimFloat.is_nan (avg (legacy.avgTime p) s) = false) ->
  exists (i : nat) (b : string) (ch : Go.chan time.Time) (p' : legacy.t),
    legacy.SelectServer p now = Returned (b, p') /\
    legacy.servers p !! i = Some b /\
    (forall (j : nat) s, (j < i)%nat -> legacy.servers p !! j = Some s ->
       PrimFloat.ltb (avg (legacy.avgTime p) b) (avg (legacy.avgTime p) s) = true) /\
    (forall s, s ∈ legacy.servers p ->
       PrimFloat.ltb (avg (legacy.avgTime p) s) (avg (legacy.avgTime p) b) = false) /\
    legacy.startTimes p !! b = Some ch /\
    legacy.startTimes p'
    = <[b := Go.mkChan fifo_capacity
               ((if Go.len (Go.chan_buf ch) <? fifo_capacity
                 then Go.chan_buf ch else tail (Go.chan_buf ch)) ++ [now])]>
        (legacy.startTimes p) /\
    legacy.inv (legacy.servers p) p' /\
    legacy.servers p' = legacy.servers p /\
    legacy.avgTime p' = legacy.avgTime p /\
    legacy.pastTimes p' = legacy.pastTimes p.
Proof.
  intros Hne Hinv Hnan.
  destruct (legacy.servers p) as [|first rest] eqn:Hsrv; [done|].
  rewrite <- Hsrv in *.
  assert (Hfirst : legacy.servers p !! 0%nat = Some first) by by rewrite Hsrv.
  destruct (lrt_scan_min_spec (legacy.avgTime p) (legacy.servers p) first Hfirst Hnan)
    as (i & Hi & Hmin & Hbefore & Hleast).
  assert (Hin : snd (scan_min (legacy.avgTime p) (legacy.servers p) first)
                ∈ legacy.servers p) by (eapply list_elem_of_lookup_2; done).
  destruct (legacy_SelectServer_eval p now first Hfirst Hinv Hin)
    as (ch & ch' & Hch & Hcap & Hbuf & Hlen & Hsel).
  assert (Hch' : ch' = Go.mkChan fifo_capacity
                         ((if Go.len (Go.chan_buf ch) <? fifo_capacity
                           then Go.chan_buf ch else tail (Go.chan_buf ch)) ++ [now])).
  { destruct ch' as [cap' buf']. simpl in Hcap, Hbuf. by rewrite Hcap, Hbuf. }
  exists i. eexists _, ch, _. split; [exact Hsel|]. split; [done|].
  rewrite <- Hmin. split; [done|]. split; [done|]. split; [done|].
  cbn [legacy.startTimes legacy.servers legacy.avgTime legacy.pastTimes].
  split; [by rewrite Hch'|]. split; [|done].
  destruct Hinv as (_ & Hkeys & Hcaps). unfold legacy.inv; simpl.
  split; [done|]. split.
  - intros s. destruct (decide (snd (scan_min (legacy.avgTime p) (legacy.servers p) first) = s))
      as [<-|Hs].
    + rewrite lookup_insert_eq. split; [done|]. intros _. by eexists.
    + rewrite lookup_insert_ne by done. apply Hkeys.
  - intros s c. destruct (decide (snd (scan_min (legacy.avgTime p) (legacy.servers p) first) = s))
      as [<-|Hs].
    + rewrite lookup_insert_eq. by intros [= <-].
    + rewrite lookup_insert_ne by done. apply Hcaps.
Qed.

Lemma scan_min_all_zero (avgm : gmap string float) (pool : list string)
    (first : string) :
  (forall s, avg avgm s = 0%float) -> scan_min avgm pool first = (0%float, first).
Proof.
  intros Hzero. unfold scan_min. rewrite Hzero.
  induction pool as [|s pool IH]; [done|].
  cbn [fold_left fst]. by rewrite Hzero.
Qed.

Lemma legacy_run_first (pool : list string) (first : string) :
  pool !! 0%nat = Some first ->
  forall (nows : list time.Time) (p : legacy.t),
    legacy.inv pool p -> (forall s, avg (legacy.avgTime p) s = 0%float) ->
    exists p',
      legacy.run (map CallSelect nows) p
      = Returned (replicate (length nows) first, p') /\
      legacy.avgTime p' = legacy.avgTime p /\
      legacy.pastTimes p' = legacy.pastTimes p.
Proof.
  intros Hfirst. induction nows as [|now nows IH]; intros p Hinv Hzero.
  - by exists p.
  - pose proof Hinv as (Hsrv & Hkeys & Hcaps).
    assert (Hin : first ∈ pool) by (eapply list_elem_of_lookup_2; done).
    pose proof (scan_min_all_zero (legacy.avgTime p) (legacy.servers p) first Hzero)
      as Hscan.
    destruct (legacy_SelectServer_eval p now first) as (ch & ch' & Hch & Hcap & _ & Hlen & Hsel).
    { by rewrite Hsrv. }
    { by rewrite Hsrv. }
    { by rewrite Hscan, Hsrv. }
    rewrite Hscan in Hsel, Hch. cbn [snd] in Hsel, Hch.
    destruct (IH (legacy.mk (legacy.servers p) (legacy.avgTime p)
                    (<[first := ch']> (legacy.startTimes p)) (legacy.pastTimes p)))
      as (p' & Hrun & Ha & Hp).
    + unfold legacy.inv; simpl. split; [done|]. split.
      * intros s. destruct (decide (first = s)) as [<-|Hs].
        -- rewrite lookup_insert_eq. split; [done|]. intros _. by eexists.
        -- rewrite lookup_insert_ne by done. apply Hkeys.
      * intros s c. destruct (decide (first = s)) as [<-|Hs].
        -- rewrite lookup_insert_eq. by intros [= <-].
        -- rewrite lookup_insert_ne by done. apply Hcaps.
    + done.
    + exists p'. split; [|done]. unfold legacy.run in *.
      cbn [map run_calls length replicate]. rewrite Hsel. cbn [mbind outcome_bind].
      rewrite Hrun. done.
Qed.

(** X13. Until the first [Update] the standalone copy is N2One: every running
    mean is [0.0], the scan keeps the first backend, and every
    [SelectServer] returns it. *)
Theorem legacy_starts_on_first (pool : list string) (first : string)
    (nows : list time.Time) :
  pool !! 0%nat = Some first ->
  exists p,
    legacy.run (map CallSelect nows) (legacy.NewLeastResponseTime pool)
    = Returned (replicate (length nows) first, p).
Proof.
  intros Hfirst.
  destruct (legacy_run_first pool first Hfirst nows (legacy.NewLeastResponseTime pool))
    as (p & Hrun & _).
  - apply legacy_inv_New.
  - apply legacy_New_avg_zero.
  - by exists p.
Qed.

End Legacy.

(** ** Start-up: the [-s] flag and the pool *)
Section MoreMain.
Import main.

Lemma append_assoc (a b c : string) : (a +:+ b) +:+ c = a +:+ (b +:+ c).
Proof.
  induction a as [|x a IH]; [done|].
  change (String x ((a +:+ b) +:+ c) = String x (a +:+ (b +:+ c))). by rewrite IH.
Qed.

Lemma append_empty_r (a : string) : a +:+ "" = a.
Proof.
  induction a as [|x a IH]; [done|].
  change (String x (a +:+ "") = String x a). by rewrite IH.
Qed.

Lemma append_nonempty (a : string) (c : ascii) (b : string) :
  String.eqb (a +:+ String c b) "" = false.
Proof. by destruct a. Qed.

Lemma fields_from_word (w rest acc : string) :
  forallb (fun c => negb (isSpace c) && (nat_of_ascii c <? 128)%nat)
          (list_ascii_of_string w) = true ->
  fields_from (w +:+ rest) acc = fields_from rest (acc +:+ w).
Proof.
  revert acc. induction w as [|c w IH]; intros acc Hw.
  - by rewrite append_empty_r.
  - cbn [list_ascii_of_string forallb] in Hw. apply andb_prop in Hw as [Hc Hw].
    apply andb_prop in Hc as [Hc _].
    change (String c w +:+ rest) with (String c (w +:+ rest)).
    cbn [fields_from]. apply negb_true_iff in Hc. rewrite Hc.
    rewrite (IH _ Hw), append_assoc. done.
Qed.

Lemma fields_from_blank (sep rest : string) :
  words.blank sep = true -> fields_from (sep +:+ rest) "" = fields_from rest "".
Proof.
  unfold words.blank. induction sep as [|c sep IH]; intros Hb; [done|].
  simpl in Hb. apply andb_prop in Hb as [Hc Hb].
  change (String c sep +:+ rest) with (String c (sep +:+ rest)).
  cbn [fields_from]. rewrite Hc. simpl. by apply IH.
Qed.

Lemma fields_from_separator (sep rest acc : string) :
  words.blank sep = true -> String.eqb sep "" = false ->
  String.eqb acc "" = false ->
  fields_from (sep +:+ rest) acc = acc :: fields_from rest "".
Proof.
  intros Hb Hne Hacc. destruct sep as [|c sep]; [done|].
  unfold words.blank in Hb. simpl in Hb. apply andb_prop in Hb as [Hc Hb].
  change (String c sep +:+ rest) with (String c (sep +:+ rest)).
  cbn [fields_from]. rewrite Hc, Hacc. f_equal. by apply fields_from_blank.
Qed.

Lemma fields_from_spaced (ws : list (string * string)) :
  words.well_spaced ws = true -> fields_from (words.spaced ws) "" = map fst ws.
Proof.
  induction ws as [|[w sep] ws IH]; intros Hws; [done|].
  cbn [words.well_spaced] in Hws.
  apply andb_prop in Hws as [Hws Hrest]. apply andb_prop in Hws as [Hws Hlast].
  apply andb_prop in Hws as [Hw Hsep].
  unfold words.is_word in Hw. apply andb_prop in Hw as [Hne Hw].
  apply negb_true_iff in Hne.
  cbn [words.spaced map fst]. rewrite (fields_from_word _ _ _ Hw). change ("" +:+ w) with w.
  destruct (String.eqb sep "") eqn:Hs.
  - apply String.eqb_eq in Hs as ->. simpl in Hlast.
    destruct ws; [|done]. simpl. by rewrite Hne.
  - rewrite (fields_from_separator _ _ _ Hsep Hs Hne). f_equal. by apply IH.
Qed.

Lemma fields_blank (s : string) : words.blank s = true -> Fields s = [].
Proof.
  intros Hb. unfold Fields. rewrite <- (append_empty_r s).
  by rewrite (fields_from_blank s "" Hb).
Qed.

Lemma policy_kind_names (name : string) (k : Policy.kind) :
  policy_kind name = Some k <->
  (name = "N2One"%string /\ k = Policy.N2One) \/
  (name = "RoundRobin"%string /\ k = Policy.RoundRobin) \/
  (name = "LeastConnections"%string /\ k = Policy.LeastConnections) \/
  (name = "LeastResponseTime"%string /\ k = Policy.LeastResponseTime).
Proof.
  unfold policy_kind. split.
  - destruct (String.eqb_spec name "N2One") as [->|_]; [intros [= <-]; tauto|].
    destruct (String.eqb_spec name "RoundRobin") as [->|_]; [intros [= <-]; tauto|].
    destruct (String.eqb_spec name "LeastConnections") as [->|_];
      [intros [= <-]; tauto|].
    destruct (String.eqb_spec name "LeastResponseTime") as [->|_];
      [intros [= <-]; tauto|].
    done.
  - intros [[-> ->]|[[-> ->]|[[-> ->]|[-> ->]]]]; reflexivity.
Qed.

(** X14. For an ASCII value of [-s] (where [main.Fields] is
    [strings.Fields]), or none:
    [main] reaches the accept loop exactly when [-s] is given and not the
    empty string, the policy name ([-a], or [RoundRobin] when absent) is one
    of the four names, spelled as they are, and the port could be bound. The
    policy is then the named one over the fields of [-s], and the port is
    [-p], or 8080 when absent. *)
Theorem main_accept_loop_iff (f : flags) (listen_ok : bool)
    (policy : Policy.t) (port : Z) :
  words.ascii_only (default ""%string (flag_s f)) = true ->
  main.main f listen_ok = AcceptLoop policy port <->
  exists s k,
    flag_s f = Some s /\ s <> ""%string /\
    ((default "RoundRobin"%string (flag_a f) = "N2One"%string /\ k = Policy.N2One) \/
     (default "RoundRobin"%string (flag_a f) = "RoundRobin"%string
      /\ k = Policy.RoundRobin) \/
     (default "RoundRobin"%string (flag_a f) = "LeastConnections"%string
      /\ k = Policy.LeastConnections) \/
     (default "RoundRobin"%string (flag_a f) = "LeastResponseTime"%string
      /\ k = Policy.LeastResponseTime)) /\
    listen_ok = true /\
    policy = Policy.New k (Fields s) /\ port = default 8080 (flag_p f).
Proof.
  intros _. unfold main.main. split.
  - destruct (flag_s f) as [s|]; simpl; [|done].
    destruct s as [|c s]; [done|]. cbn [String.length Nat.eqb].
    destruct (policy_kind _) as [k|] eqn:Hk; [|done].
    destruct listen_ok; [|done]. intros [= <- <-].
    exists (String c s), k. apply policy_kind_names in Hk. done.
  - intros (s & k & -> & Hs & Hk & -> & -> & ->).
    apply policy_kind_names in Hk. destruct s as [|c s]; [done|].
    cbn [default String.length Nat.eqb]. by rewrite Hk.
Qed.

(** X15. The pool is the list of the words of [-s]: when the flag's value is
    ASCII words (not empty, without white space) separated by white space, with
    white space before the first and after the last or not, the policy is
    built over exactly these words, in their order. *)
Theorem main_pool_is_the_words (f : flags) (listen_ok : bool) (lead : string)
    (ws : list (string * string)) (k : Policy.kind) :
  words.blank lead = true -> words.well_spaced ws = true -> ws <> [] ->
  flag_s f = Some (lead +:+ words.spaced ws) ->
  policy_kind (default "RoundRobin"%string (flag_a f)) = Some k ->
  Fields (lead +:+ words.spaced ws) = map fst ws /\
  main.main f listen_ok
  = if listen_ok
    then AcceptLoop (Policy.New k (map fst ws)) (default 8080 (flag_p f))
    else Fatal (ListenFailed (default 8080 (flag_p f))).
Proof.
  intros Hlead Hws Hne Hs Hk.
  assert (Hfields : Fields (lead +:+ words.spaced ws) = map fst ws).
  { unfold Fields. rewrite (fields_from_blank _ _ Hlead). by apply fields_from_spaced. }
  split; [done|]. unfold main.main. rewrite Hs, Hk. change (default ""%string (Some (lead +:+ words.spaced ws)))
    with (lead +:+ words.spaced ws). cbv zeta.
  rewrite Hfields.
  destruct (lead +:+ words.spaced ws) as [|c s] eqn:Hstr.
  - destruct ws; [done|]. discriminate Hfields.
  - done.
Qed.

(** X16. A value of [-s] that is white space only passes the check of [main]:
    the accept loop starts over an empty pool, and with N2One, RoundRobin
    or LeastResponseTime the first handler panics in [SelectServer]. *)
Theorem main_blank_backends_panic (f : flags) (s : string) (k : Policy.kind)
    (now : time.Time) (evs : list sessions.event) :
  flag_s f = Some s -> s <> ""%string -> words.blank s = true ->
  policy_kind (default "RoundRobin"%string (flag_a f)) = Some k ->
  k <> Policy.LeastConnections ->
  main.main f true = AcceptLoop (Policy.New k []) (default 8080 (flag_p f)) /\
  sessions.run (sessions.Start now :: evs) (sessions.start (Policy.New k []))
  = Panic.
Proof.
  intros Hs Hne Hb Hk Hlc. split.
  - unfold main.main. rewrite Hs, Hk. change (default ""%string (Some s)) with s.
    cbv zeta. rewrite (fields_blank s Hb). destruct s; [done|]. done.
  - by destruct k.
Qed.

End MoreMain.

(** ** The helper [equal] of the tests *)
Section TestHelper.
Import load_balancer_test.

(** X17. [equal] is equality of slices: same length and the same string at
    every position. *)
Theorem equal_iff (a b : list string) : equal a b = true <-> a = b.
Proof.
  unfold equal, Go.len. split.
  - destruct (Z.eqb_spec (Z.of_nat (length a)) (Z.of_nat (length b))) as [Hlen|];
      [|done].
    simpl. intros Hall. apply list_eq. intros i.
    destruct (decide (i < length a)%nat) as [Hi|Hi].
    + rewrite forallb_forall in Hall. specialize (Hall i).
      destruct (lookup_lt_is_Some_2 a i Hi) as [x Hx].
      destruct (lookup_lt_is_Some_2 b i ltac:(lia)) as [y Hy].
      rewrite Hx, Hy in *. simpl in Hall.
      destruct (String.eqb_spec x y) as [->|]; [done|].
      simpl in Hall. discriminate Hall. apply in_seq. lia.
    + rewrite !lookup_ge_None_2 by lia. done.
  - intros <-. rewrite Z.eqb_refl. simpl. apply forallb_forall. intros i _.
    by rewrite String.eqb_refl.
Qed.

End TestHelper.

(** ** The demonstration backend *)
Section Server.
Import server.

Lemma leibniz_loop_slept (n : nat) :
  forall (i : Z) (rv : float) (slept : time.Duration),
    snd (leibniz_loop n i rv slept) = slept + Z.of_nat n * Millisecond.
Proof.
  induction n as [|n IH]; intros i rv slept.
  - simpl. lia.
  - cbn [leibniz_loop]. rewrite IH. lia.
Qed.

(** X18. [leibnizPiPrecision] sleeps one millisecond for each of its
    [precision] iterations, none when [precision] is negative; with no
    iteration the result is [4.0]. *)
Theorem leibniz_sleeps_per_iteration (precision : Z) :
  snd (leibnizPiPrecision precision) = Z.max 0 precision * Millisecond /\
  (precision <= 0 -> fst (leibnizPiPrecision precision) = 4%float).
Proof.
  unfold leibnizPiPrecision. split.
  - pose proof (leibniz_loop_slept (Z.to_nat precision) 0 1 0) as H.
    destruct (leibniz_loop _ _ _ _) as [rv slept]. simpl in *. lia.
  - intros Hp. replace (Z.to_nat precision) with 0%nat by lia. reflexivity.
Qed.

End Server.

(** ** Edges of [SelectServer] and [Update] *)
Section Edges.

(** X19. When no backend of the pool has a count below the largest [int] (the
    pool is empty, or every backend is saturated), the scan of
    LeastConnections keeps its initial [selected]: [SelectServer] returns
    the empty string and counts a connection under that key. *)
Theorem least_connections_no_candidate (p : LeastConnections.t) :
  (forall s, s ∈ LeastConnections.servers p ->
     Go.max_int <= LeastConnections.get (LeastConnections.connections p) s) ->
  LeastConnections.SelectServer p
  = (""%string,
     LeastConnections.mk (LeastConnections.servers p)
       (<[""%string :=
            Go.int_add (LeastConnections.get (LeastConnections.connections p) "") 1]>
          (LeastConnections.connections p))).
Proof.
  intros Hall. unfold LeastConnections.SelectServer, LeastConnections.scan.
  destruct (lc_scan_first_fold (LeastConnections.connections p)
              (LeastConnections.servers p) Go.max_int "")
    as [[-> _]|(i & Hi & Hget & Hlt & _)].
  - done.
  - apply list_elem_of_lookup_2 in Hi. specialize (Hall _ Hi). lia.
Qed.

(** X20. A policy fresh from its constructor ignores [Update], whichever
    backend it names: no count is positive and no start time is pending. *)
Theorem fresh_policy_ignores_update (k : Policy.kind) (pool : list string)
    (s : string) (now : time.Time) :
  Policy.Update (Policy.New k pool) s now = Policy.New k pool.
Proof.
  destruct k; simpl; try done.
  - unfold LeastConnections.Update, LeastConnections.NewLeastConnections.
    cbn [LeastConnections.connections]. rewrite fold_insert_lookup.
    destruct (decide (s ∈ pool)); [done|]. by rewrite lookup_empty.
  - unfold LeastResponseTime.Update, LeastResponseTime.NewLeastResponseTime.
    cbn [LeastResponseTime.startTimes]. rewrite fold_insert_lookup.
    destruct (decide (s ∈ pool)); [done|]. by rewrite lookup_empty.
Qed.

End Edges.

(** ** A failed dial under RoundRobin and LeastResponseTime *)
Section DialFailure.
Import LeastResponseTime.

(** X21. With RoundRobin, the handler of a connection whose dial fails leaves
    the cursor one position further: the [Update] after the failure does
    not take the selection back. *)
Theorem dial_failure_round_robin (pool : list string) (i : Z)
    (t_select t_update : time.Time) :
  Go.len pool <= Go.max_int -> 0 <= i < Go.len pool ->
  main.handleClient_dial_error (Policy.OfRoundRobin (RoundRobin.mk pool i))
    t_select t_update
  = Returned (Policy.OfRoundRobin (RoundRobin.mk pool ((i + 1) mod Go.len pool))).
Proof.
  intros Hlen Hi. destruct (index_in_range pool i Hi) as (a & Ha & _).
  unfold main.handleClient_dial_error. simpl.
  rewrite (rr_SelectServer_at pool i a) by (done || lia). done.
Qed.


End DialFailure.

(** ** The properties above on the pool of the tests *)
Section MoreInstances.
Import load_balancer_test.

Lemma first_server : servers !! 0%nat = Some "localhost:5000"%string.
Proof. reflexivity. Defined.

Lemma first_server_in : "localhost:5000"%string ∈ servers.
Proof. apply elem_of_cons. by left. Defined.

Lemma round_robin_turns_witness :
  let cs := update_test_calls peers sleep_clock sleep_clock 8 0 in
  servers <> [] /\ Go.len servers <= Go.max_int /\
  RoundRobin.run cs (RoundRobin.NewRoundRobin servers)
  = Returned (map (reach.turn servers) (seq 0 (reach.selects cs)),
              RoundRobin.mk servers
                (Z.of_nat (reach.selects cs mod length servers))).
Proof.
  cbv zeta. split; [exact servers_nonempty|]. split; [exact servers_len|].
  exact (round_robin_turns servers
           (update_test_calls peers sleep_clock sleep_clock 8 0)
           servers_nonempty servers_len).
Defined.

Lemma least_connections_selects_first_least_witness :
  let p := LeastConnections.NewLeastConnections servers in
  "localhost:5000"%string ∈ LeastConnections.servers p /\
  LeastConnections.get (LeastConnections.connections p) "localhost:5000"
  < Go.max_int /\
  exists i : nat,
    LeastConnections.servers p !! i = Some (fst (LeastConnections.SelectServer p)) /\
    (forall (j : nat) s, (j < i)%nat -> LeastConnections.servers p !! j = Some s ->
       LeastConnections.get (LeastConnections.connections p)
         (fst (LeastConnections.SelectServer p))
       < LeastConnections.get (LeastConnections.connections p) s) /\
    (forall s, s ∈ LeastConnections.servers p ->
       LeastConnections.get (LeastConnections.connections p)
         (fst (LeastConnections.SelectServer p))
       <= LeastConnections.get (LeastConnections.connections p) s).
Proof.
  cbv zeta. split; [exact first_server_in|]. split; [reflexivity|].
  exact (least_connections_selects_first_least
           (LeastConnections.NewLeastConnections servers) "localhost:5000"
           first_server_in eq_refl).
Defined.

Lemma six_selections : Go.len [0; 1; 2; 3; 4; 5] <= Go.max_int.
Proof. rewrite max_int_eq. unfold Go.len. simpl. lia. Defined.

Lemma least_connections_deals_in_turn_witness :
  let nows := [0; 1; 2; 3; 4; 5] in
  NoDup servers /\ servers <> [] /\ Go.len nows <= Go.max_int /\
  fst (LeastConnections.run (map CallSelect nows)
         (LeastConnections.NewLeastConnections servers))
  = map (fun j => LeastConnections.Selected (reach.turn servers j))
        (seq 0 (length nows)) /\
  forall (i : nat) s, servers !! i = Some s ->
    LeastConnections.get
      (LeastConnections.connections
         (snd (LeastConnections.run (map CallSelect nows)
                 (LeastConnections.NewLeastConnections servers)))) s
    = Z.of_nat (length nows / length servers)
      + (if (i <? length nows mod length servers)%nat then 1 else 0).
Proof.
  cbv zeta. split; [exact servers_NoDup|]. split; [exact servers_nonempty|].
  split; [exact six_selections|].
  exact (least_connections_deals_in_turn servers [0; 1; 2; 3; 4; 5]
           servers_NoDup servers_nonempty six_selections).
Defined.

Lemma handlers_len :
  Go.len [sessions.Start 0; sessions.Start 1; sessions.Start 2;
          sessions.Finish 1 3; sessions.Start 4; sessions.Finish 0 5]
  <= Go.max_int.
Proof. rewrite max_int_eq. unfold Go.len. simpl. lia. Defined.

Lemma handlers_fit :
  Go.len [sessions.Start 0; sessions.Start 1; sessions.Start 2;
          sessions.Finish 1 3; sessions.Start 4; sessions.Finish 0 5]
  <= LeastResponseTime.fifo_capacity.
Proof. unfold Go.len, LeastResponseTime.fifo_capacity. simpl. lia. Defined.

Lemma least_connections_counts_handlers_witness :
  let evs := [sessions.Start 0; sessions.Start 1; sessions.Start 2;
              sessions.Finish 1 3; sessions.Start 4; sessions.Finish 0 5] in
  Go.len evs <= Go.max_int /\
  exists p l fin,
    sessions.run evs
      (sessions.start (Policy.New Policy.LeastConnections servers))
    = Returned (sessions.mk (Policy.OfLeastConnections p) l fin) /\
    LeastConnections.servers p = servers /\
    forall b, LeastConnections.get (LeastConnections.connections p) b
              = sessions.holding b l.
Proof.
  cbv zeta. split; [exact handlers_len|].
  exact (least_connections_counts_handlers servers _ handlers_len).
Defined.

Lemma policy_run_returns_pool_members_witness :
  let cs := update_test_calls peers sleep_clock sleep_clock 8 0 in
  servers <> [] /\ Go.len servers <= Go.max_int /\ Go.len cs < Go.max_int /\
  exists bs p,
    Policy.run cs (Policy.New Policy.LeastResponseTime servers) = Returned (bs, p) /\
    length bs = reach.selects cs /\
    Forall (fun b => b ∈ servers) bs /\
    Policy.servers p = servers /\ Policy.kind_of p = Policy.LeastResponseTime.
Proof.
  cbv zeta. split; [exact servers_nonempty|]. split; [exact servers_len|].
  split; [exact scenario_len|].
  exact (policy_run_returns_pool_members Policy.LeastResponseTime servers
           (update_test_calls peers sleep_clock sleep_clock 8 0)
           servers_nonempty servers_len scenario_len).
Defined.

Lemma least_response_time_mean_of_history_witness :
  let cs := update_test_calls peers sleep_clock sleep_clock 8 0 in
  servers <> [] /\ Go.len servers <= Go.max_int /\
  exists bs p,
    LeastResponseTime.run cs (LeastResponseTime.NewLeastResponseTime servers)
    = Returned (bs, p) /\
    forall b, LeastResponseTime.avgTime p !! b
              = reach.mean_of <$> LeastResponseTime.pastTimes p !! b.
Proof.
  cbv zeta. split; [exact servers_nonempty|]. split; [exact servers_len|].
  exact (least_response_time_mean_of_history servers
           (update_test_calls peers sleep_clock sleep_clock 8 0)
           servers_nonempty servers_len).
Defined.

Lemma least_response_time_starts_round_robin_witness :
  let nows := [0; 1; 2; 3; 4; 5] in
  servers <> [] /\ Go.len servers <= Go.max_int /\
  exists p,
    LeastResponseTime.run (map CallSelect nows)
      (LeastResponseTime.NewLeastResponseTime servers)
    = Returned (map (reach.turn servers) (seq 0 (length nows)), p).
Proof.
  cbv zeta. split; [exact servers_nonempty|]. split; [exact servers_len|].
  exact (least_response_time_starts_round_robin servers [0; 1; 2; 3; 4; 5]
           servers_nonempty servers_len).
Defined.

Lemma least_response_time_one_sample_per_handler_witness :
  let evs := [sessions.Start 0; sessions.Start 1; sessions.Start 2;
              sessions.Finish 1 3; sessions.Start 4; sessions.Finish 0 5] in
  servers <> [] /\ Go.len servers <= Go.max_int /\
  Go.len evs <= LeastResponseTime.fifo_capacity /\
  exists p l fin,
    handlers.run (handlers.serial evs)
      (handlers.start (LeastResponseTime.NewLeastResponseTime servers))
    = Returned (handlers.mk p 0 l fin) /\
    forall b, reach.pending p b = sessions.holding b l /\
              Go.len (LeastResponseTime.past (LeastResponseTime.pastTimes p) b)
              = sessions.holding b fin.
Proof.
  cbv zeta. split; [exact servers_nonempty|]. split; [exact servers_len|].
  split; [exact handlers_fit|].
  exact (least_response_time_one_sample_per_handler servers _
           servers_nonempty servers_len handlers_fit).
Defined.

Lemma first_two_differ : "localhost:5000"%string <> "localhost:5001"%string.
Proof. discriminate. Defined.

Lemma overlapping_selections_share_backend_witness :
  let b0 := "localhost:5000"%string in
  let b1 := "localhost:5001"%string in
  let rest := ["localhost:5002"; "localhost:5003"]%string in
  b0 <> b1 /\ Go.len (b0 :: b1 :: rest) <= Go.max_int /\
  exists p,
    handlers.run
      [handlers.Lock 0; handlers.Lock 1; handlers.Return; handlers.Return;
       handlers.Finish 0 (100 * Millisecond); handlers.Finish 0 (200 * Millisecond)]
      (handlers.start (LeastResponseTime.NewLeastResponseTime (b0 :: b1 :: rest)))
    = Returned (handlers.mk p 0 [] [b1; b1]) /\
    (exists ch, LeastResponseTime.startTimes p !! b0 = Some ch /\
                Go.chan_buf ch = [0]) /\
    (exists ch, LeastResponseTime.startTimes p !! b1 = Some ch /\
                Go.chan_buf ch = []) /\
    LeastResponseTime.past (LeastResponseTime.pastTimes p) b0 = [] /\
    LeastResponseTime.past (LeastResponseTime.pastTimes p) b1
    = [time.Seconds (time.Since (100 * Millisecond) 1)].
Proof.
  cbv zeta. split; [exact first_two_differ|]. split; [exact servers_len|].
  exact (overlapping_selections_share_backend "localhost:5000" "localhost:5001"
           ["localhost:5002"; "localhost:5003"]%string
           0 1 (100 * Millisecond) (200 * Millisecond)
           first_two_differ servers_len).
Defined.

Lemma select_frame_witness :
  let p := Policy.New Policy.LeastConnections servers in
  let p' := Policy.OfLeastConnections
              (snd (LeastConnections.SelectServer
                      (LeastConnections.NewLeastConnections servers))) in
  let b := "localhost:5000"%string in
  let s := "localhost:5001"%string in
  Policy.SelectServer p 0 = Returned (b, p') /\
  Policy.servers p' = Policy.servers p /\
  Policy.kind_of p' = Policy.kind_of p /\
  (s <> b -> Policy.per_backend p' s = Policy.per_backend p s) /\
  Policy.bs_avg (Policy.per_backend p' b) = Policy.bs_avg (Policy.per_backend p b) /\
  Policy.bs_history (Policy.per_backend p' b)
  = Policy.bs_history (Policy.per_backend p b) /\
  (Policy.kind_of p = Policy.N2One -> p' = p).
Proof.
  cbv zeta. split; [reflexivity|].
  exact (select_frame (Policy.New Policy.LeastConnections servers) _ 0
           "localhost:5000" "localhost:5001" eq_refl).
Defined.

Lemma legacy_fresh_no_nan :
  forall s, s ∈ legacy.servers (legacy.NewLeastResponseTime servers) ->
    PrimFloat.is_nan
      (LeastResponseTime.avg
         (legacy.avgTime (legacy.NewLeastResponseTime servers)) s) = false.
Proof. intros s _. by rewrite legacy_New_avg_zero. Defined.

Lemma legacy_selects_first_least_witness :
  let p := legacy.NewLeastResponseTime servers in
  legacy.servers p <> [] /\ legacy.inv (legacy.servers p) p /\
  (forall s, s ∈ legacy.servers p ->
     PrimFloat.is_nan (LeastResponseTime.avg (legacy.avgTime p) s) = false) /\
  exists (i : nat) (b : string) (ch : Go.chan time.Time) (p' : legacy.t),
    legacy.SelectServer p 7 = Returned (b, p') /\
    legacy.servers p !! i = Some b /\
    (forall (j : nat) s, (j < i)%nat -> legacy.servers p !! j = Some s ->
       PrimFloat.ltb (LeastResponseTime.avg (legacy.avgTime p) b)
                     (LeastResponseTime.avg (legacy.avgTime p) s) = true) /\
    (forall s, s ∈ legacy.servers p ->
       PrimFloat.ltb (LeastResponseTime.avg (legacy.avgTime p) s)
                     (LeastResponseTime.avg (legacy.avgTime p) b) = false) /\
    legacy.startTimes p !! b = Some ch /\
    legacy.startTimes p'
    = <[b := Go.mkChan LeastResponseTime.fifo_capacity
               ((if Go.len (Go.chan_buf ch) <? LeastResponseTime.fifo_capacity
                 then Go.chan_buf ch else tail (Go.chan_buf ch)) ++ [7])]>
        (legacy.startTimes p) /\
    legacy.inv (legacy.servers p) p' /\
    legacy.servers p' = legacy.servers p /\
    legacy.avgTime p' = legacy.avgTime p /\
    legacy.pastTimes p' = legacy.pastTimes p.
Proof.
  cbv zeta. split; [exact servers_nonempty|].
  split; [exact (legacy_inv_New servers)|]. split; [exact legacy_fresh_no_nan|].
  exact (legacy_selects_first_least (legacy.NewLeastResponseTime servers) 7
           servers_nonempty (legacy_inv_New servers) legacy_fresh_no_nan).
Defined.

Lemma legacy_starts_on_first_witness :
  let nows := [0; 1; 2; 3; 4; 5] in
  servers !! 0%nat = Some "localhost:5000"%string /\
  exists p,
    legacy.run (map CallSelect nows) (legacy.NewLeastResponseTime servers)
    = Returned (replicate (length nows) "localhost:5000"%string, p).
Proof.
  cbv zeta. split; [exact first_server|].
  exact (legacy_starts_on_first servers "localhost:5000" [0; 1; 2; 3; 4; 5]
           first_server).
Defined.

Lemma main_pool_is_the_words_witness :
  let f := main.mkFlags (Some "LeastConnections"%string) None
             (Some " localhost:8000  localhost:8001"%string) in
  let ws := [("localhost:8000", "  "); ("localhost:8001", "")]%string in
  words.blank " " = true /\ words.well_spaced ws = true /\ ws <> [] /\
  main.flag_s f = Some (" " +:+ words.spaced ws) /\
  main.policy_kind (default "RoundRobin"%string (main.flag_a f))
  = Some Policy.LeastConnections /\
  main.Fields (" " +:+ words.spaced ws) = map fst ws /\
  main.main f true
  = main.AcceptLoop (Policy.New Policy.LeastConnections (map fst ws))
      (default 8080 (main.flag_p f)).
Proof.
  cbv zeta. split; [reflexivity|]. split; [reflexivity|]. split; [discriminate|].
  split; [reflexivity|]. split; [reflexivity|].
  exact (main_pool_is_the_words
           (main.mkFlags (Some "LeastConnections"%string) None
              (Some " localhost:8000  localhost:8001"%string))
           true " " [("localhost:8000", "  "); ("localhost:8001", "")]%string
           Policy.LeastConnections eq_refl eq_refl
           ltac:(discriminate) eq_refl eq_refl).
Defined.

Lemma main_blank_backends_panic_witness :
  let f := main.mkFlags None (Some 9000) (Some "  "%string) in
  main.flag_s f = Some "  "%string /\ "  "%string <> ""%string /\
  words.blank "  " = true /\
  main.policy_kind (default "RoundRobin"%string (main.flag_a f))
  = Some Policy.RoundRobin /\
  Policy.RoundRobin <> Policy.LeastConnections /\
  main.main f true
  = main.AcceptLoop (Policy.New Policy.RoundRobin []) (default 8080 (main.flag_p f)) /\
  sessions.run [sessions.Start 0; sessions.Finish 0 1]
    (sessions.start (Policy.New Policy.RoundRobin []))
  = Panic.
Proof.
  cbv zeta. split; [reflexivity|]. split; [discriminate|]. split; [reflexivity|].
  split; [reflexivity|]. split; [discriminate|].
  exact (main_blank_backends_panic (main.mkFlags None (Some 9000) (Some "  "%string))
           "  " Policy.RoundRobin 0 [sessions.Finish 0 1]
           eq_refl ltac:(discriminate) eq_refl eq_refl ltac:(discriminate)).
Defined.

Lemma saturated_pool :
  forall s,
    s ∈ LeastConnections.servers
          (LeastConnections.mk ["localhost:5000"%string]
             {[ "localhost:5000"%string := Go.max_int ]}) ->
    Go.max_int
    <= LeastConnections.get
         (LeastConnections.connections
            (LeastConnections.mk ["localhost:5000"%string]
               {[ "localhost:5000"%string := Go.max_int ]})) s.
Proof.
  intros s Hs. apply list_elem_of_singleton in Hs as ->.
  cbn [LeastConnections.connections]. unfold LeastConnections.get.
  rewrite lookup_singleton_eq. simpl. lia.
Defined.

Lemma least_connections_no_candidate_witness :
  let p := LeastConnections.mk ["localhost:5000"%string]
             {[ "localhost:5000"%string := Go.max_int ]} in
  (forall s, s ∈ LeastConnections.servers p ->
     Go.max_int <= LeastConnections.get (LeastConnections.connections p) s) /\
  LeastConnections.SelectServer p
  = (""%string,
     LeastConnections.mk (LeastConnections.servers p)
       (<[""%string :=
            Go.int_add (LeastConnections.get (LeastConnections.connections p) "") 1]>
          (LeastConnections.connections p))).
Proof.
  cbv zeta. split; [exact saturated_pool|].
  exact (least_connections_no_candidate _ saturated_pool).
Defined.

Lemma last_position : 0 <= 3 < Go.len servers.
Proof. unfold Go.len. simpl. lia. Defined.

Lemma dial_failure_round_robin_witness :
  Go.len servers <= Go.max_int /\ 0 <= 3 < Go.len servers /\
  main.handleClient_dial_error (Policy.OfRoundRobin (RoundRobin.mk servers 3))
    0 Millisecond
  = Returned (Policy.OfRoundRobin (RoundRobin.mk servers ((3 + 1) mod Go.len servers))).
Proof.
  split; [exact servers_len|]. split; [exact last_position|].
  exact (dial_failure_round_robin servers 3 0 Millisecond servers_len last_position).
Defined.




(** On that state the sample is measured from the start that was pending,
    96ms before the [Update], and not from the handler's own selection. *)
Example dial_failure_sample_from_oldest :
  match main.handleClient_dial_error
          (Policy.OfLeastResponseTime
             (LeastResponseTime.mk ["localhost:5000"%string]
                {[ "localhost:5000"%string := 0%float ]}
                {[ "localhost:5000"%string
                   := Go.mkChan LeastResponseTime.fifo_capacity [5 * Millisecond] ]}
                {[ "localhost:5000"%string := [] ]} 0))
          (100 * Millisecond) (101 * Millisecond) with
  | Returned (Policy.OfLeastResponseTime q) =>
      LeastResponseTime.pastTimes q !! "localhost:5000"%string
      = Some [time.Seconds (96 * Millisecond)] /\
      (LeastResponseTime.startTimes q !! "localhost:5000"%string)
      = Some (Go.mkChan LeastResponseTime.fifo_capacity [100 * Millisecond])
  | _ => False
  end.
Proof. vm_compute. split; reflexivity. Qed.

Lemma ascii_flag :
  words.ascii_only
    (default ""%string
       (main.flag_s (main.mkFlags (Some "LeastConnections"%string) (Some 9000)
                       (Some "localhost:8000 localhost:8001"%string)))) = true.
Proof. reflexivity. Defined.

Lemma main_accept_loop_iff_witness :
  let f := main.mkFlags (Some "LeastConnections"%string) (Some 9000)
             (Some "localhost:8000 localhost:8001"%string) in
  let policy := Policy.New Policy.LeastConnections
                  ["localhost:8000"; "localhost:8001"]%string in
  words.ascii_only (default ""%string (main.flag_s f)) = true /\
  (main.main f true = main.AcceptLoop policy 9000 <->
   exists s k,
     main.flag_s f = Some s /\ s <> ""%string /\
     ((default "RoundRobin"%string (main.flag_a f) = "N2One"%string
       /\ k = Policy.N2One) \/
      (default "RoundRobin"%string (main.flag_a f) = "RoundRobin"%string
       /\ k = Policy.RoundRobin) \/
      (default "RoundRobin"%string (main.flag_a f) = "LeastConnections"%string
       /\ k = Policy.LeastConnections) \/
      (default "RoundRobin"%string (main.flag_a f) = "LeastResponseTime"%string
       /\ k = Policy.LeastResponseTime)) /\
     true = true /\
     policy = Policy.New k (main.Fields s) /\
     9000 = default 8080 (main.flag_p f)).
Proof.
  cbv zeta. split; [exact ascii_flag|].
  exact (main_accept_loop_iff
           (main.mkFlags (Some "LeastConnections"%string) (Some 9000)
              (Some "localhost:8000 localhost:8001"%string))
           true
           (Policy.New Policy.LeastConnections
              ["localhost:8000"; "localhost:8001"]%string)
           9000 ascii_flag).
Defined.

End MoreInstances.
